(** * RenderMind: instruction-to-execution pipeline

    A shallow embedding of the Python sources of the RenderMind Blender
    add-on, and the properties its design document states about them.

    Conventions.  A Python [str] is a [string]; a character is a code point
    below 256, so case folding, whitespace and word characters are the
    Unicode ones restricted to that range.  Python built-ins ([str.split],
    [str.strip], [str.replace], [re.finditer], a stable [list.sort]) are
    given by executable definitions.  What lives outside the repository
    (the Python parser and interpreter, [float], the Blender host, the
    language-model backend) is a parameter of the functions that call it. *)

From Stdlib Require Import List String Ascii Bool Arith PeanoNat ZArith Lia.
From Stdlib Require Import DecimalString Permutation Sorted.
Import ListNotations.
Open Scope list_scope.
Open Scope string_scope.
Open Scope nat_scope.

(* ================================================================== *)
(** * Python strings *)
(* ================================================================== *)

Module PyStr.

Definition code (c : ascii) : nat := nat_of_ascii c.

Definition between (lo hi n : nat) : bool := (lo <=? n) && (n <=? hi).

(** [str.isspace] on one character. *)
Definition is_space (c : ascii) : bool :=
  let n := code c in
  between 9 13 n || between 28 32 n || (n =? 133) || (n =? 160).

(** The class [\w] of [re] on [str] patterns: alphanumeric or underscore. *)
Definition is_word (c : ascii) : bool :=
  let n := code c in
  between 48 57 n || between 65 90 n || between 97 122 n || (n =? 95)
  || (n =? 170) || (n =? 178) || (n =? 179) || (n =? 181) || (n =? 185)
  || (n =? 186) || between 188 190 n || between 192 214 n
  || between 216 246 n || between 248 255 n.

Definition lower_char (c : ascii) : ascii :=
  let n := code c in
  if between 65 90 n || (between 192 222 n && negb (n =? 215))
  then ascii_of_nat (n + 32) else c.

(** [s.lower()] *)
Fixpoint lower (s : string) : string :=
  match s with
  | EmptyString => EmptyString
  | String c s' => String (lower_char c) (lower s')
  end.

(** [s[n:]] *)
Fixpoint drop (n : nat) (s : string) : string :=
  match n, s with
  | O, _ => s
  | S _, EmptyString => EmptyString
  | S n', String _ s' => drop n' s'
  end.

(** [s[:n]] *)
Fixpoint take (n : nat) (s : string) : string :=
  match n, s with
  | O, _ => EmptyString
  | S _, EmptyString => EmptyString
  | S n', String c s' => String c (take n' s')
  end.

(** [s.startswith(p)], returning what follows the prefix. *)
Fixpoint strip_prefix (p s : string) : option string :=
  match p, s with
  | EmptyString, _ => Some s
  | String _ _, EmptyString => None
  | String a p', String b s' =>
      if Ascii.eqb a b then strip_prefix p' s' else None
  end.

Definition starts_with (p s : string) : bool :=
  match strip_prefix p s with Some _ => true | None => false end.

(** [s.partition(sep)]: the text before the first occurrence of [sep] and
    the text after it; [None] when [sep] does not occur. *)
Fixpoint partition (sep s : string) : option (string * string) :=
  match strip_prefix sep s with
  | Some rest => Some (EmptyString, rest)
  | None =>
      match s with
      | EmptyString => None
      | String c s' =>
          match partition sep s' with
          | Some (a, b) => Some (String c a, b)
          | None => None
          end
      end
  end.

(** [sub in s] *)
Definition contains (sub s : string) : bool :=
  match partition sub s with Some _ => true | None => false end.

(** [s.index(sub)]; [None] stands for the [ValueError]. *)
Definition index (sub s : string) : option nat :=
  match partition sub s with
  | Some (a, _) => Some (String.length a)
  | None => None
  end.

(** [s.split(sep)] for a non-empty [sep].  Every cut removes at least one
    character, so [length s] rounds are enough. *)
Fixpoint split_fuel (fuel : nat) (sep s : string) : list string :=
  match fuel with
  | O => [s]
  | S fuel' =>
      match partition sep s with
      | None => [s]
      | Some (a, rest) => a :: split_fuel fuel' sep rest
      end
  end.

Definition split (sep s : string) : list string :=
  split_fuel (String.length s) sep s.

(** [s.lstrip(chars)] and [s.rstrip(chars)], the set given as a predicate. *)
Fixpoint lstrip_by (f : ascii -> bool) (s : string) : string :=
  match s with
  | EmptyString => EmptyString
  | String c s' => if f c then lstrip_by f s' else s
  end.

Fixpoint rstrip_by (f : ascii -> bool) (s : string) : string :=
  match s with
  | EmptyString => EmptyString
  | String c s' =>
      match rstrip_by f s' with
      | EmptyString => if f c then EmptyString else String c EmptyString
      | r => String c r
      end
  end.

Definition strip_by (f : ascii -> bool) (s : string) : string :=
  rstrip_by f (lstrip_by f s).

(** [s.strip()] *)
Definition strip (s : string) : string := strip_by is_space s.

Fixpoint mem_char (c : ascii) (chars : string) : bool :=
  match chars with
  | EmptyString => false
  | String d r => Ascii.eqb c d || mem_char c r
  end.

(** [s.strip(chars)] *)
Definition strip_chars (chars s : string) : string :=
  strip_by (fun c => mem_char c chars) s.

(** [s.split()]: the maximal runs of non-whitespace characters. *)
Fixpoint split_ws (s : string) : list string :=
  match s with
  | EmptyString => []
  | String c s' =>
      if is_space c then split_ws s'
      else
        match s' with
        | EmptyString => [String c EmptyString]
        | String c' _ =>
            if is_space c' then String c EmptyString :: split_ws s'
            else
              match split_ws s' with
              | w :: ws => String c w :: ws
              | [] => [String c EmptyString]
              end
        end
  end.

(** [s.replace(old, new)] for a non-empty [old]: occurrences are replaced
    from left to right and do not overlap.  [skip] counts the characters of
    the occurrence just replaced that are still to be passed over. *)
Fixpoint replace_from (skip : nat) (old new s : string) : string :=
  match s with
  | EmptyString => EmptyString
  | String c s' =>
      match skip with
      | S k => replace_from k old new s'
      | O =>
          if starts_with old s
          then new ++ replace_from (String.length old - 1) old new s'
          else String c (replace_from 0 old new s')
      end
  end.

Definition replace (old new s : string) : string := replace_from 0 old new s.

(** [sep.join(items)] *)
Fixpoint join (sep : string) (items : list string) : string :=
  match items with
  | [] => EmptyString
  | [x] => x
  | x :: rest => x ++ sep ++ join sep rest
  end.

(** [x in items] for a list of strings. *)
Definition mem (x : string) (items : list string) : bool :=
  existsb (String.eqb x) items.

(** The line feed, written [\n] in the sources. *)
Definition nl : string := String (ascii_of_nat 10) EmptyString.

(** Python truthiness of a [str]. *)
Definition truthy (s : string) : bool :=
  match s with EmptyString => false | _ => true end.

End PyStr.

(* ================================================================== *)
(** * The fragment of [re] the safety filter uses *)
(* ================================================================== *)

Module Re.
Import PyStr.

(** A pattern is a sequence of atoms.  The patterns of the safety filter
    need literals, [\s+], one capturing [(\w+)] and one alternation of
    literal words. *)
Inductive atom : Type :=
| Lit (c : ascii)
| AltLit (words : list string)
| Spaces
| Word.

Definition pattern := list atom.

(** A literal under [re.IGNORECASE] ([ic = true]) or without it. *)
Definition chr_eq (ic : bool) (c x : ascii) : bool :=
  if ic then Ascii.eqb (lower_char c) (lower_char x) else Ascii.eqb c x.

Fixpoint lit_prefix (ic : bool) (w s : string) : option string :=
  match w, s with
  | EmptyString, _ => Some s
  | String _ _, EmptyString => None
  | String a w', String b s' =>
      if chr_eq ic a b then lit_prefix ic w' s' else None
  end.

(** A greedy run [class+] followed by the continuation [k]: take as many
    characters as possible and give back one at a time while [k] fails.
    The result is the number of characters consumed and the text of the
    capturing group. *)
Fixpoint plus_run (f : ascii -> bool) (capture : bool)
    (k : string -> option (nat * string)) (s : string)
    : option (nat * string) :=
  match s with
  | EmptyString => None
  | String x s' =>
      if f x then
        match plus_run f capture k s' with
        | Some (n, g) => Some (S n, if capture then String x g else g)
        | None =>
            match k s' with
            | Some (n, g) =>
                Some (S n, if capture then String x EmptyString else g)
            | None => None
            end
        end
      else None
  end.

(** [pattern.match(s)]: a match of [p] that starts at the head of [s]. *)
Fixpoint match_here (ic : bool) (p : pattern) (s : string) {struct p}
    : option (nat * string) :=
  match p with
  | [] => Some (0, EmptyString)
  | Lit c :: p' =>
      match s with
      | EmptyString => None
      | String x s' =>
          if chr_eq ic c x then
            match match_here ic p' s' with
            | Some (n, g) => Some (S n, g)
            | None => None
            end
          else None
      end
  | AltLit words :: p' =>
      (fix alternatives (ws : list string) : option (nat * string) :=
         match ws with
         | [] => None
         | w :: ws' =>
             match lit_prefix ic w s with
             | Some rest =>
                 match match_here ic p' rest with
                 | Some (n, g) => Some (String.length w + n, g)
                 | None => alternatives ws'
                 end
             | None => alternatives ws'
             end
         end) words
  | Spaces :: p' => plus_run is_space false (match_here ic p') s
  | Word :: p' => plus_run is_word true (match_here ic p') s
  end.

(** A match object: [m.start()], [m.group()] and [m.group(1)]. *)
Record re_match : Type := mkMatch {
  m_start : nat;
  m_group : string;
  m_group1 : string
}.

(** [re.finditer]: the string is scanned from left to right and the matches
    reported do not overlap; [skip] counts the characters of the last match
    still to be passed over.  None of the patterns used matches the empty
    string, and an empty match is not reported. *)
Fixpoint finditer_from (ic : bool) (p : pattern) (pos skip : nat)
    (s : string) : list re_match :=
  match s with
  | EmptyString => []
  | String _ s' =>
      match skip with
      | S k => finditer_from ic p (S pos) k s'
      | O =>
          match match_here ic p s with
          | Some (S n, g) =>
              mkMatch pos (take (S n) s) g :: finditer_from ic p (S pos) n s'
          | _ => finditer_from ic p (S pos) 0 s'
          end
      end
  end.

Definition finditer (ic : bool) (p : pattern) (s : string) : list re_match :=
  finditer_from ic p 0 0 s.

(** Pattern sources of the form used by the blocklist: a backslash escapes
    the next character, except that [\s+] is a run of whitespace. *)
Fixpoint compile (src : string) : pattern :=
  match src with
  | EmptyString => []
  | String c rest =>
      if Ascii.eqb c "\" then
        match rest with
        | EmptyString => [Lit c]
        | String e rest1 =>
            match rest1 with
            | String q rest2 =>
                if Ascii.eqb e "s" && Ascii.eqb q "+"
                then Spaces :: compile rest2
                else Lit e :: compile rest1
            | EmptyString => Lit e :: compile rest1
            end
        end
      else Lit c :: compile rest
  end.

End Re.

(* ================================================================== *)
(** * utils/safe_filters.py *)
(* ================================================================== *)

(** ** Exceptions and outcomes *)

(** The classes of exception the sources raise or catch.  [BaseOnly] stands
    for the classes outside [Exception] ([SystemExit], [KeyboardInterrupt],
    ...), which [except Exception] lets through. *)
Inductive exc_class : Type :=
| RuntimeError
| ValueError
| IndexError
| TypeError
| OtherException (name : string)
| BaseOnly (name : string).

Record exn : Type := mkExn { exc_cls : exc_class; exc_msg : string }.

(** [isinstance(e, Exception)] *)
Definition is_Exception (e : exn) : bool :=
  match exc_cls e with BaseOnly _ => false | _ => true end.

(** [str(e)] *)
Definition str_exn (e : exn) : string := exc_msg e.

(** A call returns a value or lets an exception escape. *)
Inductive outcome (A : Type) : Type :=
| Returns (a : A)
| Raises (e : exn).
Arguments Returns {A} a.
Arguments Raises {A} e.

(** What [compile(code, '<string>', 'exec')] can do: succeed, raise a
    [SyntaxError] with a message, or raise something else. *)
Inductive compile_result : Type :=
| Compiled
| SyntaxError (msg : string)
| CompileRaised (e : exn).

(** [l[i]] on a list: an [IndexError] when there is no such item. *)
Definition item {A : Type} (l : list A) (i : nat) : outcome A :=
  match nth_error l i with
  | Some x => Returns x
  | None => Raises (mkExn IndexError "list index out of range")
  end.

Definition bind {A B : Type} (m : outcome A) (k : A -> outcome B)
    : outcome B :=
  match m with
  | Returns a => k a
  | Raises e => Raises e
  end.

Notation "x <- m ;; k" := (bind m (fun x => k))
  (at level 61, m at next level, right associativity).

Module SafeFilters.
Import PyStr Re.

Definition DANGEROUS_PATTERNS : list string :=
  [ "os\.system"; "os\.remove"; "os\.rmdir"; "shutil\.rmtree"; "subprocess\.";
    "urllib\.request"; "requests\."; "socket\."; "http\.";
    "eval\("; "exec\("; "__import__"; "compile\(";
    "open\("; "file\("; "with\s+open" ].

Definition ALLOWED_IMPORTS : list string :=
  [ "bpy"; "mathutils"; "bmesh"; "math"; "random"; "datetime" ].

Record violation : Type := mkViolation {
  v_pattern : string;
  v_match : string;
  v_position : nat
}.

Definition check_dangerous_patterns (code : string) : bool * list violation :=
  let violations :=
    flat_map
      (fun pattern =>
         map (fun m => mkViolation pattern (m_group m) (m_start m))
             (finditer true (compile pattern) code))
      DANGEROUS_PATTERNS in
  (List.length violations =? 0, violations).

(** [(?:from|import)\s+(\w+)] *)
Definition import_pattern : pattern := [AltLit ["from"; "import"]; Spaces; Word].

Definition check_imports (code : string) : bool * list string :=
  let matches := finditer false import_pattern code in
  let disallowed :=
    flat_map
      (fun m =>
         let module := m_group1 m in
         if negb (mem module ALLOWED_IMPORTS) then [module] else [])
      matches in
  (List.length disallowed =? 0, disallowed).

Section Validate.
(** The Python parser. *)
Variable py_compile : string -> compile_result.

Definition validate_code_safety (code : string)
    : outcome (bool * option string) :=
  let '(patterns_safe, violations) := check_dangerous_patterns code in
  if negb patterns_safe then
    let violation_list := join ", " (map v_match violations) in
    Returns (false, Some ("Dangerous patterns detected: " ++ violation_list))
  else
    let '(imports_safe, disallowed) := check_imports code in
    if negb imports_safe then
      Returns (false, Some ("Disallowed imports: " ++ join ", " disallowed))
    else
      match py_compile code with
      | SyntaxError e => Returns (false, Some ("Syntax error: " ++ e))
      | CompileRaised e => Raises e
      | Compiled => Returns (true, None)
      end.
End Validate.

End SafeFilters.

(* ================================================================== *)
(** * blender_addon/model_library.py *)
(* ================================================================== *)

Module ModelLibrary.
Import PyStr.

(** [name.rfind(c)] *)
Fixpoint rfind_char (c : ascii) (name : string) : option nat :=
  match name with
  | EmptyString => None
  | String x rest =>
      match rfind_char c rest with
      | Some i => Some (S i)
      | None => if Ascii.eqb x c then Some 0 else None
      end
  end.

(** [Path.suffix] and [Path.stem] of a path whose final component is
    [name]: the last dot splits the name unless it is its first or its
    last character. *)
Definition path_split (name : string) : string * string :=
  match rfind_char "." name with
  | Some i =>
      if (0 <? i) && (i <? String.length name - 1)
      then (take i name, drop i name)
      else (name, EmptyString)
  | None => (name, EmptyString)
  end.

Definition path_stem (name : string) : string := fst (path_split name).
Definition path_suffix (name : string) : string := snd (path_split name).

(** One step of [os.walk(assets_dir)]: a directory, its path relative to
    the asset root as [str] gives it (a single dot for the root itself), and
    the files in it. *)
Record walk_entry : Type := mkWalk {
  w_root : string;
  w_rel : string;
  w_files : list string
}.

(** The entries of [matches]. *)
Record asset_record : Type := mkAsset {
  a_path : string;
  a_filename : string;
  a_category : string;
  a_score : nat;
  a_format : string
}.

Definition supported_formats : list string :=
  [ ".blend"; ".fbx"; ".obj"; ".gltf"; ".glb"; ".stl" ].

Definition stopwords : list string :=
  [ "add"; "the"; "create"; "make"; "place"; "import"; "put" ].

Definition clean_stem (file_stem : string) : string :=
  replace "_8k" "" (replace "_4k" "" (replace "_02" ""
    (replace "_01" "" (replace "food_" "" file_stem)))).

Definition meaningful (query_words : list string) : list string :=
  filter (fun w => (3 <=? String.length w) && negb (mem w stopwords))
         query_words.

(** The body of the scoring [if]/[elif] chain, for one file. *)
Definition score_of (query_lower : string) (query_words : list string)
    (file_stem : string) : nat :=
  let clean_filename := clean_stem file_stem in
  let meaningful_words := meaningful query_words in
  if String.eqb query_lower file_stem || String.eqb query_lower clean_filename
  then 100
  else if existsb (fun word => String.eqb word clean_filename) meaningful_words
  then 100
  else if existsb (fun word => contains word clean_filename) meaningful_words
  then 90
  else if contains query_lower clean_filename then 85
  else if contains query_lower file_stem then 80
  else if (2 <=? List.length query_words)
          && forallb (fun word => contains word file_stem)
               (filter (fun word => 2 <? String.length word) query_words)
  then 70
  else if (List.length query_words =? 1) && (4 <=? String.length query_lower)
          && contains query_lower file_stem
  then 60
  else 0.

(** [str(Path(root) / file)] *)
Definition path_join (root file : string) : string := root ++ "/" ++ file.

(** The body of the inner loop: the record appended for [file], if any. *)
Definition visit_file (query_lower : string) (query_words : list string)
    (e : walk_entry) (file : string) : list asset_record :=
  let file_ext := lower (path_suffix file) in
  if negb (mem file_ext supported_formats) then []
  else
    let category := if String.eqb (w_rel e) "." then "root" else w_rel e in
    let file_stem := lower (path_stem file) in
    let score := score_of query_lower query_words file_stem in
    if 0 <? score
    then [mkAsset (path_join (w_root e) file) file category score file_ext]
    else [].

(** [matches.sort(key=lambda x: x['score'], reverse=True)]: the sort is
    stable, also with [reverse=True]. *)
Fixpoint insert_desc (x : asset_record) (l : list asset_record)
    : list asset_record :=
  match l with
  | [] => [x]
  | y :: r =>
      if a_score x <? a_score y then y :: insert_desc x r else x :: y :: r
  end.

Fixpoint sort_desc (l : list asset_record) : list asset_record :=
  match l with
  | [] => []
  | x :: r => insert_desc x (sort_desc r)
  end.

(** [matches] as the two loops leave it, in discovery order. *)
Definition collect (walk : list walk_entry) (query : string)
    : list asset_record :=
  let query_lower := strip (lower query) in
  let query_words := split_ws query_lower in
  flat_map (fun e => flat_map (visit_file query_lower query_words e)
                              (w_files e))
           walk.

(** [search_models(query)]; [assets] is [None] when the assets directory
    does not exist and the result of [os.walk] otherwise. *)
Definition search_models (assets : option (list walk_entry)) (query : string)
    : list asset_record :=
  match assets with
  | None => []
  | Some walk => sort_desc (collect walk query)
  end.

End ModelLibrary.

(* ================================================================== *)
(** * model_interface.py *)
(* ================================================================== *)

Module ModelInterface.
Import PyStr.

Definition fence : string := "```".
Definition python_fence : string := "```python".

(** The last three bytes are the sparkles sign the source ends the message
    with, in UTF-8. *)
Definition FALLBACK_MESSAGE : string :=
  "I've generated the code for you! "
  ++ String (ascii_of_nat 226) (String (ascii_of_nat 156)
       (String (ascii_of_nat 168) EmptyString)).

(** The extraction of message and code from the backend's text, as
    [generate_blender_code] does it: the result is [(code, ai_message)]. *)
Definition split_response (full_response : string)
    : outcome (string * string) :=
  r <- (if contains python_fence full_response then
          a <- item (split python_fence full_response) 1 ;;
          b <- item (split fence a) 0 ;;
          m <- item (split python_fence full_response) 0 ;;
          Returns (strip b, strip m)
        else if contains fence full_response then
          a <- item (split fence full_response) 1 ;;
          b <- item (split fence a) 0 ;;
          m <- item (split fence full_response) 0 ;;
          Returns (strip b, strip m)
        else Returns (full_response, full_response)) ;;
  let '(code, ai_message) := r in
  if negb (truthy ai_message) || String.eqb ai_message full_response
  then Returns (code, FALLBACK_MESSAGE)
  else Returns (code, ai_message).

(** [props.provider], an enumeration of two items. *)
Inductive provider : Type := OPENAI | OLLAMA.

Section Generate.
(** The asset library on disk. *)
Variable assets : option (list ModelLibrary.walk_entry).
(** [model_library.generate_import_code]: the text of the import script,
    a fixed template filled with the record's path and file name. *)
Variable generate_import_code : ModelLibrary.asset_record -> string -> string.
Variable the_provider : provider.
(** [get_model_settings] and [call_openai_api] for the request built from
    the prompt: the pair [(content, error)] they return, or an exception
    of theirs.  [None] is Python's [None]. *)
Variable backend : string -> outcome (option string * option string).

Definition truthy_opt (o : option string) : bool :=
  match o with Some s => truthy s | None => false end.

(** [generate_blender_code(prompt)]: the triple
    [(code, ai_message, error)]. *)
Definition generate_blender_code (prompt : string)
    : outcome (option string * option string * option string) :=
  let model_matches := ModelLibrary.search_models assets prompt in
  let strong :=
    match model_matches with
    | best :: _ =>
        if 60 <=? ModelLibrary.a_score best then Some best else None
    | [] => None
    end in
  match strong with
  | Some best_match =>
      Returns (Some (generate_import_code best_match prompt),
               Some "I'll create that for you! Here's the code:", None)
  | None =>
      match the_provider with
      | OPENAI =>
          r <- backend prompt ;;
          let '(full_response, error) := r in
          if truthy_opt error then Returns (None, None, error)
          else
            match full_response with
            | None =>
                Raises (mkExn TypeError
                          "argument of type 'NoneType' is not iterable")
            | Some text =>
                cm <- split_response text ;;
                Returns (Some (fst cm), Some (snd cm), None)
            end
      | OLLAMA => Returns (None, None, Some "Ollama support coming soon!")
      end
  end.
End Generate.

End ModelInterface.

(* ================================================================== *)
(** * blender_addon/plan_emitter.py *)
(* ================================================================== *)

Module PlanEmitter.
Import PyStr.
Definition header : list string :=
  [ "def rendermind_action(context: dict) -> None:";
    "    import bpy" ].

Definition sphere_lines (r loc : string) : list string :=
  [ "    bpy.ops.mesh.primitive_uv_sphere_add(radius=" ++ r
      ++ ", location=" ++ loc ++ ")";
    "    obj = bpy.context.active_object";
    "    obj.name = 'rm_sphere'";
    "    mat = bpy.data.materials.new('rm_mat')";
    "    mat.use_nodes = True";
    "    bsdf = mat.node_tree.nodes.get('Principled BSDF')";
    "    if bsdf: bsdf.inputs['Base Color'].default_value=(0.8,0.2,0.2,1)";
    "    obj.data.materials.append(mat)" ].

Definition cylinder_lines : list string :=
  [ "    bpy.ops.mesh.primitive_cylinder_add(radius=0.25, depth=0.6, location=(0,1,0.3))";
    "    obj = bpy.context.active_object";
    "    obj.name = 'rm_cylinder'";
    "    mat = bpy.data.materials.new('rm_ceramic')";
    "    mat.use_nodes = True";
    "    bsdf = mat.node_tree.nodes.get('Principled BSDF')";
    "    if bsdf: bsdf.inputs['Roughness'].default_value = 0.15";
    "    obj.data.materials.append(mat)" ].

Definition placeholder_lines : list string :=
  [ "    # Plan not implemented in emitter placeholder";
    "    print('Plan not implemented')" ].

Section Emitter.
(** [float(tok)] as the f-string prints it: [None] when [float] raises
    its [ValueError]. *)
Variable float_text : string -> option string.

(** The body of the inner [try]. *)
Definition parse_radius (p : string) : outcome string :=
  match index "r=" p with
  | None => Raises (mkExn ValueError "substring not found")
  | Some i =>
      let ii := i + 2 in
      a <- item (split "," (drop ii p)) 0 ;;
      b <- item (split_ws a) 0 ;;
      match float_text (strip_chars ");" b) with
      | Some r => Returns r
      | None => Raises (mkExn ValueError "could not convert string to float")
      end
  end.

Definition emitter_plan_to_script (plan : string) : outcome string :=
  let lines := header in
  let p := lower plan in
  if contains "uv_sphere" p || contains "sphere" p then
    let r := "0.5" in
    let loc := "(0,0,0.5)" in
    r' <- (if contains "r=" p then
             match parse_radius p with
             | Returns v => Returns v
             | Raises e => if is_Exception e then Returns r else Raises e
             end
           else Returns r) ;;
    Returns (join nl (lines ++ sphere_lines r' loc)%list)
  else if contains "cylinder" p then
    Returns (join nl (lines ++ cylinder_lines)%list)
  else
    Returns (join nl (lines ++ placeholder_lines)%list).
End Emitter.

End PlanEmitter.

(* ================================================================== *)
(** * blender_addon/blender_utils.py *)
(* ================================================================== *)

Module BlenderUtils.
Import PyStr.

(** ** The chat properties *)

Inductive role_t : Type := USER | AI | SYSTEM.
Inductive status_t : Type := NONE | THINKING | SUCCESS | ERROR.

Record RMChatMessage : Type := mkMsg {
  role : role_t;
  content : string;
  code : string;
  timestamp : string;
  status : status_t;
  error_msg : string;
  show_code : bool
}.

(** What [chat_messages.add()] creates: every property at its default. *)
Definition new_message : RMChatMessage :=
  mkMsg USER "" "" "" NONE "" false.

Record RMVariant : Type := mkVariant {
  v_name : string;
  v_plan : string;
  thumb_path : string
}.

(** The properties of [RMProps] the chat and preview operators use. *)
Record RMProps : Type := mkProps {
  chat_messages : list RMChatMessage;
  chat_input : string;
  is_thinking : bool;
  auto_execute : bool;
  provider : ModelInterface.provider;
  plan_text : string;
  variants : list RMVariant
}.

(** ** Safe execution helpers *)

Definition FORBIDDEN_TOKENS : list string :=
  [ "import os"; "subprocess"; "open("; "__import__"; "eval("; "exec(";
    "os.system"; "bpy.ops.wm.open_mainfile"; "bpy.ops.wm.read_homefile" ].

Definition validate_script (src : string) : outcome unit :=
  match find (fun tok => contains tok src) FORBIDDEN_TOKENS with
  | Some tok =>
      Raises (mkExn RuntimeError ("Unsafe token detected in script: " ++ tok))
  | None => Returns tt
  end.

Section Exec.
(** The state of the Blender session a script can act on. *)
Variable world : Type.

(** What a namespace binds [rendermind_action] to: a callable acting on
    the session. *)
Definition entry_point : Type := world -> world * outcome unit.

(** [exec(script_src, ns)] on an empty [ns]: the top level of the script
    runs, and either raises or leaves a namespace, of which only the
    binding of [rendermind_action], if any, matters. *)
Variable py_exec : string -> world -> world * outcome (option entry_point).

Definition exec_script_in_current_scene (script_src : string) (w : world)
    : world * outcome unit :=
  match validate_script script_src with
  | Raises e => (w, Raises e)
  | Returns _ =>
      match py_exec script_src w with
      | (w1, Raises e) => (w1, Raises e)
      | (w1, Returns None) =>
          (w1, Raises (mkExn RuntimeError
                 "Script must define `rendermind_action(context)`"))
      | (w1, Returns (Some rendermind_action)) => rendermind_action w1
      end
  end.
End Exec.

(** [temp_thumbnail_path(name)], given [tempfile.gettempdir()]. *)
Definition temp_thumbnail_path (tmpdir name : string) : string :=
  tmpdir ++ "/" ++ name.

End BlenderUtils.

(* ================================================================== *)
(** * blender_addon/operators.py *)
(* ================================================================== *)

Module Operators.
Import PyStr BlenderUtils.

(** ** The Blender session *)

(** [bpy.data.scenes] as handles with their names, and the scene the
    window shows ([None] when Blender runs without a window). *)
Record session : Type := mkSession {
  scenes : list (nat * string);
  next_handle : nat;
  window_scene : option nat
}.

(** [bpy.data.scenes.new(name)] *)
Definition scenes_new (name : string) (b : session) : session * outcome nat :=
  let h := next_handle b in
  (mkSession (scenes b ++ [(h, name)])%list (S h) (window_scene b), Returns h).

(** [bpy.context.window.scene = scene] *)
Definition set_window_scene (h : nat) (b : session) : session * outcome unit :=
  match window_scene b with
  | None =>
      (b, Raises (mkExn (OtherException "AttributeError")
                    "'NoneType' object has no attribute 'scene'"))
  | Some _ => (mkSession (scenes b) (next_handle b) (Some h), Returns tt)
  end.

Definition has_scene (h : nat) (b : session) : bool :=
  existsb (fun sc => fst sc =? h) (scenes b).

(** [bpy.data.scenes.remove(scene)]: refused for a scene that is gone and
    for the last scene; a window showing the scene moves to another one. *)
Definition scenes_remove (h : nat) (b : session) : session * outcome unit :=
  if negb (has_scene h b) then
    (b, Raises (mkExn (OtherException "ReferenceError")
                  "StructRNA of type Scene has been removed"))
  else
    match filter (fun sc => negb (fst sc =? h)) (scenes b) with
    | [] => (b, Raises (mkExn RuntimeError "the last scene cannot be removed"))
    | other :: rest =>
        let shown :=
          match window_scene b with
          | Some k => if k =? h then Some (fst other) else Some k
          | None => None
          end in
        (mkSession (other :: rest) (next_handle b) shown, Returns tt)
    end.

(** ** Operators as state transformers *)

Inductive report_level : Type := INFO | WARNING | REPORT_ERROR.
Inductive op_result : Type := FINISHED | CANCELLED.

(** What an operator acts on: the add-on's properties, the session, and
    the reports made so far.  Scripts act on the session; the properties
    are changed by the operators only. *)
Record state : Type := mkState {
  props : RMProps;
  bpy : session;
  reports : list (report_level * string)
}.

Definition M (A : Type) : Type := state -> state * outcome A.

Definition ret {A : Type} (a : A) : M A := fun st => (st, Returns a).

Definition mbind {A B : Type} (m : M A) (k : A -> M B) : M B :=
  fun st =>
    match m st with
    | (st', Returns a) => k a st'
    | (st', Raises e) => (st', Raises e)
    end.

Notation "x <-- m ;; k" := (mbind m (fun x => k))
  (at level 61, m at next level, right associativity).
Notation "m ;;; k" := (mbind m (fun _ => k))
  (at level 61, right associativity).

(** [try: m  except Exception as e: h e] *)
Definition try_except {A : Type} (m : M A) (h : exn -> M A) : M A :=
  fun st =>
    match m st with
    | (st', Raises e) => if is_Exception e then h e st' else (st', Raises e)
    | r => r
    end.

(** [try: m  finally: f] *)
Definition try_finally {A : Type} (m : M A) (f : M unit) : M A :=
  fun st =>
    match m st with
    | (st', r) =>
        match f st' with
        | (st'', Returns _) => (st'', r)
        | (st'', Raises e) => (st'', Raises e)
        end
    end.

Definition get : M state := fun st => (st, Returns st).

Definition lift {A : Type} (o : outcome A) : M A := fun st => (st, o).

Definition on_session {A : Type} (f : session -> session * outcome A) : M A :=
  fun st =>
    let '(b, r) := f (bpy st) in
    (mkState (props st) b (reports st), r).

Definition modify_props (f : RMProps -> RMProps) : M unit :=
  fun st => (mkState (f (props st)) (bpy st) (reports st), Returns tt).

(** [self.report({level}, text)] *)
Definition report (level : report_level) (text : string) : M unit :=
  fun st =>
    (mkState (props st) (bpy st) (reports st ++ [(level, text)])%list,
     Returns tt).

Definition set_messages (l : list RMChatMessage) (p : RMProps) : RMProps :=
  mkProps l (chat_input p) (is_thinking p) (auto_execute p) (provider p)
          (plan_text p) (variants p).

Definition set_chat_input (x : string) (p : RMProps) : RMProps :=
  mkProps (chat_messages p) x (is_thinking p) (auto_execute p) (provider p)
          (plan_text p) (variants p).

Definition set_is_thinking (x : bool) (p : RMProps) : RMProps :=
  mkProps (chat_messages p) (chat_input p) x (auto_execute p) (provider p)
          (plan_text p) (variants p).

Definition set_variants (l : list RMVariant) (p : RMProps) : RMProps :=
  mkProps (chat_messages p) (chat_input p) (is_thinking p) (auto_execute p)
          (provider p) (plan_text p) l.

Fixpoint update_nth {A : Type} (i : nat) (f : A -> A) (l : list A) : list A :=
  match l, i with
  | [], _ => []
  | x :: r, O => f x :: r
  | x :: r, S j => x :: update_nth j f r
  end.

(** [m = props.chat_messages.add()] followed by the assignments that make
    it [msg]; the result is the position of the new message, through which
    later assignments reach it. *)
Definition add_message (msg : RMChatMessage) : M nat :=
  st <-- get ;;
  modify_props (set_messages (chat_messages (props st) ++ [msg])%list) ;;;
  ret (List.length (chat_messages (props st))).

(** Assignments to the properties of the message at position [i]. *)
Definition update_message (i : nat) (f : RMChatMessage -> RMChatMessage)
    : M unit :=
  modify_props (fun p => set_messages (update_nth i f (chat_messages p)) p).

Definition set_status (x : status_t) (m : RMChatMessage) : RMChatMessage :=
  mkMsg (role m) (content m) (code m) (timestamp m) x (error_msg m)
        (show_code m).

Definition set_error_msg (x : string) (m : RMChatMessage) : RMChatMessage :=
  mkMsg (role m) (content m) (code m) (timestamp m) (status m) x
        (show_code m).

(** [collection[i]] with Python's negative indices. *)
Definition collection_index (i : Z) (len : nat) : outcome nat :=
  if (0 <=? i)%Z then
    if Z.to_nat i <? len then Returns (Z.to_nat i)
    else Raises (mkExn IndexError "index out of range")
  else if (0 <=? i + Z.of_nat len)%Z then Returns (Z.to_nat (i + Z.of_nat len))
  else Raises (mkExn IndexError "index out of range").

Section Ops.
(** [datetime.now().strftime("%H:%M")] *)
Variable now : string.
(** The asset library, the import-script template and the backend, as
    [ModelInterface.generate_blender_code] takes them. *)
Variable assets : option (list ModelLibrary.walk_entry).
Variable generate_import_code : ModelLibrary.asset_record -> string -> string.
Variable backend : string -> outcome (option string * option string).
(** The interpreter: [exec] on a fresh namespace and on the module's
    globals. *)
Variable py_exec :
  string -> session -> session * outcome (option (entry_point session)).
Variable py_exec_globals : string -> session -> session * outcome unit.
(** [float] for the plan emitter, [tempfile.gettempdir()], the render of
    a scene to a file, and the display of the image in an image editor. *)
Variable float_text : string -> option string.
Variable tmpdir : string.
Variable render : nat -> string -> session -> session * outcome unit.
Variable show_preview : string -> session -> session * outcome unit.

Definition type_error_none : exn :=
  mkExn TypeError "expected a string type, not NoneType".

(** A string property assigned a value that may be [None]. *)
Definition as_str (o : option string) : M string :=
  match o with
  | Some s => ret s
  | None => lift (Raises type_error_none)
  end.

(** [RM_OT_SendMessage.execute] *)
Definition RM_OT_SendMessage_execute : M op_result :=
  st <-- get ;;
  let user_input := strip (chat_input (props st)) in
  if negb (truthy user_input) then
    report WARNING "Please enter a message" ;;;
    ret CANCELLED
  else
    try_except
      ( add_message (mkMsg USER user_input "" now NONE "" false) ;;;
        modify_props (set_chat_input "") ;;;
        modify_props (set_is_thinking true) ;;;
        st1 <-- get ;;
        r <-- lift (ModelInterface.generate_blender_code assets
                      generate_import_code (provider (props st1)) backend
                      user_input) ;;
        let '(gen_code, ai_message, error) := r in
        if ModelInterface.truthy_opt error then
          err <-- as_str error ;;
          add_message (mkMsg AI ("Sorry, I encountered an error: " ++ err)
                             "" now ERROR err false) ;;;
          modify_props (set_is_thinking false) ;;;
          report REPORT_ERROR err ;;;
          ret CANCELLED
        else
          ai_msg <-- add_message (mkMsg AI "" "" "" NONE "" false) ;;
          text <-- as_str ai_message ;;
          update_message ai_msg (fun m =>
            mkMsg (role m) text (code m) (timestamp m) (status m)
                  (error_msg m) (show_code m)) ;;;
          src <-- as_str gen_code ;;
          update_message ai_msg (fun m =>
            mkMsg (role m) (content m) src now NONE (error_msg m)
                  (show_code m)) ;;;
          st2 <-- get ;;
          (if auto_execute (props st2) then
             try_except
               ( on_session (exec_script_in_current_scene session py_exec src) ;;;
                 update_message ai_msg (set_status SUCCESS) ;;;
                 report INFO "Code generated and executed successfully" )
               (fun e =>
                  update_message ai_msg (set_status ERROR) ;;;
                  update_message ai_msg (set_error_msg (str_exn e)) ;;;
                  report WARNING ("Execution failed: " ++ str_exn e))
           else
             report INFO "Response generated. Click 'Run' to execute.") ;;;
          modify_props (set_is_thinking false) ;;;
          ret FINISHED )
      (fun e =>
         modify_props (set_is_thinking false) ;;;
         add_message (mkMsg SYSTEM ("Error: " ++ str_exn e) "" now ERROR ""
                            false) ;;;
         report REPORT_ERROR (str_exn e) ;;;
         ret CANCELLED).

(** [RM_OT_ClearChat.execute] *)
Definition RM_OT_ClearChat_execute : M op_result :=
  modify_props (set_messages []) ;;;
  report INFO "Chat cleared" ;;;
  ret FINISHED.

(** [RM_OT_RunMessageCode.execute] *)
Definition RM_OT_RunMessageCode_execute (message_index : Z) : M op_result :=
  st <-- get ;;
  let messages := chat_messages (props st) in
  if (Z.of_nat (List.length messages) <=? message_index)%Z then
    report REPORT_ERROR "Invalid message index" ;;;
    ret CANCELLED
  else
    i <-- lift (collection_index message_index (List.length messages)) ;;
    msg <-- lift (item messages i) ;;
    if negb (truthy (code msg)) then
      report WARNING "No code to execute" ;;;
      ret CANCELLED
    else
      try_except
        ( lift (validate_script (code msg)) ;;;
          on_session (py_exec_globals (code msg)) ;;;
          update_message i (set_status SUCCESS) ;;;
          update_message i (set_error_msg "") ;;;
          report INFO "Code executed successfully" ;;;
          ret FINISHED )
        (fun e =>
           update_message i (set_status ERROR) ;;;
           update_message i (set_error_msg (str_exn e)) ;;;
           report REPORT_ERROR ("Execution failed: " ++ str_exn e) ;;;
           ret CANCELLED).

Definition decimal (n : nat) : string :=
  NilZero.string_of_uint (Nat.to_uint n).

Definition set_thumb_path (x : string) (v : RMVariant) : RMVariant :=
  mkVariant (v_name v) (v_plan v) x.

(** The preview of one variant in [RM_OT_Generate.execute]: the
    [try]/[except]/[finally] in the body of the loop, for the variant at
    position [i] with plan [pv].  A scene just created has no objects, so
    the loop that clears them does nothing. *)
Definition preview_variant (i : nat) (pv : string) : M unit :=
  tmp_scene <-- on_session (scenes_new ("rm_preview_tmp_" ++ decimal i)) ;;
  try_finally
    (try_except
       ( on_session (set_window_scene tmp_scene) ;;;
         script <-- lift (PlanEmitter.emitter_plan_to_script float_text pv) ;;
         lift (validate_script script) ;;;
         on_session (py_exec_globals script) ;;;
         let thumb :=
           temp_thumbnail_path tmpdir ("rm_variant_" ++ decimal i ++ ".png") in
         on_session (render tmp_scene thumb) ;;;
         modify_props (fun p =>
           set_variants (update_nth i (set_thumb_path thumb) (variants p)) p) )
       (fun e =>
          modify_props (fun p =>
            set_variants (update_nth i (set_thumb_path "") (variants p)) p)))
    (try_except (on_session (scenes_remove tmp_scene)) (fun _ => ret tt)).

(** [RM_OT_Preview.execute] *)
Definition RM_OT_Preview_execute : M op_result :=
  st <-- get ;;
  let plan := plan_text (props st) in
  try_except
    ( tmp_scene <-- on_session (scenes_new "rm_preview_exec") ;;
      on_session (set_window_scene tmp_scene) ;;;
      script <-- lift (PlanEmitter.emitter_plan_to_script float_text plan) ;;
      lift (validate_script script) ;;;
      on_session (py_exec_globals script) ;;;
      let thumb := temp_thumbnail_path tmpdir "rm_preview_exec.png" in
      on_session (render tmp_scene thumb) ;;;
      try_except (on_session (show_preview thumb)) (fun _ => ret tt) ;;;
      try_except (on_session (scenes_remove tmp_scene)) (fun _ => ret tt) ;;;
      report INFO ("Preview rendered: " ++ thumb) )
    (fun e => report REPORT_ERROR (str_exn e)) ;;;
  ret FINISHED.
End Ops.

End Operators.

(* ================================================================== *)
(** * utils/safe_filters.py: [sanitize_code] *)
(* ================================================================== *)

Module Sanitize.
Import PyStr Re SafeFilters.

(** [re.search(pattern, s, re.IGNORECASE)] finds a match. *)
Fixpoint search (p : pattern) (s : string) : bool :=
  match match_here true p s with
  | Some _ => true
  | None =>
      match s with
      | EmptyString => false
      | String _ s' => search p s'
      end
  end.

(** [[^)]*\)] at the head of [s]: everything up to the next closing
    parenthesis, and that parenthesis. *)
Fixpoint to_closing (s : string) : option nat :=
  match s with
  | EmptyString => None
  | String c s' =>
      if Ascii.eqb c ")" then Some 1
      else match to_closing s' with
           | Some k => Some (S k)
           | None => None
           end
  end.

(** A match of [pattern + r'[^)]*\)'] at the head of [s].  A pattern of the
    blocklist matches in one way at most at a given place, so the tail is
    tried after that one match. *)
Definition match_call (p : pattern) (s : string) : option nat :=
  match match_here true p s with
  | Some (n, _) =>
      match to_closing (drop n s) with
      | Some k => Some (n + k)
      | None => None
      end
  | None => None
  end.

(** [re.sub(pattern + r'[^)]*\)', '', s, flags=re.IGNORECASE)]: the matches
    are found from left to right, do not overlap, and are taken out. *)
Fixpoint sub_from (p : pattern) (skip : nat) (s : string) : string :=
  match s with
  | EmptyString => EmptyString
  | String c s' =>
      match skip with
      | S k => sub_from p k s'
      | O =>
          match match_call p s with
          | Some (S n) => sub_from p n s'
          | _ => String c (sub_from p 0 s')
          end
      end
  end.

(** The body of the loop, for one pattern. *)
Definition sanitize_step (acc : string * list string) (pattern : string)
    : string * list string :=
  let '(sanitized, warnings) := acc in
  if search (compile pattern) sanitized
  then (sub_from (compile pattern) 0 sanitized,
        (warnings ++ [("Removed dangerous pattern: " ++ pattern)%string])%list)
  else (sanitized, warnings).

Definition sanitize_code (code : string) : string * list string :=
  fold_left sanitize_step DANGEROUS_PATTERNS (code, []).

End Sanitize.

(* ================================================================== *)
(** * model_interface.py: the [.env] file and the model settings *)
(* ================================================================== *)

Module ModelSettings.
Import PyStr.

(** A [dict] of strings: the binding written last for a key comes first and
    is the one found. *)
Definition dict : Type := list (string * string).

Fixpoint dict_get (key : string) (d : dict) : option string :=
  match d with
  | [] => None
  | (k, v) :: d' => if String.eqb key k then Some v else dict_get key d'
  end.

Definition dict_set (key value : string) (d : dict) : dict :=
  (key, value) :: d.

(** The [.env] file beside the module: absent, unreadable, or its lines. *)
Definition env_file : Type := option (outcome (list string)).

(** The body of the loop over the lines of the file.  When ['='] is in
    [line], [line.split('=', 1)] has the two items that [partition]
    gives. *)
Definition env_line (env_vars : dict) (raw : string) : dict :=
  let line := strip raw in
  if truthy line && negb (starts_with "#" line) && contains "=" line then
    match partition "=" line with
    | Some (key, value) => dict_set (strip key) (strip value) env_vars
    | None => env_vars
    end
  else env_vars.

Definition load_env_file (file : env_file) : outcome dict :=
  match file with
  | None => Returns []
  | Some opened =>
      lines <- opened ;;
      Returns (fold_left env_line lines [])
  end.

(** [props.openai_api_key] is the key typed in the settings. *)
Definition get_api_key (file : env_file) (openai_api_key : string)
    : outcome string :=
  env_vars <- load_env_file file ;;
  let api_key :=
    match dict_get "OPENAI_API_KEY" env_vars with
    | Some v => v
    | None => EmptyString
    end in
  if negb (truthy api_key) then Returns openai_api_key else Returns api_key.

Section Settings.
(** The type of [float] and the conversion [float(text)], [None] standing
    for the [ValueError]. *)
Variable float : Type.
Variable py_float : string -> option float.

Definition get_model_settings (file : env_file) (model_name : string)
    (temperature : float) : outcome (string * float) :=
  env_vars <- load_env_file file ;;
  let display_model :=
    match dict_get "OPENAI_MODEL" env_vars with
    | Some m =>
        if truthy m then m
        else if truthy model_name then model_name else "rendermind-v1"
    | None => if truthy model_name then model_name else "rendermind-v1"
    end in
  let model :=
    if String.eqb display_model "rendermind-v1" then "gpt-4o-mini"
    else display_model in
  let temperature :=
    match py_float (match dict_get "OPENAI_TEMPERATURE" env_vars with
                    | Some t => t
                    | None => "0.7"
                    end) with
    | Some t => t
    | None => temperature
    end in
  Returns (model, temperature).
End Settings.

End ModelSettings.

(* ================================================================== *)
(** * model_interface.py: the demo scripts and the legacy functions *)
(* ================================================================== *)

Module ModelInterfaceLegacy.
Import PyStr ModelInterface.

(** The double quote. *)
Definition dq : string := String (ascii_of_nat 34) EmptyString.

Definition generate_demo_code (prompt : string) : string :=
  let p := lower prompt in
  if contains "cube" p || contains "box" p then
    "import bpy" ++ nl
    ++ nl
    ++ "def rendermind_action(context):" ++ nl
    ++ "    # Create a cube" ++ nl
    ++ "    bpy.ops.mesh.primitive_cube_add(size=2, location=(0, 0, 1))" ++ nl
    ++ "    cube = bpy.context.active_object" ++ nl
    ++ "    cube.name = " ++ dq ++ "RenderMind_Cube" ++ dq ++ nl
  else if contains "sphere" p || contains "ball" p then
    "import bpy" ++ nl
    ++ nl
    ++ "def rendermind_action(context):" ++ nl
    ++ "    # Create a sphere" ++ nl
    ++ "    bpy.ops.mesh.primitive_uv_sphere_add(radius=1, location=(0, 0, 1))"
    ++ nl
    ++ "    sphere = bpy.context.active_object" ++ nl
    ++ "    sphere.name = " ++ dq ++ "RenderMind_Sphere" ++ dq ++ nl
  else if contains "cylinder" p || contains "vase" p then
    "import bpy" ++ nl
    ++ nl
    ++ "def rendermind_action(context):" ++ nl
    ++ "    # Create a cylinder (vase-like)" ++ nl
    ++ "    bpy.ops.mesh.primitive_cylinder_add(radius=0.5, depth=2, location=(0, 0, 1))"
    ++ nl
    ++ "    cylinder = bpy.context.active_object" ++ nl
    ++ "    cylinder.name = " ++ dq ++ "RenderMind_Cylinder" ++ dq ++ nl
  else
    "import bpy" ++ nl
    ++ nl
    ++ "def rendermind_action(context):" ++ nl
    ++ "    # Create a default object" ++ nl
    ++ "    bpy.ops.mesh.primitive_uv_sphere_add(radius=1, location=(0, 0, 1))"
    ++ nl
    ++ "    obj = bpy.context.active_object" ++ nl
    ++ "    obj.name = " ++ dq ++ "RenderMind_Object" ++ dq ++ nl.

(** [a, b = t] for a tuple [t] of three items. *)
Definition unpack_two {A : Type} (t : A * A * A) : outcome (A * A) :=
  Raises (mkExn ValueError "too many values to unpack (expected 2)").

Section Legacy.
Variable assets : option (list ModelLibrary.walk_entry).
Variable generate_import_code : ModelLibrary.asset_record -> string -> string.
Variable the_provider : provider.
Variable backend : string -> outcome (option string * option string).

(** [plan_from_prompt(prompt)]: a [str], or [None] when the code is. *)
Definition plan_from_prompt (prompt : string) : outcome (option string) :=
  t <- generate_blender_code assets generate_import_code the_provider backend
         prompt ;;
  ce <- unpack_two t ;;
  let '(gen_code, error) := ce in
  if truthy_opt error then
    Returns (Some ("ERROR: "
                   ++ match error with Some e => e | None => "None" end))
  else Returns gen_code.

(** The loop of [generate_variants] over the rest of [range(n)]. *)
Fixpoint variants_loop (prompt : string) (indices : list nat)
    (variants : list string) : outcome (list string) :=
  match indices with
  | [] => Returns variants
  | i :: rest =>
      t <- generate_blender_code assets generate_import_code the_provider
             backend
             (prompt ++ " (variation " ++ Operators.decimal (i + 1) ++ ")") ;;
      ce <- unpack_two t ;;
      let '(gen_code, error) := ce in
      variants_loop prompt rest
        (match gen_code with
         | Some c => if truthy c then (variants ++ [c])%list else variants
         | None => variants
         end)
  end.

Definition generate_variants (prompt : string) (n : nat)
    : outcome (list string) :=
  variants <- variants_loop prompt (seq 0 n) [] ;;
  match variants with
  | [] => Returns [generate_demo_code prompt]
  | _ => Returns variants
  end.
End Legacy.

End ModelInterfaceLegacy.

(* ================================================================== *)
(** * blender_addon/operators.py: the legacy operators *)
(* ================================================================== *)

Module LegacyOperators.
Import PyStr BlenderUtils Operators.

Record RMHistoryItem : Type := mkHistory {
  h_prompt : string;
  h_plan : string;
  h_accepted : bool
}.

(** The legacy properties of [RMProps] that the chat operators leave
    alone. *)
Record legacy_props : Type := mkLegacy {
  prompt_text : string;
  preview_count : nat;
  history : list RMHistoryItem
}.

(** What a legacy operator acts on: the state of the chat operators and
    the legacy properties. *)
Record legacy_state : Type := mkLegacyState {
  chat : state;
  legacy : legacy_props
}.

Definition L (A : Type) : Type := legacy_state -> legacy_state * outcome A.

Definition lret {A : Type} (a : A) : L A := fun st => (st, Returns a).

Definition lbind {A B : Type} (m : L A) (k : A -> L B) : L B :=
  fun st =>
    match m st with
    | (st', Returns a) => k a st'
    | (st', Raises e) => (st', Raises e)
    end.

Notation "x <== m ;; k" := (lbind m (fun x => k))
  (at level 61, m at next level, right associativity).
Notation "m >>> k" := (lbind m (fun _ => k))
  (at level 61, right associativity).

(** [try: m  except Exception as e: h e] *)
Definition ltry_except {A : Type} (m : L A) (h : exn -> L A) : L A :=
  fun st =>
    match m st with
    | (st', Raises e) => if is_Exception e then h e st' else (st', Raises e)
    | r => r
    end.

Definition lget : L legacy_state := fun st => (st, Returns st).

Definition llift {A : Type} (o : outcome A) : L A := fun st => (st, o).

(** A step of the chat operators' kind. *)
Definition on_chat {A : Type} (m : M A) : L A :=
  fun st =>
    let '(c, r) := m (chat st) in
    (mkLegacyState c (legacy st), r).

Definition modify_legacy (f : legacy_props -> legacy_props) : L unit :=
  fun st => (mkLegacyState (chat st) (f (legacy st)), Returns tt).

Definition set_plan_text (x : string) (p : RMProps) : RMProps :=
  mkProps (chat_messages p) (chat_input p) (is_thinking p) (auto_execute p)
          (provider p) x (variants p).

Definition set_history (l : list RMHistoryItem) (p : legacy_props)
    : legacy_props :=
  mkLegacy (prompt_text p) (preview_count p) l.

Definition set_accepted (x : bool) (h : RMHistoryItem) : RMHistoryItem :=
  mkHistory (h_prompt h) (h_plan h) x.

Section LegacyOps.
Variable assets : option (list ModelLibrary.walk_entry).
Variable generate_import_code : ModelLibrary.asset_record -> string -> string.
Variable backend : string -> outcome (option string * option string).
Variable py_exec_globals : string -> session -> session * outcome unit.
Variable float_text : string -> option string.
Variable tmpdir : string.
Variable render : nat -> string -> session -> session * outcome unit.

(** The loop over [enumerate(variants)], from position [i] on. *)
Fixpoint preview_loop (i : nat) (variants : list string) : L unit :=
  match variants with
  | [] => lret tt
  | pv :: rest =>
      on_chat (modify_props (fun p =>
        set_variants
          (BlenderUtils.variants p
           ++ [mkVariant ("Variant " ++ decimal (i + 1)) pv ""])%list p)) >>>
      on_chat (preview_variant py_exec_globals float_text tmpdir render
                 i pv) >>>
      preview_loop (S i) rest
  end.

(** [RM_OT_Generate.execute] *)
Definition RM_OT_Generate_execute : L op_result :=
  st <== lget ;;
  let prompt := prompt_text (legacy st) in
  ltry_except
    ( plan <== llift (ModelInterfaceLegacy.plan_from_prompt assets
                        generate_import_code (provider (props (chat st)))
                        backend prompt) ;;
      plan_str <== on_chat (as_str plan) ;;
      on_chat (modify_props (set_plan_text plan_str)) >>>
      modify_legacy (fun p =>
        set_history (history p ++ [mkHistory prompt plan_str false])%list p) >>>
      on_chat (modify_props (set_variants [])) >>>
      st1 <== lget ;;
      variants <== llift (ModelInterfaceLegacy.generate_variants assets
                            generate_import_code (provider (props (chat st1)))
                            backend prompt (preview_count (legacy st1))) ;;
      preview_loop 0 variants >>>
      on_chat (report INFO "Plans and previews generated") )
    (fun e => on_chat (report REPORT_ERROR (str_exn e))) >>>
  lret FINISHED.

(** [RM_OT_Apply.execute] *)
Definition RM_OT_Apply_execute : L op_result :=
  st <== lget ;;
  let plan := plan_text (props (chat st)) in
  ltry_except
    ( script <== llift (PlanEmitter.emitter_plan_to_script float_text plan) ;;
      llift (validate_script script) >>>
      on_chat (on_session (py_exec_globals script)) >>>
      st1 <== lget ;;
      (if 0 <? List.length (history (legacy st1)) then
         modify_legacy (fun p =>
           set_history
             (update_nth (List.length (history p) - 1) (set_accepted true)
                         (history p)) p)
       else lret tt) >>>
      on_chat (report INFO "Plan applied to scene") )
    (fun e => on_chat (report REPORT_ERROR (str_exn e))) >>>
  lret FINISHED.
End LegacyOps.

End LegacyOperators.

(* ================================================================== *)
(** * serve/model_interface.py *)
(* ================================================================== *)

Module Serve.
Import PyStr.

Definition BLACKLIST : list string :=
  [ "open("; "subprocess"; "socket"; "eval("; "exec("; "requests";
    "__import__"; "os.system"; "os.popen" ].

(** [safety_block(code_str)]: [(blocked, reason)]. *)
Definition safety_block (code_str : string) : bool * option string :=
  match find (fun token => contains token code_str) BLACKLIST with
  | Some token => (true, Some token)
  | None => (false, None)
  end.

Definition build_prompt (instr : string) : string :=
  "You are RenderMind: convert a natural language instruction into Blender Python (bpy) code. "
  ++ "Return ONLY python code inside the function wrapper. Do NOT add explanations."
  ++ nl ++ nl
  ++ "### Instruction:" ++ nl ++ instr ++ nl ++ nl
  ++ "### Response (Python code only):" ++ nl.

(** The dictionary [generate_code] returns. *)
Record generation : Type := mkGeneration {
  g_instruction : string;
  g_code : string;
  g_safety_blocked : bool;
  g_safety_reason : option string
}.

Section Model.
(** The tokenizer, [model.generate] and the decoding: the text the model
    gives for a prompt. *)
Variable run_model : string -> string.

Definition generate_code (instruction : string) : generation :=
  let prompt := build_prompt instruction in
  let out := run_model prompt in
  (* out.split(prompt, 1)[-1] *)
  let code :=
    strip (match partition prompt out with
           | Some (_, rest) => rest
           | None => out
           end) in
  let '(blocked, reason) := safety_block code in
  mkGeneration instruction (if blocked then "" else code) blocked reason.
End Model.

End Serve.

(* ================================================================== *)
(** * websocket_server.py: the handlers that act on the chat *)
(* ================================================================== *)

Module WebSocketServer.
Import PyStr BlenderUtils Operators.

(** The dictionaries [add_message] returns for the broadcast. *)
Inductive broadcast : Type :=
| ErrorMessage (message : string)
| NewMessage (content code timestamp : string) (status : status_t)
| MessageResponse (error : string).

Section Handlers.
Variable now : string.
Variable assets : option (list ModelLibrary.walk_entry).
Variable generate_import_code : ModelLibrary.asset_record -> string -> string.
Variable backend : string -> outcome (option string * option string).
Variable py_exec :
  string -> session -> session * outcome (option (entry_point session)).

(** [add_message()] of the [send_message] handler, for the text
    [user_message] of the request. *)
Definition add_message (user_message : string) : M broadcast :=
  Operators.add_message (mkMsg USER user_message "" now NONE "" false) ;;;
  modify_props (set_is_thinking true) ;;;
  try_except
    ( st1 <-- get ;;
      r <-- lift (ModelInterface.generate_blender_code assets
                    generate_import_code (provider (props st1)) backend
                    user_message) ;;
      let '(gen_code, ai_message, error) := r in
      if ModelInterface.truthy_opt error then
        err <-- as_str error ;;
        Operators.add_message
          (mkMsg AI ("Sorry, I encountered an error: " ++ err) "" now ERROR
                 err false) ;;;
        modify_props (set_is_thinking false) ;;;
        ret (ErrorMessage err)
      else
        ai_msg <-- Operators.add_message (mkMsg AI "" "" "" NONE "" false) ;;
        text <-- as_str ai_message ;;
        update_message ai_msg (fun m =>
          mkMsg (role m) text (code m) (timestamp m) (status m)
                (error_msg m) (show_code m)) ;;;
        src <-- as_str gen_code ;;
        update_message ai_msg (fun m =>
          mkMsg (role m) (content m) src now (status m) (error_msg m)
                (show_code m)) ;;;
        st2 <-- get ;;
        (if auto_execute (props st2) then
           try_except
             ( on_session (exec_script_in_current_scene session py_exec src) ;;;
               update_message ai_msg (set_status SUCCESS) )
             (fun e =>
                update_message ai_msg (set_status ERROR) ;;;
                update_message ai_msg (set_error_msg (str_exn e)))
         else
           update_message ai_msg (set_status NONE)) ;;;
        modify_props (set_is_thinking false) ;;;
        st3 <-- get ;;
        m <-- lift (item (chat_messages (props st3)) ai_msg) ;;
        ret (NewMessage (content m) (code m) (timestamp m) (status m)) )
    (fun e =>
       modify_props (set_is_thinking false) ;;;
       Operators.add_message
         (mkMsg SYSTEM ("Error: " ++ str_exn e) "" now ERROR "" false) ;;;
       ret (MessageResponse (str_exn e))).
End Handlers.

End WebSocketServer.

(* ================================================================== *)
(** * The vocabulary of the properties *)
(* ================================================================== *)

(** The notions the properties are stated with, and the sample inputs on
    which they are tried. *)

Section EmitterVocabulary.
Import PyStr PlanEmitter.

Definition placeholder_script : string :=
  join nl (header ++ placeholder_lines)%list.

Definition sphere_script (r : string) : string :=
  join nl (header ++ sphere_lines r "(0,0,0.5)")%list.

Definition cylinder_script : string :=
  join nl (header ++ cylinder_lines)%list.

(** The script defines the entry point on its first line. *)
Definition defines_entry_point (script : string) : bool :=
  starts_with "def rendermind_action(context" script.

End EmitterVocabulary.

Section AssetMatcherVocabulary.
Import PyStr ModelLibrary.

(** The scoring ladder as the design document words it: each rule is a
    condition and the score it gives, and the first rule whose condition
    holds decides. *)
Definition ladder (query : string) (words : list string) (raw : string)
    : list (bool * nat) :=
  let clean := clean_stem raw in
  [ (String.eqb query raw || String.eqb query clean
     || existsb (fun w => String.eqb w clean) (meaningful words), 100);
    (existsb (fun w => contains w clean) (meaningful words), 90);
    (contains query clean, 85);
    (contains query raw, 80);
    ((2 <=? List.length words)
     && forallb (fun w => contains w raw)
          (filter (fun w => 2 <? String.length w) words), 70);
    ((List.length words =? 1) && (4 <=? String.length query)
     && contains query raw, 60) ].

Fixpoint first_rule (rules : list (bool * nat)) : nat :=
  match rules with
  | [] => 0
  | (holds, score) :: rest => if holds then score else first_rule rest
  end.

Definition category_of (e : walk_entry) : string :=
  if String.eqb (w_rel e) "." then "root" else w_rel e.

(** What the search should report for one file, by the ladder. *)
Definition ranked (query : string) (e : walk_entry) (file : string)
    : list asset_record :=
  let q := strip (lower query) in
  if mem (lower (path_suffix file)) supported_formats then
    let score := first_rule (ladder q (split_ws q) (lower (path_stem file))) in
    if 0 <? score
    then [mkAsset (path_join (w_root e) file) file (category_of e) score
                  (lower (path_suffix file))]
    else []
  else [].

Definition by_score (k : nat) (r : asset_record) : bool := a_score r =? k.

Definition score_ge (a b : asset_record) : Prop := a_score b <= a_score a.

End AssetMatcherVocabulary.

Section SafetyFilterVocabulary.
Import PyStr Re SafeFilters.

(** A match that lies over [offset]: it starts before it and ends after. *)
Definition overlaps (start : nat) (text : string) (offset : nat) : Prop :=
  start < offset < start + String.length text.

(** The pattern [pat] matches in [code] at [offset], over [text]. *)
Definition occurs_at (pat code : string) (offset : nat) (text : string) : Prop :=
  exists n g,
    match_here true (compile pat) (drop offset code) = Some (S n, g)
    /\ text = take (S n) (drop offset code).

Definition violations_of (code : string) : list violation :=
  snd (check_dangerous_patterns code).

(** The text of a pattern that is all literals. *)
Fixpoint literal_text (p : pattern) : option string :=
  match p with
  | [] => Some EmptyString
  | Lit c :: p' =>
      match literal_text p' with
      | Some t => Some (String c t)
      | None => None
      end
  | _ => None
  end.

End SafetyFilterVocabulary.

Section ResponseVocabulary.
Import PyStr ModelInterface.

(** The text before the first occurrence of [sep], or all of [s]. *)
Definition before (sep s : string) : string :=
  match partition sep s with
  | Some (a, _) => a
  | None => s
  end.

(** The message kept, or the fixed one when there is none. *)
Definition message_or_fallback (m : string) : string :=
  if truthy m then m else FALLBACK_MESSAGE.

(** The response of the design document's example. *)
Definition example_response : string :=
  "Sure!" ++ nl ++ "```python" ++ nl ++ "def rendermind_action(context):"
  ++ nl ++ "    pass" ++ nl ++ "```".

(** A response with a plain fenced block followed by a [```python] block. *)
Definition two_block_response : string :=
  "Install:" ++ nl ++ "```" ++ nl ++ "pip install numpy" ++ nl ++ "```" ++ nl
  ++ "Then:" ++ nl ++ "```python" ++ nl ++ "x = 1" ++ nl ++ "```".

End ResponseVocabulary.

Section OperatorVocabulary.
Import PyStr BlenderUtils Operators.

(** [post m st Q]: running [m] from [st] ends in a state and an outcome
    that satisfy [Q]. *)
Definition post {A : Type} (m : M A) (st : state)
    (Q : state -> outcome A -> Prop) : Prop :=
  Q (fst (m st)) (snd (m st)).

Definition keeps_scenes {A : Type} (m : M A) : Prop :=
  forall st, scenes (bpy (fst (m st))) = scenes (bpy st).

(** The turn the operator marks when the script of turn [i] fails. *)
Definition mark_error (e : exn) (m : RMChatMessage) : RMChatMessage :=
  set_error_msg (str_exn e) (set_status ERROR m).

(** [m] raises [Exception]s only. *)
Definition raises_only_Exceptions {A : Type} (m : M A) : Prop :=
  forall st e, snd (m st) = Raises e -> is_Exception e = true.

(** [m] returns, whatever the state. *)
Definition returns_normally {A : Type} (m : M A) : Prop :=
  forall st, exists a, snd (m st) = Returns a.

(** The invariant as the design document states it. *)
Definition turn_as_stated (m : RMChatMessage) : Prop :=
  (status m = SUCCESS \/ status m = ERROR -> code m <> "")
  /\ (status m = NONE -> code m = "").

(** What the operators keep: a turn marked [SUCCESS] holds a script, and a
    turn of the user holds none and is never marked. *)
Definition turn_ok (m : RMChatMessage) : Prop :=
  (status m = SUCCESS -> code m <> "")
  /\ (role m = USER -> status m = NONE /\ code m = "").

Definition turns_ok (st : state) : Prop :=
  Forall turn_ok (chat_messages (props st)).

End OperatorVocabulary.

(** ** Sample inputs *)

(** A [float] that reads the numerals [2] and [1.5] only. *)
Definition float_text_sample (tok : string) : option string :=
  if String.eqb tok "2" then Some "2.0"
  else if String.eqb tok "1.5" then Some "1.5"
  else None.

(** A session with the user's scene shown in the window, a render that
    fails for want of a camera, and a script that runs. *)
Definition one_scene_session : Operators.session :=
  Operators.mkSession [(0, "Scene")] 1 (Some 0).

Definition render_without_camera (h : nat) (file : string)
    (b : Operators.session) : Operators.session * outcome unit :=
  (b, Raises (mkExn RuntimeError "Error: Cannot render, no camera")).

Definition exec_quietly (src : string) (b : Operators.session)
    : Operators.session * outcome unit :=
  (b, Returns tt).

Definition preview_state (plan : string) : Operators.state :=
  Operators.mkState
    (BlenderUtils.mkProps [] "" false true ModelInterface.OPENAI plan [])
    one_scene_session [].

(** A script that raises when it runs, whatever the namespace. *)
Definition boom : exn := mkExn RuntimeError "division by zero".

Definition exec_raises_boom (src : string) (b : Operators.session)
    : Operators.session
      * outcome (option (BlenderUtils.entry_point Operators.session)) :=
  (b, Raises boom).

Definition exec_globals_raises_boom (src : string) (b : Operators.session)
    : Operators.session * outcome unit :=
  (b, Raises boom).

(** A backend that answers with a message and a fenced script. *)
Definition backend_sample (prompt : string)
    : outcome (option string * option string) :=
  Returns (Some ("Done." ++ PyStr.nl ++ "```python" ++ PyStr.nl ++ "x = 1 / 0"
                 ++ PyStr.nl ++ "```"), None).

Definition no_template (r : ModelLibrary.asset_record) (prompt : string)
    : string := "".

(** A session in which the user has typed an instruction. *)
Definition chat_state (input : string) (auto : bool)
    (turns : list BlenderUtils.RMChatMessage) : Operators.state :=
  Operators.mkState
    (BlenderUtils.mkProps turns input false auto ModelInterface.OPENAI "" [])
    one_scene_session [].

Definition failed_reply : BlenderUtils.RMChatMessage :=
  BlenderUtils.mkMsg BlenderUtils.AI "Done." "x = 1 / 0" "12:00"
    BlenderUtils.ERROR "division by zero" false.

Definition chat_state_after_run : Operators.state :=
  Operators.mkState
    (BlenderUtils.mkProps [failed_reply] "" false true ModelInterface.OPENAI
       "" [])
    one_scene_session
    [(Operators.REPORT_ERROR, "Execution failed: division by zero")].

(** A backend that fails, as on a refused credential. *)
Definition backend_unauthorized (prompt : string)
    : outcome (option string * option string) :=
  Returns (None, Some "API Error 401: unauthorized").

(** A script that runs and defines its entry point, unless it is empty. *)
Definition exec_defines_entry (src : string) (b : Operators.session)
    : Operators.session
      * outcome (option (BlenderUtils.entry_point Operators.session)) :=
  if PyStr.truthy src then (b, Returns (Some (fun w => (w, Returns tt))))
  else (b, Returns None).

Section SanitizeVocabulary.

(** [a] is [b] with some characters left out. *)
Inductive subsequence : string -> string -> Prop :=
| subsequence_empty : subsequence EmptyString EmptyString
| subsequence_keep : forall c a b,
    subsequence a b -> subsequence (String c a) (String c b)
| subsequence_skip : forall c a b,
    subsequence a b -> subsequence a (String c b).

(** The warning [sanitize_code] issues for a pattern. *)
Definition removal_warning (pattern : string) : string :=
  ("Removed dangerous pattern: " ++ pattern)%string.

End SanitizeVocabulary.

Section LegacyVocabulary.
Import ModelInterface.

Variable assets : option (list ModelLibrary.walk_entry).
Variable generate_import_code : ModelLibrary.asset_record -> string -> string.
Variable backend : string -> outcome (option string * option string).

(** What escapes from [code, error = generate_blender_code(prompt)]. *)
Definition unpacking_failure (the_provider : provider) (prompt : string)
    : exn :=
  match generate_blender_code assets generate_import_code the_provider
          backend prompt with
  | Raises e => e
  | Returns _ => mkExn ValueError "too many values to unpack (expected 2)"
  end.

End LegacyVocabulary.

Section LegacySamples.
Import BlenderUtils Operators LegacyOperators.

(** A legacy state with a sphere plan and two history items. *)
Definition apply_state : legacy_state :=
  mkLegacyState
    (preview_state "sphere r=2")
    (mkLegacy "Create a vase" 2
       [mkHistory "a" "cylinder" false; mkHistory "b" "sphere r=2" false]).

End LegacySamples.

Section BlocklistCaseVocabulary.
Import PyStr Re SafeFilters.

(** A result on the lower-cased text: the same length, the group
    lower-cased. *)
Definition lower_result (r : option (nat * string)) : option (nat * string) :=
  match r with
  | Some (n, g) => Some (n, lower g)
  | None => None
  end.

Definition lower_match (m : re_match) : re_match :=
  mkMatch (m_start m) (lower (m_group m)) (lower (m_group1 m)).

Definition lower_violation (v : violation) : violation :=
  mkViolation (v_pattern v) (lower (v_match v)) (v_position v).

(** Where a script is flagged: the patterns and the offsets. *)
Definition flagged_at (code : string) : list (string * nat) :=
  map (fun v => (v_pattern v, v_position v)) (violations_of code).

End BlocklistCaseVocabulary.

Section EmitterValidatorVocabulary.
Import PyStr PlanEmitter BlenderUtils.

Fixpoint last_char (s : string) : option ascii :=
  match s with
  | EmptyString => None
  | String c EmptyString => Some c
  | String _ rest => last_char rest
  end.

Definition first_char (s : string) : option ascii :=
  match s with
  | EmptyString => None
  | String c _ => Some c
  end.

(** The characters of the text of a [float]: digits, the point, the
    exponent and the signs, and the letters of [inf] and [nan]. *)
Definition float_alphabet : string := "0123456789.e+-infa".

Fixpoint all_chars_in (alphabet s : string) : bool :=
  match s with
  | EmptyString => true
  | String c rest => mem_char c alphabet && all_chars_in alphabet rest
  end.

(** A character of [tok] that the text of no [float] holds. *)
Definition foreign_char (tok : string) : option ascii :=
  (fix scan (s : string) : option ascii :=
     match s with
     | EmptyString => None
     | String c rest =>
         if mem_char c float_alphabet then scan rest else Some c
     end) tok.

(** The sphere script around its radius. *)
Definition sphere_before_radius : string :=
  join nl header ++ nl
  ++ "    bpy.ops.mesh.primitive_uv_sphere_add(radius=".

Definition sphere_after_radius : string :=
  ", location=(0,0,0.5))" ++ nl
  ++ join nl (List.tl (sphere_lines "" "")).

End EmitterValidatorVocabulary.

(* ================================================================== *)
(** * Properties *)
(* ================================================================== *)

(** ** The built-ins on small inputs *)

Example split_ws_words :
  PyStr.split_ws "  a nice   red chair " = ["a"; "nice"; "red"; "chair"].
Proof. reflexivity. Qed.

Example split_keeps_empty_pieces :
  PyStr.split "," "a,b,,c" = ["a"; "b"; ""; "c"].
Proof. reflexivity. Qed.

Example replace_does_not_overlap :
  PyStr.replace "aa" "b" "aaa" = "ba"
  /\ PyStr.replace "_01" "" "vase_01_01x" = "vasex".
Proof. split; reflexivity. Qed.

Example strip_both_ends :
  PyStr.strip ("  ab c " ++ PyStr.nl) = "ab c"
  /\ PyStr.strip_chars ");" "2.5);" = "2.5".
Proof. split; reflexivity. Qed.

Example lower_folds_letters : PyStr.lower "Chair_4K.OBJ" = "chair_4k.obj".
Proof. reflexivity. Qed.

Example path_split_last_dot :
  ModelLibrary.path_split "vase_01.blend" = ("vase_01", ".blend")
  /\ ModelLibrary.path_split "a.tar.gz" = ("a.tar", ".gz")
  /\ ModelLibrary.path_split ".blend" = (".blend", "")
  /\ ModelLibrary.path_split "model." = ("model.", "")
  /\ ModelLibrary.path_split "README" = ("README", "").
Proof. repeat split; reflexivity. Qed.

Example finditer_scans_left_to_right :
  Re.finditer true (Re.compile "with\s+open") "With  open(a); with open(b)"
  = [Re.mkMatch 0 "With  open" ""; Re.mkMatch 15 "with open" ""].
Proof. reflexivity. Qed.

Example import_scan_takes_every_keyword :
  map Re.m_group1
      (Re.finditer false SafeFilters.import_pattern
         ("import bpy, os" ++ PyStr.nl ++ "from mathutils import Vector"))
  = ["bpy"; "mathutils"; "Vector"].
Proof. reflexivity. Qed.

(** ** Substrings *)

Section Substrings.
Import PyStr.

Lemma strip_prefix_some : forall p s r,
  strip_prefix p s = Some r <-> s = p ++ r.
Proof.
  induction p as [|a p IH]; intros s r; simpl.
  - split; intros H; [now inversion H | now subst].
  - destruct s as [|b s].
    + split; intros H; discriminate.
    + destruct (Ascii.eqb_spec a b) as [->|Hne].
      * rewrite IH. split; intros H; [now subst | now inversion H].
      * split; intros H; [discriminate | inversion H; congruence].
Qed.

Lemma partition_some : forall sep s a b,
  partition sep s = Some (a, b) -> s = a ++ sep ++ b.
Proof.
  intros sep s; induction s as [|c s IH]; intros a b H; simpl in H.
  - destruct (strip_prefix sep "") eqn:E; [|discriminate].
    inversion H; subst. simpl. now apply strip_prefix_some.
  - destruct (strip_prefix sep (String c s)) eqn:E.
    + inversion H; subst. simpl. now apply strip_prefix_some.
    + destruct (partition sep s) as [[a' b']|] eqn:E'; [|discriminate].
      inversion H; subst. simpl. f_equal. now apply IH.
Qed.

Lemma partition_none : forall sep s,
  partition sep s = None -> forall a b, s <> a ++ sep ++ b.
Proof.
  intros sep s; induction s as [|c s IH]; intros H a b Heq; simpl in H.
  - destruct (strip_prefix sep "") eqn:E; [discriminate|].
    destruct a; simpl in Heq; [|discriminate].
    apply strip_prefix_some in Heq.
    rewrite Heq in E. discriminate.
  - destruct (strip_prefix sep (String c s)) eqn:E; [discriminate|].
    destruct (partition sep s) as [[a' b']|] eqn:E'; [discriminate|].
    destruct a as [|x a]; simpl in Heq.
    + apply strip_prefix_some in Heq.
      rewrite Heq in E. discriminate.
    + inversion Heq; subst. now apply (IH eq_refl a b).
Qed.

(** [sub in s] holds exactly when [sub] is a substring of [s], character
    for character. *)
Lemma contains_iff : forall sub s,
  contains sub s = true <-> exists a b, s = a ++ sub ++ b.
Proof.
  intros sub s. unfold contains.
  destruct (partition sub s) as [[a b]|] eqn:E.
  - split; [intros _|reflexivity]. exists a, b. now apply partition_some.
  - split; [discriminate|]. intros (a & b & H).
    exfalso. now apply (partition_none _ _ E a b).
Qed.

Lemma contains_false_iff : forall sub s,
  contains sub s = false <-> forall a b, s <> a ++ sub ++ b.
Proof.
  intros sub s. split.
  - intros H a b Heq.
    assert (contains sub s = true) by (apply contains_iff; eauto).
    congruence.
  - intros H. destruct (contains sub s) eqn:E; [|reflexivity].
    apply contains_iff in E. destruct E as (a & b & E). now apply H in E.
Qed.

End Substrings.

(** ** The validator of the execution path *)

Section ExecutionValidator.
Import PyStr BlenderUtils.

Lemma validate_script_returns : forall src,
  validate_script src = Returns tt <->
  forall tok, In tok FORBIDDEN_TOKENS -> contains tok src = false.
Proof.
  intros src. unfold validate_script.
  destruct (find (fun tok => contains tok src) FORBIDDEN_TOKENS) as [tok|] eqn:E.
  - split; [discriminate|]. intros H.
    apply find_some in E. destruct E as [Hin Hc].
    rewrite (H tok Hin) in Hc. discriminate.
  - split; [|reflexivity]. intros _ tok Hin.
    now apply (find_none _ _ E tok) in Hin.
Qed.

Lemma validate_script_raises : forall src e,
  validate_script src = Raises e ->
  exc_cls e = RuntimeError /\
  exists tok, In tok FORBIDDEN_TOKENS /\ contains tok src = true /\
              exc_msg e = "Unsafe token detected in script: " ++ tok.
Proof.
  intros src e. unfold validate_script.
  destruct (find (fun tok => contains tok src) FORBIDDEN_TOKENS) as [tok|] eqn:E;
    [|discriminate].
  intros H. inversion H; subst; simpl. split; [reflexivity|].
  apply find_some in E. destruct E as [Hin Hc]. now exists tok.
Qed.

(** C10.  [validate_script] raises, and then a [RuntimeError], exactly when
    one of its forbidden tokens is a substring of the script, character for
    character; nothing else is looked at: a script with an import outside
    the allowlist and a script the parser rejects both pass it, while the
    three-check filter refuses them.  A script that passes and whose top
    level leaves no [rendermind_action] makes
    [exec_script_in_current_scene] raise a [RuntimeError] in the session
    as the top level left it, no entry point having been called. *)
Theorem validate_script_raises_iff_forbidden_token :
  forall src : string,
    ((exists e, validate_script src = Raises e) <->
     (exists tok a b, In tok FORBIDDEN_TOKENS /\ src = a ++ tok ++ b))
    /\ (forall e, validate_script src = Raises e -> exc_cls e = RuntimeError)
    /\ (validate_script "import socket" = Returns tt
        /\ fst (SafeFilters.check_imports "import socket") = false)
    /\ (validate_script "def (" = Returns tt
        /\ forall py_compile msg,
             py_compile "def (" = SyntaxError msg ->
             SafeFilters.validate_code_safety py_compile "def ("
             = Returns (false, Some ("Syntax error: " ++ msg)))
    /\ (forall (world : Type) py_exec (w w1 : world),
          validate_script src = Returns tt ->
          py_exec src w = (w1, Returns None) ->
          exec_script_in_current_scene world py_exec src w
          = (w1, Raises (mkExn RuntimeError
                           "Script must define `rendermind_action(context)`"))).
Proof.
  intros src. repeat split.
  - intros [e He]. apply validate_script_raises in He.
    destruct He as (_ & tok & Hin & Hc & _).
    apply contains_iff in Hc. destruct Hc as (a & b & Hc).
    now exists tok, a, b.
  - intros (tok & a & b & Hin & Heq).
    destruct (validate_script src) as [[]|e] eqn:E; [|now exists e].
    exfalso. rewrite validate_script_returns in E.
    specialize (E tok Hin). apply contains_false_iff with (a := a) (b := b) in E.
    contradiction.
  - intros e He. now apply validate_script_raises in He.
  - intros py_compile msg H.
    unfold SafeFilters.validate_code_safety.
    replace (SafeFilters.check_dangerous_patterns "def (")
      with (true, @nil SafeFilters.violation) by (vm_compute; reflexivity).
    replace (SafeFilters.check_imports "def (")
      with (true, @nil string) by (vm_compute; reflexivity).
    cbn [negb]. now rewrite H.
  - intros world py_exec w w1 Hv He.
    unfold exec_script_in_current_scene. now rewrite Hv, He.
Qed.

Lemma validate_script_raises_iff_forbidden_token_witness :
  exec_script_in_current_scene unit (fun _ w => (w, Returns None)) "x = 1" tt
  = (tt, Raises (mkExn RuntimeError
                   "Script must define `rendermind_action(context)`"))
  /\ exc_cls (mkExn RuntimeError "Unsafe token detected in script: eval(")
     = RuntimeError.
Proof.
  destruct (validate_script_raises_iff_forbidden_token "x = 1")
    as (_ & _ & _ & _ & Hexec).
  destruct (validate_script_raises_iff_forbidden_token "eval(1)")
    as (_ & Hcls & _).
  split.
  - apply Hexec; reflexivity.
  - apply Hcls. reflexivity.
Defined.

End ExecutionValidator.

(** ** The plan emitter *)

Section PlanEmitterProperties.
Import PyStr PlanEmitter.

Variable float_text : string -> option string.

(** Whatever the inner [try] raises is an [Exception]. *)
Lemma parse_radius_raises_Exception : forall p e,
  parse_radius float_text p = Raises e -> is_Exception e = true.
Proof.
  intros p e. unfold parse_radius, bind, item.
  destruct (index "r=" p) as [i|];
    [|intros H; inversion H; reflexivity].
  destruct (nth_error (split "," (drop (i + 2) p)) 0) as [a|];
    [|intros H; inversion H; reflexivity].
  destruct (nth_error (split_ws a) 0) as [b|];
    [|intros H; inversion H; reflexivity].
  destruct (float_text (strip_chars ");" b));
    intros H; inversion H; reflexivity.
Qed.

(** The emitter returns one of its three scripts, whatever the plan. *)
Lemma emitter_total : forall plan,
  exists script,
    emitter_plan_to_script float_text plan = Returns script
    /\ defines_entry_point script = true.
Proof.
  intros plan. unfold emitter_plan_to_script.
  destruct (contains "uv_sphere" (lower plan) || contains "sphere" (lower plan)).
  - destruct (contains "r=" (lower plan)).
    + destruct (parse_radius float_text (lower plan)) as [v|e] eqn:E.
      * eexists; split; reflexivity.
      * rewrite (parse_radius_raises_Exception _ _ E).
        eexists; split; reflexivity.
    + eexists; split; reflexivity.
  - destruct (contains "cylinder" (lower plan)); eexists; split; reflexivity.
Qed.

Lemma emitter_cylinder : forall plan,
  contains "sphere" (lower plan) = false ->
  contains "uv_sphere" (lower plan) = false ->
  contains "cylinder" (lower plan) = true ->
  emitter_plan_to_script float_text plan = Returns cylinder_script.
Proof.
  intros plan H1 H2 H3. unfold emitter_plan_to_script.
  now rewrite H1, H2, H3.
Qed.

(** C9.  The emitter returns a script that defines the entry point for
    every plan; a plan whose lower-cased text holds none of the keywords
    [uv_sphere], [sphere], [cylinder] gives the placeholder script; and a
    sphere plan with [r=] in it whose radius does not parse (no token, or
    a token [float] rejects) gives the sphere script with radius 0.5. *)
Theorem emitter_never_fails :
  forall plan : string,
    (exists script,
       emitter_plan_to_script float_text plan = Returns script
       /\ defines_entry_point script = true)
    /\ (contains "uv_sphere" (lower plan) = false ->
        contains "sphere" (lower plan) = false ->
        contains "cylinder" (lower plan) = false ->
        emitter_plan_to_script float_text plan = Returns placeholder_script
        /\ defines_entry_point placeholder_script = true)
    /\ (contains "sphere" (lower plan) = true ->
        contains "r=" (lower plan) = true ->
        (forall v, parse_radius float_text (lower plan) <> Returns v) ->
        emitter_plan_to_script float_text plan = Returns (sphere_script "0.5")).
Proof.
  intros plan. split; [apply emitter_total|]. split.
  - intros H1 H2 H3. unfold emitter_plan_to_script.
    rewrite H1, H2, H3. split; reflexivity.
  - intros H1 H2 H3. unfold emitter_plan_to_script.
    rewrite H1, H2, orb_true_r.
    destruct (parse_radius float_text (lower plan)) as [v|e] eqn:E.
    + now elim (H3 v).
    + rewrite (parse_radius_raises_Exception _ _ E). reflexivity.
Qed.

End PlanEmitterProperties.

Lemma emitter_never_fails_witness :
  PlanEmitter.emitter_plan_to_script float_text_sample "make a torus"
  = Returns placeholder_script
  /\ PlanEmitter.emitter_plan_to_script float_text_sample "Sphere r=big, red"
     = Returns (sphere_script "0.5")
  /\ PlanEmitter.emitter_plan_to_script float_text_sample "sphere r="
     = Returns (sphere_script "0.5").
Proof.
  split; [|split].
  - apply (emitter_never_fails float_text_sample "make a torus"); reflexivity.
  - apply (emitter_never_fails float_text_sample "Sphere r=big, red");
      [reflexivity | reflexivity | intros v H; vm_compute in H; discriminate H].
  - apply (emitter_never_fails float_text_sample "sphere r=");
      [reflexivity | reflexivity | intros v H; vm_compute in H; discriminate H].
Defined.

(** ** The asset matcher *)

Section AssetMatcher.
Import PyStr ModelLibrary.

Lemma score_of_ladder : forall q words raw,
  score_of q words raw = first_rule (ladder q words raw).
Proof.
  intros q words raw. unfold score_of, ladder, first_rule.
  destruct (String.eqb q raw || String.eqb q (clean_stem raw)); simpl;
    [reflexivity|].
  destruct (existsb (fun w => String.eqb w (clean_stem raw)) (meaningful words));
    reflexivity.
Qed.

Lemma visit_file_ranked : forall query e file,
  visit_file (strip (lower query)) (split_ws (strip (lower query))) e file
  = ranked query e file.
Proof.
  intros query e file. unfold visit_file, ranked, category_of.
  destruct (mem (lower (path_suffix file)) supported_formats); simpl;
    [|reflexivity].
  now rewrite score_of_ladder.
Qed.

Lemma collect_ranked : forall walk query,
  collect walk query
  = flat_map (fun e => flat_map (ranked query e) (w_files e)) walk.
Proof.
  intros walk query. unfold collect.
  apply flat_map_ext. intros e. apply flat_map_ext. intros file.
  apply visit_file_ranked.
Qed.

Lemma insert_desc_perm : forall x l, Permutation (insert_desc x l) (x :: l).
Proof.
  intros x l; induction l as [|y r IH]; simpl.
  - apply Permutation_refl.
  - destruct (a_score x <? a_score y).
    + apply perm_trans with (y :: x :: r).
      * now apply perm_skip.
      * apply perm_swap.
    + apply Permutation_refl.
Qed.

Lemma sort_desc_perm : forall l, Permutation (sort_desc l) l.
Proof.
  induction l as [|x r IH]; simpl.
  - apply perm_nil.
  - apply perm_trans with (x :: sort_desc r).
    + apply insert_desc_perm.
    + now apply perm_skip.
Qed.

Lemma insert_desc_sorted : forall x l,
  StronglySorted score_ge l -> StronglySorted score_ge (insert_desc x l).
Proof.
  intros x l H; induction H as [|y r Hs IH Hall]; simpl.
  - constructor; [constructor | constructor].
  - destruct (a_score x <? a_score y) eqn:E.
    + apply Nat.ltb_lt in E. constructor; [assumption|].
      apply Forall_forall. intros z Hz.
      apply (Permutation_in _ (insert_desc_perm x r)) in Hz.
      destruct Hz as [<-|Hz].
      * unfold score_ge. lia.
      * rewrite Forall_forall in Hall. now apply Hall.
    + apply Nat.ltb_ge in E. constructor.
      * now constructor.
      * constructor; [exact E|].
        rewrite Forall_forall in Hall |- *. intros z Hz.
        specialize (Hall z Hz). unfold score_ge in *. lia.
Qed.

Lemma sort_desc_sorted : forall l, StronglySorted score_ge (sort_desc l).
Proof.
  induction l as [|x r IH]; simpl.
  - constructor.
  - now apply insert_desc_sorted.
Qed.

(** Insertion keeps the records of one score in their order. *)
Lemma insert_desc_stable : forall k x l,
  filter (by_score k) (insert_desc x l) = filter (by_score k) (x :: l).
Proof.
  intros k x l; induction l as [|y r IH]; [reflexivity|].
  cbn [insert_desc].
  destruct (a_score x <? a_score y) eqn:E; [|reflexivity].
  apply Nat.ltb_lt in E.
  cbn [filter] in *. rewrite IH. unfold by_score.
  destruct (a_score x =? k) eqn:Ex, (a_score y =? k) eqn:Ey; try reflexivity.
  apply Nat.eqb_eq in Ex, Ey. lia.
Qed.

Lemma sort_desc_stable : forall k l,
  filter (by_score k) (sort_desc l) = filter (by_score k) l.
Proof.
  intros k l; induction l as [|x r IH]; [reflexivity|].
  cbn [sort_desc]. rewrite insert_desc_stable. cbn [filter]. now rewrite IH.
Qed.

Lemma ranked_positive : forall query e file r,
  In r (ranked query e file) -> 0 < a_score r.
Proof.
  intros query e file r. unfold ranked.
  destruct (mem _ supported_formats); [|intros []].
  destruct (0 <? first_rule _) eqn:E; [|intros []].
  intros [<-|[]]. simpl. now apply Nat.ltb_lt.
Qed.


Lemma ranked_in_search : forall walk query e file r,
  In e walk -> In file (w_files e) -> In r (ranked query e file) ->
  In r (search_models (Some walk) query).
Proof.
  intros walk query e file r He Hf Hr. unfold search_models.
  apply (Permutation_in _ (Permutation_sym (sort_desc_perm _))).
  rewrite collect_ranked.
  apply in_flat_map. exists e. split; [assumption|].
  apply in_flat_map. now exists file.
Qed.

(** C7.  With [vase_01.blend] in the library the query [vase] returns it
    with score 100, the clean stem being [vase]; with [chair_4k.obj] in the
    library the query [a nice red chair] returns it with score 100, the
    meaningful word [chair] being the clean stem. *)
Theorem vase_and_chair_score_100 :
  forall (walk : list walk_entry) (e : walk_entry),
    In e walk ->
    (In "vase_01.blend" (w_files e) ->
     In (mkAsset (path_join (w_root e) "vase_01.blend") "vase_01.blend"
                 (category_of e) 100 ".blend")
        (search_models (Some walk) "vase"))
    /\ (In "chair_4k.obj" (w_files e) ->
        In (mkAsset (path_join (w_root e) "chair_4k.obj") "chair_4k.obj"
                    (category_of e) 100 ".obj")
           (search_models (Some walk) "a nice red chair"))
    /\ clean_stem "vase_01" = "vase"
    /\ clean_stem "chair_4k" = "chair"
    /\ meaningful (split_ws "a nice red chair") = ["nice"; "red"; "chair"].
Proof.
  intros walk e He. repeat split.
  - intros Hf. apply (ranked_in_search walk "vase" e "vase_01.blend");
      [assumption | assumption | left; reflexivity].
  - intros Hf.
    apply (ranked_in_search walk "a nice red chair" e "chair_4k.obj");
      [assumption | assumption | left; reflexivity].
Qed.

End AssetMatcher.

Lemma vase_and_chair_score_100_witness :
  In (ModelLibrary.mkAsset "/assets/props/vase_01.blend" "vase_01.blend"
        "props" 100 ".blend")
     (ModelLibrary.search_models
        (Some [ModelLibrary.mkWalk "/assets/props" "props"
                 ["lamp.fbx"; "vase_01.blend"; "chair_4k.obj"]])
        "vase")
  /\ In (ModelLibrary.mkAsset "/assets/props/chair_4k.obj" "chair_4k.obj"
           "props" 100 ".obj")
        (ModelLibrary.search_models
           (Some [ModelLibrary.mkWalk "/assets/props" "props"
                    ["lamp.fbx"; "vase_01.blend"; "chair_4k.obj"]])
           "a nice red chair").
Proof.
  pose proof (vase_and_chair_score_100
                [ModelLibrary.mkWalk "/assets/props" "props"
                   ["lamp.fbx"; "vase_01.blend"; "chair_4k.obj"]]
                (ModelLibrary.mkWalk "/assets/props" "props"
                   ["lamp.fbx"; "vase_01.blend"; "chair_4k.obj"])
                (or_introl eq_refl)) as (Hvase & Hchair & _).
  split.
  - apply Hvase. simpl. auto.
  - apply Hchair. simpl. auto.
Defined.

(** ** The safety filter *)

Section SafetyFilter.
Import PyStr Re SafeFilters.

Lemma plus_run_length : forall f capture k s n g,
  (forall s' n' g', k s' = Some (n', g') -> n' <= String.length s') ->
  plus_run f capture k s = Some (n, g) -> 0 < n <= String.length s.
Proof.
  intros f capture k s; induction s as [|x s IH]; intros n g Hk H; simpl in H.
  - discriminate.
  - destruct (f x); [|discriminate].
    destruct (plus_run f capture k s) as [[n1 g1]|] eqn:E.
    + inversion H; subst. specialize (IH n1 g1 Hk eq_refl). simpl. lia.
    + destruct (k s) as [[n1 g1]|] eqn:Ek; [|discriminate].
      inversion H; subst. apply Hk in Ek. simpl. lia.
Qed.

Lemma lit_prefix_length : forall ic w s rest,
  lit_prefix ic w s = Some rest ->
  String.length s = String.length w + String.length rest.
Proof.
  intros ic w; induction w as [|a w IH]; intros s rest H; simpl in H.
  - inversion H; subst. reflexivity.
  - destruct s as [|b s]; [discriminate|].
    destruct (chr_eq ic a b); [|discriminate].
    apply IH in H. simpl. lia.
Qed.

(** A match consumes no more than there is. *)
Lemma match_here_length : forall ic p s n g,
  match_here ic p s = Some (n, g) -> n <= String.length s.
Proof.
  intros ic p; induction p as [|a p IH]; intros s n g H.
  - inversion H; subst. lia.
  - destruct a as [c|words| |]; cbn [match_here] in H.
    + destruct s as [|x s]; [discriminate|].
      destruct (chr_eq ic c x); [|discriminate].
      destruct (match_here ic p s) as [[n1 g1]|] eqn:E; [|discriminate].
      inversion H; subst. apply IH in E. simpl. lia.
    + induction words as [|w ws IHw]; [discriminate|].
      destruct (lit_prefix ic w s) as [rest|] eqn:El; [|now apply IHw].
      destruct (match_here ic p rest) as [[n1 g1]|] eqn:E; [|now apply IHw].
      inversion H; subst. apply IH in E. apply lit_prefix_length in El. lia.
    + apply plus_run_length in H; [lia | exact (IH)].
    + apply plus_run_length in H; [lia | exact (IH)].
Qed.

Lemma take_length : forall n s,
  n <= String.length s -> String.length (take n s) = n.
Proof.
  induction n as [|n IH]; intros s H; [reflexivity|].
  destruct s as [|c s]; simpl in *; [lia|]. rewrite IH; lia.
Qed.

(** Every place where the pattern matches is reported by the scan, or lies
    under a match that the scan reported before it. *)
Lemma finditer_from_covers : forall ic p s pos skip i n g,
  skip <= i ->
  match_here ic p (drop i s) = Some (S n, g) ->
  In (mkMatch (pos + i) (take (S n) (drop i s)) g)
     (finditer_from ic p pos skip s)
  \/ exists m, In m (finditer_from ic p pos skip s)
               /\ overlaps (m_start m) (m_group m) (pos + i).
Proof.
  intros ic p s; induction s as [|c s IH]; intros pos skip i n g Hskip H.
  - exfalso. replace (drop i "") with "" in H by (now destruct i).
    apply match_here_length in H. simpl in H. lia.
  - cbn [finditer_from]. destruct skip as [|k].
    + destruct i as [|i].
      * cbn [drop] in H |- *. rewrite H. left. left.
        now rewrite Nat.add_0_r.
      * cbn [drop] in H.
        destruct (match_here ic p (String c s)) as [[[|m] g0]|] eqn:E.
        -- destruct (IH (S pos) 0 i n g (Nat.le_0_l _) H) as [Hin|(m & Hin & Ho)].
           ++ left. cbn [drop]. now rewrite <- plus_n_Sm.
           ++ right. exists m. rewrite <- plus_n_Sm. now split.
        -- destruct (Nat.lt_ge_cases i m) as [Hlt|Hge].
           ++ right. exists (mkMatch pos (take (S m) (String c s)) g0).
              split; [now left|]. unfold overlaps. cbn [m_start m_group].
              apply match_here_length in E. rewrite take_length by exact E. lia.
           ++ destruct (IH (S pos) m i n g Hge H) as [Hin|(m' & Hin & Ho)].
              ** left. right. cbn [drop]. now rewrite <- plus_n_Sm.
              ** right. exists m'. rewrite <- plus_n_Sm. split; [now right|easy].
        -- destruct (IH (S pos) 0 i n g (Nat.le_0_l _) H) as [Hin|(m & Hin & Ho)].
           ++ left. cbn [drop]. now rewrite <- plus_n_Sm.
           ++ right. exists m. rewrite <- plus_n_Sm. now split.
    + destruct i as [|i]; [lia|]. cbn [drop] in H |- *.
      destruct (IH (S pos) k i n g (le_S_n _ _ Hskip) H) as [Hin|(m & Hin & Ho)].
      * left. now rewrite <- plus_n_Sm.
      * right. exists m. rewrite <- plus_n_Sm. now split.
Qed.

(** Every match the scan reports is a place where the pattern matches. *)
Lemma finditer_from_sound : forall ic p s pos skip m,
  In m (finditer_from ic p pos skip s) ->
  exists i n,
    m_start m = pos + i /\ skip <= i
    /\ match_here ic p (drop i s) = Some (S n, m_group1 m)
    /\ m_group m = take (S n) (drop i s).
Proof.
  intros ic p s; induction s as [|c s IH]; intros pos skip m H; [destruct H|].
  cbn [finditer_from] in H. destruct skip as [|k].
  - destruct (match_here ic p (String c s)) as [[[|n] g0]|] eqn:E.
    + apply IH in H. destruct H as (i & n & Hs & _ & Hm & Hg).
      exists (S i), n. cbn [drop]. repeat split; try assumption; lia.
    + destruct H as [<-|H].
      * exists 0, n. cbn [drop m_start m_group m_group1].
        repeat split; try assumption; lia.
      * apply IH in H. destruct H as (i & n' & Hs & _ & Hm & Hg).
        exists (S i), n'. cbn [drop]. repeat split; try assumption; lia.
    + apply IH in H. destruct H as (i & n & Hs & _ & Hm & Hg).
      exists (S i), n. cbn [drop]. repeat split; try assumption; lia.
  - apply IH in H. destruct H as (i & n & Hs & Hk & Hm & Hg).
    exists (S i), n. cbn [drop]. repeat split; try assumption; lia.
Qed.

Lemma in_violations : forall code v,
  In v (violations_of code) <->
  In (v_pattern v) DANGEROUS_PATTERNS
  /\ exists m, In m (finditer true (compile (v_pattern v)) code)
               /\ v_match v = m_group m /\ v_position v = m_start m.
Proof.
  intros code v. unfold violations_of, check_dangerous_patterns.
  cbn [snd]. rewrite in_flat_map. split.
  - intros (pat & Hpat & Hv). apply in_map_iff in Hv.
    destruct Hv as (m & <- & Hm). cbn. split; [assumption|]. now exists m.
  - intros (Hpat & m & Hm & Hg & Hs). exists (v_pattern v).
    split; [assumption|]. apply in_map_iff. exists m. split; [|assumption].
    destruct v; cbn in *. now subst.
Qed.

Lemma check_dangerous_patterns_eq : forall code,
  check_dangerous_patterns code
  = (List.length (violations_of code) =? 0, violations_of code).
Proof. reflexivity. Qed.

Lemma validate_unsafe_on_violation : forall py_compile code v,
  In v (violations_of code) ->
  validate_code_safety py_compile code
  = Returns (false, Some ("Dangerous patterns detected: "
                          ++ join ", " (map v_match (violations_of code)))).
Proof.
  intros py_compile code v Hv.
  unfold validate_code_safety, violations_of in *.
  destruct (check_dangerous_patterns code) as [safe vs] eqn:E.
  unfold check_dangerous_patterns in E. inversion E as [[Hsafe Hvs]].
  cbn [snd] in Hv. rewrite Hvs in *.
  destruct vs as [|v0 vs]; [destruct Hv|]. reflexivity.
Qed.

(** A place where a blocklisted pattern matches is listed, or lies under a
    match of the same pattern that is. *)
Lemma occurrence_listed_or_covered : forall code pat offset text,
  In pat DANGEROUS_PATTERNS ->
  occurs_at pat code offset text ->
  In (mkViolation pat text offset) (violations_of code)
  \/ exists v, In v (violations_of code) /\ v_pattern v = pat
               /\ overlaps (v_position v) (v_match v) offset.
Proof.
  intros code pat offset text Hpat (n & g & Hm & ->).
  destruct (finditer_from_covers true (compile pat) code 0 0 offset n g
              (Nat.le_0_l _) Hm) as [Hin|(m & Hin & Ho)].
  - left. apply in_violations. cbn. split; [assumption|].
    eexists. split; [exact Hin|]. now split.
  - right. exists (mkViolation pat (m_group m) (m_start m)).
    split; [|now split].
    apply in_violations. cbn. split; [assumption|]. now exists m.
Qed.

(** Whatever is listed is a place where its pattern matches. *)
Lemma violation_is_occurrence : forall code v,
  In v (violations_of code) ->
  In (v_pattern v) DANGEROUS_PATTERNS
  /\ occurs_at (v_pattern v) code (v_position v) (v_match v).
Proof.
  intros code v Hv. apply in_violations in Hv.
  destruct Hv as (Hp & m & Hm & Hg & Hs). split; [assumption|].
  apply finditer_from_sound in Hm.
  destruct Hm as (i & n & Hstart & _ & Hmatch & Hgroup).
  cbn in Hstart. exists n, (m_group1 m). rewrite Hs, Hstart, Hg. now split.
Qed.

Lemma unsafe_on_violation : forall code v,
  In v (violations_of code) -> fst (check_dangerous_patterns code) = false.
Proof.
  intros code v Hv. rewrite check_dangerous_patterns_eq. cbn [fst].
  destruct (violations_of code); [destruct Hv|reflexivity].
Qed.

(** C1, as the code has it.  A script in which a blocklisted pattern
    matches is refused, with a message that joins the matched text of every
    violation.  The violations hold, pattern by pattern, what a scan from
    left to right finds: every place where the pattern matches is listed
    with the pattern, the matched text and the offset, unless it lies under
    a match of the same pattern listed before it; and whatever is listed is
    a place where its pattern matches. *)
Theorem dangerous_pattern_rejected_and_listed :
  forall (py_compile : string -> compile_result)
         (code pat : string) (offset : nat) (text : string),
    In pat DANGEROUS_PATTERNS ->
    occurs_at pat code offset text ->
    validate_code_safety py_compile code
    = Returns (false, Some ("Dangerous patterns detected: "
                            ++ join ", " (map v_match (violations_of code))))
    /\ fst (check_dangerous_patterns code) = false
    /\ (In (mkViolation pat text offset) (violations_of code)
        \/ exists v, In v (violations_of code) /\ v_pattern v = pat
                     /\ overlaps (v_position v) (v_match v) offset)
    /\ (exists v, In v (violations_of code) /\ v_pattern v = pat)
    /\ (forall v, In v (violations_of code) ->
          In (v_pattern v) DANGEROUS_PATTERNS
          /\ occurs_at (v_pattern v) code (v_position v) (v_match v)).
Proof.
  intros py_compile code pat offset text Hpat Hocc.
  pose proof (occurrence_listed_or_covered code pat offset text Hpat Hocc)
    as Hcov.
  assert (Hex : exists v, In v (violations_of code) /\ v_pattern v = pat).
  { destruct Hcov as [Hin|(v & Hin & Hp & _)].
    - eexists. split; [exact Hin|reflexivity].
    - now exists v. }
  destruct Hex as (v & Hv & Hvp).
  split; [now apply validate_unsafe_on_violation with (v := v)|].
  split; [now apply unsafe_on_violation with (v := v)|].
  split; [exact Hcov|].
  split; [now exists v|].
  intros v' Hv'. now apply violation_is_occurrence.
Qed.

Lemma dangerous_pattern_rejected_and_listed_witness :
  validate_code_safety (fun _ => Compiled) "import os; OS.System('ls')"
  = Returns (false, Some "Dangerous patterns detected: OS.System")
  /\ In (mkViolation "os\.system" "OS.System" 11)
        (violations_of "import os; OS.System('ls')").
Proof.
  destruct (dangerous_pattern_rejected_and_listed (fun _ => Compiled)
              "import os; OS.System('ls')" "os\.system" 11 "OS.System")
    as (Hval & _ & Hlisted & _).
  - simpl. auto.
  - exists 8, EmptyString. split; reflexivity.
  - split; [exact Hval|].
    destruct Hlisted as [Hin|(v & Hin & _ & Ho)]; [exact Hin|].
    left. reflexivity.
Defined.

Lemma chr_eq_refl : forall ic c, chr_eq ic c c = true.
Proof. intros [|] c; unfold chr_eq; apply Ascii.eqb_refl. Qed.

Lemma match_here_literal : forall p t rest,
  literal_text p = Some t ->
  match_here true p (t ++ rest) = Some (String.length t, EmptyString).
Proof.
  induction p as [|a p IH]; intros t rest H.
  - inversion H; subst. reflexivity.
  - destruct a as [c| | |]; try discriminate. cbn [literal_text] in H.
    destruct (literal_text p) as [t'|] eqn:E; [|discriminate].
    inversion H; subst. cbn [match_here append].
    now rewrite chr_eq_refl, (IH t' rest eq_refl).
Qed.

Lemma drop_append : forall a s, drop (String.length a) (a ++ s) = s.
Proof. induction a as [|c a IH]; intros s; simpl; [reflexivity|apply IH]. Qed.

Lemma take_append : forall a s, take (String.length a) (a ++ s) = a.
Proof.
  induction a as [|c a IH]; intros s; simpl; [reflexivity|now rewrite IH].
Qed.

(** A script that holds, anywhere, the text of a blocklisted pattern made
    of literals is refused. *)
Lemma script_with_blocklisted_text_refused :
  forall py_compile pat text before after,
    In pat DANGEROUS_PATTERNS ->
    literal_text (compile pat) = Some text -> text <> "" ->
    fst (check_dangerous_patterns (before ++ text ++ after)) = false
    /\ exists message,
         validate_code_safety py_compile (before ++ text ++ after)
         = Returns (false, Some message).
Proof.
  intros py_compile pat text before after Hpat Hlit Hne.
  assert (Hocc : occurs_at pat (before ++ text ++ after)
                   (String.length before) text).
  { destruct text as [|c t]; [congruence|].
    exists (String.length t), EmptyString.
    rewrite drop_append. split.
    - now apply match_here_literal.
    - change (S (String.length t)) with (String.length (String c t)).
      now rewrite take_append. }
  destruct (occurrence_listed_or_covered _ _ _ _ Hpat Hocc)
    as [Hin|(v & Hin & _)].
  - split; [now apply unsafe_on_violation with (v := mkViolation pat text
                                                   (String.length before))|].
    eexists. now apply validate_unsafe_on_violation
                   with (v := mkViolation pat text (String.length before)).
  - split; [now apply unsafe_on_violation with (v := v)|].
    eexists. now apply validate_unsafe_on_violation with (v := v).
Qed.

(** C1, as stated, fails.  In the script below [__import__] matches at
    offsets 0 and 8; the scan resumes after the first match, so the one at
    offset 8 is not listed.  What [validate_code_safety] returns holds the
    matched text only, neither the pattern nor the offset. *)
Lemma overlapping_occurrence_not_listed :
  occurs_at "__import__" "__import__import__" 8 "__import__"
  /\ In "__import__" DANGEROUS_PATTERNS
  /\ violations_of "__import__import__" = [mkViolation "__import__" "__import__" 0]
  /\ ~ In (mkViolation "__import__" "__import__" 8)
          (violations_of "__import__import__")
  /\ (forall py_compile,
        validate_code_safety py_compile "__import__import__"
        = Returns (false, Some "Dangerous patterns detected: __import__")).
Proof.
  split; [exists 9, EmptyString; split; reflexivity|].
  split; [simpl; tauto|].
  split; [reflexivity|].
  split; [|reflexivity].
  intros [H|[]]. discriminate H.
Qed.

(** C2 fails on an ordinary [from]-import.  The only module this script
    imports is [math], which is allowed; no blocklisted pattern matches in
    it; whatever the parser says, the filter refuses it, having taken the
    imported name [pi] for a module. *)
Theorem from_import_of_allowed_module_rejected :
  forall py_compile : string -> compile_result,
    fst (check_dangerous_patterns "from math import pi") = true
    /\ map m_group1 (finditer false import_pattern "from math import pi")
       = ["math"; "pi"]
    /\ mem "math" ALLOWED_IMPORTS = true
    /\ check_imports "from math import pi" = (false, ["pi"])
    /\ validate_code_safety py_compile "from math import pi"
       = Returns (false, Some "Disallowed imports: pi").
Proof.
  intros py_compile. repeat split.
Qed.

(** What the import check does accept: scripts in which every word that
    follows [from] or [import] and whitespace is an allowed module. *)
Lemma validate_safe_when_scan_is_clean : forall py_compile code,
  violations_of code = [] ->
  (forall m, In m (finditer false import_pattern code) ->
             mem (m_group1 m) ALLOWED_IMPORTS = true) ->
  py_compile code = Compiled ->
  validate_code_safety py_compile code = Returns (true, None).
Proof.
  intros py_compile code Hv Hi Hc.
  unfold validate_code_safety. rewrite check_dangerous_patterns_eq, Hv.
  cbn [negb List.length Nat.eqb].
  unfold check_imports.
  assert (Hd : flat_map
            (fun m => if negb (mem (m_group1 m) ALLOWED_IMPORTS)
                      then [m_group1 m] else [])
            (finditer false import_pattern code) = []).
  { induction (finditer false import_pattern code) as [|m ms IH]; [reflexivity|].
    cbn [flat_map]. rewrite (Hi m (or_introl eq_refl)). cbn.
    apply IH. intros m' Hm'. apply Hi. now right. }
  rewrite Hd. cbn. now rewrite Hc.
Qed.

End SafetyFilter.

(** ** The extraction of message and code *)

Section ResponseSplitting.
Import PyStr ModelInterface.

Lemma append_length : forall a b,
  String.length (a ++ b) = String.length a + String.length b.
Proof.
  induction a as [|c a IH]; intros b; simpl; [reflexivity|]. now rewrite IH.
Qed.

Lemma append_assoc3 : forall a b c, (a ++ b) ++ c = a ++ b ++ c.
Proof.
  induction a as [|x a IH]; intros b c; simpl; [reflexivity|]. now rewrite IH.
Qed.

Lemma partition_length : forall sep s a b,
  partition sep s = Some (a, b) ->
  String.length s = String.length a + String.length sep + String.length b.
Proof.
  intros sep s a b H. apply partition_some in H. subst s.
  rewrite !append_length. lia.
Qed.

Lemma before_found : forall sep s a b,
  partition sep s = Some (a, b) -> before sep s = a.
Proof. intros sep s a b E. unfold before. now rewrite E. Qed.

Lemma split_fuel_first : forall fuel sep s,
  (partition sep s <> None -> 0 < fuel) ->
  nth_error (split_fuel fuel sep s) 0 = Some (before sep s).
Proof.
  intros fuel sep s H. unfold before. destruct fuel as [|fuel]; simpl.
  - destruct (partition sep s) as [[a b]|]; [|reflexivity].
    exfalso. assert (0 < 0) by (apply H; discriminate). lia.
  - destruct (partition sep s) as [[a b]|]; reflexivity.
Qed.

Lemma split_first : forall sep s,
  sep <> "" -> nth_error (split sep s) 0 = Some (before sep s).
Proof.
  intros sep s Hsep. apply split_fuel_first.
  destruct (partition sep s) as [[a b]|] eqn:E; [|congruence].
  intros _. apply partition_length in E.
  destruct sep; [congruence|]. simpl in E. lia.
Qed.

Lemma split_second : forall sep s a rest,
  sep <> "" -> partition sep s = Some (a, rest) ->
  nth_error (split sep s) 1 = Some (before sep rest).
Proof.
  intros sep s a rest Hsep E. unfold split.
  pose proof (partition_length _ _ _ _ E) as Hlen.
  destruct sep as [|c sep]; [congruence|]. simpl in Hlen.
  destruct (String.length s) as [|n] eqn:El; [lia|].
  cbn [split_fuel]. rewrite E. cbn [nth_error].
  apply split_fuel_first.
  destruct (partition (String c sep) rest) as [[a' b']|] eqn:E'; [|congruence].
  intros _. apply partition_length in E'. simpl in E'. lia.
Qed.

(** Before its first occurrence a separator does not occur. *)
Lemma partition_first : forall sep s a b,
  sep <> "" -> partition sep s = Some (a, b) -> partition sep a = None.
Proof.
  intros sep s; induction s as [|c s IH]; intros a b Hsep H; simpl in H.
  - destruct (strip_prefix sep "") eqn:E; [|discriminate].
    destruct sep; [congruence|discriminate].
  - destruct (strip_prefix sep (String c s)) eqn:E.
    + inversion H; subst. simpl. destruct sep; [congruence|reflexivity].
    + destruct (partition sep s) as [[a' b']|] eqn:E'; [|discriminate].
      inversion H; subst. simpl.
      rewrite (IH a' b Hsep eq_refl).
      destruct (strip_prefix sep (String c a')) as [r|] eqn:Ep; [|reflexivity].
      exfalso. apply strip_prefix_some in Ep.
      apply partition_some in E'.
      assert (Hs : String c s = sep ++ (r ++ sep ++ b)).
      { rewrite E'. change (String c (a' ++ sep ++ b))
          with (String c a' ++ sep ++ b).
        rewrite Ep. apply append_assoc3. }
      apply strip_prefix_some in Hs. congruence.
Qed.

Lemma before_idempotent : forall sep s,
  sep <> "" -> before sep (before sep s) = before sep s.
Proof.
  intros sep s Hsep. unfold before at 2 3.
  destruct (partition sep s) as [[a b]|] eqn:E.
  - unfold before. now rewrite (partition_first _ _ _ _ Hsep E).
  - unfold before. now rewrite E.
Qed.

Lemma lstrip_by_length : forall f s,
  String.length (lstrip_by f s) <= String.length s.
Proof.
  intros f s; induction s as [|c s IH]; simpl; [lia|].
  destruct (f c); simpl; lia.
Qed.

Lemma rstrip_by_length : forall f s,
  String.length (rstrip_by f s) <= String.length s.
Proof.
  intros f s; induction s as [|c s IH]; simpl; [lia|].
  destruct (rstrip_by f s); [destruct (f c)|]; simpl in *; lia.
Qed.

Lemma strip_length : forall s, String.length (strip s) <= String.length s.
Proof.
  intros s. unfold strip, strip_by.
  pose proof (rstrip_by_length is_space (lstrip_by is_space s)).
  pose proof (lstrip_by_length is_space s). lia.
Qed.

Lemma strip_before_differs : forall sep pre rest s,
  sep <> "" -> partition sep s = Some (pre, rest) ->
  String.eqb (strip pre) s = false.
Proof.
  intros sep pre rest s Hsep E. apply String.eqb_neq. intros Heq.
  apply partition_length in E. pose proof (strip_length pre) as Hl.
  rewrite Heq in Hl. destruct sep; [congruence|]. simpl in E. lia.
Qed.

Lemma contains_fence_of_python_fence : forall s,
  contains fence s = false -> contains python_fence s = false.
Proof.
  intros s H. apply contains_false_iff. intros a b Heq.
  rewrite contains_false_iff in H. apply (H a ("python" ++ b)).
  rewrite Heq. reflexivity.
Qed.

Lemma fence_nonempty : fence <> "" /\ python_fence <> "".
Proof. split; discriminate. Qed.

Lemma finish_with_message : forall (resp code pre rest sep : string),
  sep <> "" -> partition sep resp = Some (pre, rest) ->
  (if negb (truthy (strip pre)) || String.eqb (strip pre) resp
   then Returns (code, FALLBACK_MESSAGE)
   else Returns (code, strip pre))
  = Returns (code, message_or_fallback (strip pre)).
Proof.
  intros resp code pre rest sep Hsep E.
  rewrite (strip_before_differs sep pre rest resp Hsep E).
  unfold message_or_fallback. now destruct (truthy (strip pre)).
Qed.

(** The response has a [```python] fence. *)
Lemma split_response_python : forall resp pre rest,
  partition python_fence resp = Some (pre, rest) ->
  split_response resp
  = Returns (strip (before fence (before python_fence rest)),
             message_or_fallback (strip pre)).
Proof.
  intros resp pre rest E. destruct fence_nonempty as [Hf Hpf].
  unfold split_response, contains. rewrite E.
  unfold item. rewrite (split_second _ _ _ _ Hpf E). cbn [bind].
  rewrite (split_first fence _ Hf). cbn [bind].
  rewrite (split_first python_fence _ Hpf). cbn [bind].
  rewrite (before_found _ _ _ _ E).
  now apply finish_with_message with (rest := rest) (sep := python_fence).
Qed.

(** The response has a fence, and no [```python] fence. *)
Lemma split_response_plain : forall resp pre rest,
  contains python_fence resp = false ->
  partition fence resp = Some (pre, rest) ->
  split_response resp
  = Returns (strip (before fence rest), message_or_fallback (strip pre)).
Proof.
  intros resp pre rest Hno E. destruct fence_nonempty as [Hf Hpf].
  unfold split_response. rewrite Hno.
  unfold contains. rewrite E.
  unfold item. rewrite (split_second _ _ _ _ Hf E). cbn [bind].
  rewrite (split_first fence _ Hf). cbn [bind].
  rewrite (split_first fence _ Hf). cbn [bind].
  rewrite (before_idempotent _ _ Hf).
  rewrite (before_found _ _ _ _ E).
  now apply finish_with_message with (rest := rest) (sep := fence).
Qed.

(** The response has no fence. *)
Lemma split_response_unfenced : forall resp,
  contains fence resp = false ->
  split_response resp = Returns (resp, FALLBACK_MESSAGE).
Proof.
  intros resp Hno. unfold split_response.
  rewrite (contains_fence_of_python_fence _ Hno), Hno. cbn [bind].
  now rewrite String.eqb_refl, orb_true_r.
Qed.

(** The extraction never raises. *)
Lemma split_response_returns : forall resp,
  exists code message, split_response resp = Returns (code, message).
Proof.
  intros resp.
  destruct (partition python_fence resp) as [[pre rest]|] eqn:E.
  - eexists _, _. now apply split_response_python with (pre := pre) (rest := rest).
  - assert (Hno : contains python_fence resp = false)
      by (unfold contains; now rewrite E).
    destruct (partition fence resp) as [[pre rest]|] eqn:E'.
    + eexists _, _.
      now apply split_response_plain with (pre := pre) (rest := rest).
    + eexists _, _. apply split_response_unfenced.
      unfold contains. now rewrite E'.
Qed.

(** C8, as the code has it.  The gateway cuts the response at its first
    [```python] fence, and at its first [```] fence when it has no
    [```python] fence: the text before the cut, stripped, is the message,
    replaced by the fixed message when it is empty, and the text after the
    cut up to the next fence, stripped, is the code.  A response without a
    fence is the code as it is, with the fixed message.  No response makes
    the extraction raise. *)
Theorem response_split_at_preferred_fence :
  forall resp : string,
    (forall pre rest,
       partition python_fence resp = Some (pre, rest) ->
       split_response resp
       = Returns (strip (before fence (before python_fence rest)),
                  message_or_fallback (strip pre)))
    /\ (forall pre rest,
          contains python_fence resp = false ->
          partition fence resp = Some (pre, rest) ->
          split_response resp
          = Returns (strip (before fence rest), message_or_fallback (strip pre)))
    /\ (contains fence resp = false ->
        split_response resp = Returns (resp, FALLBACK_MESSAGE))
    /\ (exists code message, split_response resp = Returns (code, message))
    /\ split_response example_response
       = Returns ("def rendermind_action(context):" ++ nl ++ "    pass", "Sure!").
Proof.
  intros resp.
  split; [intros pre rest E; now apply split_response_python|].
  split; [intros pre rest Hno E; now apply split_response_plain|].
  split; [apply split_response_unfenced|].
  split; [apply split_response_returns|].
  reflexivity.
Qed.

Lemma response_split_at_preferred_fence_witness :
  split_response two_block_response
  = Returns ("x = 1",
             "Install:" ++ nl ++ "```" ++ nl ++ "pip install numpy" ++ nl
             ++ "```" ++ nl ++ "Then:")
  /\ split_response ("Here:" ++ nl ++ "```" ++ nl ++ "y = 2" ++ nl ++ "```")
     = Returns ("y = 2", "Here:")
  /\ split_response "no code here" = Returns ("no code here", FALLBACK_MESSAGE).
Proof.
  split; [|split].
  - apply (proj1 (response_split_at_preferred_fence two_block_response)
             ("Install:" ++ nl ++ "```" ++ nl ++ "pip install numpy" ++ nl
              ++ "```" ++ nl ++ "Then:" ++ nl)
             (nl ++ "x = 1" ++ nl ++ "```")).
    reflexivity.
  - apply (proj1 (proj2 (response_split_at_preferred_fence
                           ("Here:" ++ nl ++ "```" ++ nl ++ "y = 2" ++ nl ++ "```")))
             ("Here:" ++ nl) (nl ++ "y = 2" ++ nl ++ "```"));
      reflexivity.
  - apply (proj1 (proj2 (proj2 (response_split_at_preferred_fence
                                  "no code here")))).
    reflexivity.
Defined.

(** C8, as stated, fails.  In [two_block_response] the first fenced block
    holds [pip install numpy] and the text before it is [Install:], yet the
    code returned is that of the later [```python] block and the message
    runs over the first block.  And for a response that opens with its
    fence the message is not the empty text before the fence but the fixed
    one. *)
Lemma first_fence_not_always_the_cut :
  partition fence two_block_response
  = Some ("Install:" ++ nl,
          nl ++ "pip install numpy" ++ nl ++ "```" ++ nl ++ "Then:" ++ nl
          ++ "```python" ++ nl ++ "x = 1" ++ nl ++ "```")
  /\ split_response two_block_response
     <> Returns ("pip install numpy", "Install:")
  /\ split_response two_block_response
     = Returns ("x = 1",
                "Install:" ++ nl ++ "```" ++ nl ++ "pip install numpy" ++ nl
                ++ "```" ++ nl ++ "Then:")
  /\ partition fence ("```python" ++ nl ++ "x = 1" ++ nl ++ "```")
     = Some ("", "python" ++ nl ++ "x = 1" ++ nl ++ "```")
  /\ split_response ("```python" ++ nl ++ "x = 1" ++ nl ++ "```")
     = Returns ("x = 1", FALLBACK_MESSAGE)
  /\ FALLBACK_MESSAGE <> "".
Proof.
  repeat split; try discriminate.
Qed.

End ResponseSplitting.

(** ** Reasoning about operators *)

Section OperatorRules.
Import PyStr BlenderUtils Operators.

Lemma post_ret : forall A (a : A) st Q,
  Q st (Returns a) -> post (ret a) st Q.
Proof. intros; assumption. Qed.

Lemma post_bind : forall A B (m : M A) (k : A -> M B) st Q,
  post m st (fun st' r =>
    match r with
    | Returns a => post (k a) st' Q
    | Raises e => Q st' (Raises e)
    end) ->
  post (mbind m k) st Q.
Proof.
  intros A B m k st Q. unfold post, mbind.
  destruct (m st) as [st' [a|e]]; simpl; intros H; exact H.
Qed.

Lemma post_try_except : forall A (m : M A) (h : exn -> M A) st Q,
  post m st (fun st' r =>
    match r with
    | Returns a => Q st' (Returns a)
    | Raises e => if is_Exception e then post (h e) st' Q
                  else Q st' (Raises e)
    end) ->
  post (try_except m h) st Q.
Proof.
  intros A m h st Q. unfold post, try_except.
  destruct (m st) as [st' [a|e]]; simpl; [intros H; exact H|].
  destruct (is_Exception e); intros H; exact H.
Qed.

Lemma post_try_finally : forall A (m : M A) (f : M unit) st Q,
  post m st (fun st' r =>
    post f st' (fun st'' r' =>
      match r' with
      | Returns _ => Q st'' r
      | Raises e => Q st'' (Raises e)
      end)) ->
  post (try_finally m f) st Q.
Proof.
  intros A m f st Q. unfold post, try_finally.
  destruct (m st) as [st' r]; simpl.
  destruct (f st') as [st'' [u|e]]; simpl; intros H; exact H.
Qed.

Lemma post_get : forall st Q, Q st (Returns st) -> post get st Q.
Proof. intros; assumption. Qed.

Lemma post_lift : forall A (o : outcome A) st Q, Q st o -> post (lift o) st Q.
Proof. intros; assumption. Qed.

Lemma post_modify_props : forall f st Q,
  Q (mkState (f (props st)) (bpy st) (reports st)) (Returns tt) ->
  post (modify_props f) st Q.
Proof. intros; assumption. Qed.

Lemma post_report : forall level text st Q,
  Q (mkState (props st) (bpy st) (reports st ++ [(level, text)])%list)
    (Returns tt) ->
  post (report level text) st Q.
Proof. intros; assumption. Qed.

Lemma post_on_session : forall A (f : session -> session * outcome A) st Q,
  Q (mkState (props st) (fst (f (bpy st))) (reports st)) (snd (f (bpy st))) ->
  post (on_session f) st Q.
Proof.
  intros A f st Q. unfold post, on_session.
  destruct (f (bpy st)) as [b r]; simpl. intros H; exact H.
Qed.

Lemma post_add_message : forall msg st Q,
  Q (mkState (set_messages (chat_messages (props st) ++ [msg])%list (props st))
             (bpy st) (reports st))
    (Returns (List.length (chat_messages (props st)))) ->
  post (add_message msg) st Q.
Proof. intros; assumption. Qed.

Lemma post_update_message : forall i f st Q,
  Q (mkState (set_messages (update_nth i f (chat_messages (props st)))
                           (props st))
             (bpy st) (reports st))
    (Returns tt) ->
  post (update_message i f) st Q.
Proof. intros; assumption. Qed.

Lemma post_weaken : forall A (m : M A) st (Q Q' : state -> outcome A -> Prop),
  post m st Q -> (forall st' r, Q st' r -> Q' st' r) -> post m st Q'.
Proof. intros A m st Q Q' H HQ. apply HQ, H. Qed.

(** ** Operators that leave the scenes alone *)

Lemma keeps_ret : forall A (a : A), keeps_scenes (ret a).
Proof. intros A a st. reflexivity. Qed.

Lemma keeps_bind : forall A B (m : M A) (k : A -> M B),
  keeps_scenes m -> (forall a, keeps_scenes (k a)) -> keeps_scenes (mbind m k).
Proof.
  intros A B m k Hm Hk st. unfold mbind. specialize (Hm st).
  destruct (m st) as [st' [a|e]]; simpl in *; [|exact Hm].
  now rewrite (Hk a st').
Qed.

Lemma keeps_try_except : forall A (m : M A) (h : exn -> M A),
  keeps_scenes m -> (forall e, keeps_scenes (h e)) ->
  keeps_scenes (try_except m h).
Proof.
  intros A m h Hm Hh st. unfold try_except. specialize (Hm st).
  destruct (m st) as [st' [a|e]]; simpl in *; [exact Hm|].
  destruct (is_Exception e); simpl; [|exact Hm].
  now rewrite (Hh e st').
Qed.

Lemma keeps_lift : forall A (o : outcome A), keeps_scenes (lift o).
Proof. intros A o st. reflexivity. Qed.

Lemma keeps_modify_props : forall f, keeps_scenes (modify_props f).
Proof. intros f st. reflexivity. Qed.

Lemma keeps_report : forall level text, keeps_scenes (report level text).
Proof. intros level text st. reflexivity. Qed.

Lemma keeps_on_session : forall A (f : session -> session * outcome A),
  (forall b, scenes (fst (f b)) = scenes b) -> keeps_scenes (on_session f).
Proof.
  intros A f Hf st. unfold on_session. specialize (Hf (bpy st)).
  destruct (f (bpy st)) as [b r]; simpl in *. exact Hf.
Qed.

Lemma set_window_scene_scenes : forall h b,
  scenes (fst (set_window_scene h b)) = scenes b.
Proof. intros h b. unfold set_window_scene. now destruct (window_scene b). Qed.

Lemma filter_fresh : forall (l : list (nat * string)) h,
  Forall (fun sc => fst sc < h) l ->
  filter (fun sc => negb (fst sc =? h)) l = l.
Proof.
  intros l h H; induction H as [|sc l Hsc Hl IH]; simpl; [reflexivity|].
  destruct (Nat.eqb_spec (fst sc) h); [lia|]. simpl. now rewrite IH.
Qed.

(** Removing the scene that was created last gives the scenes back as they
    were, when there was one already. *)
Lemma scenes_remove_last : forall l h name next shown,
  l <> [] -> Forall (fun sc => fst sc < h) l ->
  scenes (fst (scenes_remove h (mkSession (l ++ [(h, name)])%list next shown)))
  = l.
Proof.
  intros l h name next shown Hne Hfresh. unfold scenes_remove, has_scene.
  cbn [scenes]. rewrite existsb_app. cbn [existsb fst].
  rewrite Nat.eqb_refl. cbn [orb]. rewrite orb_true_r. cbn [negb].
  rewrite filter_app, (filter_fresh l h Hfresh). cbn [filter fst].
  rewrite Nat.eqb_refl. cbn [negb]. rewrite app_nil_r.
  destruct l as [|other rest]; [congruence|]. reflexivity.
Qed.

End OperatorRules.

(** One step of an operator: the rule for the construct at its head. *)
Ltac step :=
  lazymatch goal with
  | |- post (Operators.mbind _ _) _ _ => apply post_bind
  | |- post (Operators.try_except _ _) _ _ => apply post_try_except
  | |- post Operators.get _ _ => apply post_get
  | |- post (Operators.lift _) _ _ => apply post_lift
  | |- post (Operators.add_message _) _ _ => apply post_add_message
  | |- post (Operators.update_message _ _) _ _ => apply post_update_message
  | |- post (Operators.modify_props _) _ _ => apply post_modify_props
  | |- post (Operators.report _ _) _ _ => apply post_report
  | |- post (Operators.on_session _) _ _ => apply post_on_session
  | |- post (Operators.ret _) _ _ => apply post_ret
  end;
  cbn beta iota;
  cbn [Operators.props Operators.bpy Operators.reports fst snd
       BlenderUtils.chat_messages Operators.set_messages
       BlenderUtils.chat_input BlenderUtils.is_thinking
       BlenderUtils.auto_execute BlenderUtils.provider
       BlenderUtils.plan_text BlenderUtils.variants
       Operators.set_chat_input Operators.set_is_thinking].

(** ** The temporary scene of a preview *)

Section PreviewTeardown.
Import PyStr BlenderUtils Operators.

Variable py_exec_globals : string -> session -> session * outcome unit.
Variable float_text : string -> option string.
Variable tmpdir : string.
Variable render : nat -> string -> session -> session * outcome unit.
Variable show_preview : string -> session -> session * outcome unit.

(** Neither the script nor the render creates or removes scenes. *)
Hypothesis exec_keeps_scenes :
  forall src b, scenes (fst (py_exec_globals src b)) = scenes b.
Hypothesis render_keeps_scenes :
  forall h file b, scenes (fst (render h file b)) = scenes b.

(** The preview of a variant in [RM_OT_Generate] removes its scene on every
    path, thanks to its [finally]: the scenes are afterwards what they were
    before, whether or not the script or the render raised. *)
Lemma preview_variant_removes_its_scene : forall i pv st,
  scenes (bpy st) <> [] ->
  Forall (fun sc => fst sc < next_handle (bpy st)) (scenes (bpy st)) ->
  scenes (bpy (fst (preview_variant py_exec_globals float_text tmpdir render
                      i pv st)))
  = scenes (bpy st).
Proof.
  intros i pv st Hne Hfresh.
  change (post (preview_variant py_exec_globals float_text tmpdir render i pv)
               st (fun st' _ => scenes (bpy st') = scenes (bpy st))).
  unfold preview_variant.
  apply post_bind, post_on_session. cbn [scenes_new fst snd].
  apply post_try_finally.
  match goal with
  | |- post ?body ?st1 _ =>
      apply post_weaken
        with (Q := fun st' _ => scenes (bpy st') = scenes (bpy st1))
  end.
  { unfold post.
    match goal with |- scenes (bpy (fst (?body ?st1))) = _ =>
      enough (Hbody : keeps_scenes body) by apply Hbody
    end.
    apply keeps_try_except.
    - apply keeps_bind; [apply keeps_on_session, set_window_scene_scenes|].
      intros _. apply keeps_bind; [apply keeps_lift|]. intros script.
      apply keeps_bind; [apply keeps_lift|]. intros _.
      apply keeps_bind; [now apply keeps_on_session|]. intros _.
      apply keeps_bind; [now apply keeps_on_session|]. intros _.
      apply keeps_modify_props.
    - intros e. apply keeps_modify_props. }
  intros [p2 [sc2 next2 shown2] r2] r Hs. cbn [bpy scenes] in Hs. subst sc2.
  apply post_try_except, post_on_session. cbn [bpy props reports].
  pose proof (scenes_remove_last (scenes (bpy st))
                (next_handle (bpy st)) ("rm_preview_tmp_" ++ decimal i)
                next2 shown2 Hne Hfresh) as Hrm.
  destruct (scenes_remove _ _) as [b3 [u|e]]; cbn [fst snd] in *.
  - exact Hrm.
  - destruct (is_Exception e); [apply post_ret|]; exact Hrm.
Qed.

(** [RM_OT_Preview] has no [finally]: when the render raises, the handler
    reports the error and the scene created for the preview stays. *)
Lemma preview_keeps_scene_when_render_raises : forall st b1 b2 e script,
  window_scene (bpy st) <> None ->
  PlanEmitter.emitter_plan_to_script float_text (plan_text (props st))
  = Returns script ->
  validate_script script = Returns tt ->
  py_exec_globals script
    (mkSession (scenes (bpy st) ++ [(next_handle (bpy st), "rm_preview_exec")])%list
               (S (next_handle (bpy st))) (Some (next_handle (bpy st))))
  = (b1, Returns tt) ->
  render (next_handle (bpy st))
         (temp_thumbnail_path tmpdir "rm_preview_exec.png") b1
  = (b2, Raises e) ->
  is_Exception e = true ->
  RM_OT_Preview_execute py_exec_globals float_text tmpdir render show_preview st
  = (mkState (props st) b2
             (reports st ++ [(REPORT_ERROR, str_exn e)])%list,
     Returns FINISHED)
  /\ scenes b2
     = (scenes (bpy st) ++ [(next_handle (bpy st), "rm_preview_exec")])%list.
Proof.
  intros st b1 b2 e script Hwin Hemit Hval Hexec Hrender Hexc.
  split.
  - unfold RM_OT_Preview_execute, mbind, try_except, get, on_session, lift,
      report, ret.
    cbn [scenes_new fst snd bpy props reports].
    unfold set_window_scene. cbn [window_scene scenes next_handle].
    destruct (window_scene (bpy st)) as [k|]; [|congruence].
    cbn [bpy props reports]. rewrite Hemit, Hval, Hexec.
    cbn [bpy props reports]. rewrite Hrender. now rewrite Hexc.
  - pose proof (render_keeps_scenes (next_handle (bpy st))
                  (temp_thumbnail_path tmpdir "rm_preview_exec.png") b1) as H2.
    rewrite Hrender in H2. cbn [fst] in H2. rewrite H2.
    pose proof (exec_keeps_scenes script
      (mkSession (scenes (bpy st) ++ [(next_handle (bpy st), "rm_preview_exec")])%list
                 (S (next_handle (bpy st))) (Some (next_handle (bpy st))))) as H1.
    rewrite Hexec in H1. exact H1.
Qed.

End PreviewTeardown.

(** C4 fails for [RM_OT_Preview].  The plan is a sphere and the render
    raises: the operator returns [FINISHED] with the error reported, and
    the scene [rm_preview_exec] it created is still among the scenes, and
    shown in the window.  The preview of a variant, on the same plan and
    with the same failure, leaves the user's scene only. *)
Theorem preview_scene_left_behind_on_failure :
  Operators.RM_OT_Preview_execute exec_quietly float_text_sample "/tmp"
    render_without_camera exec_quietly (preview_state "sphere")
  = (Operators.mkState
       (BlenderUtils.mkProps [] "" false true ModelInterface.OPENAI "sphere" [])
       (Operators.mkSession [(0, "Scene"); (1, "rm_preview_exec")] 2 (Some 1))
       [(Operators.REPORT_ERROR, "Error: Cannot render, no camera")],
     Returns Operators.FINISHED)
  /\ Operators.bpy
       (fst (Operators.preview_variant exec_quietly float_text_sample "/tmp"
               render_without_camera 0 "sphere" (preview_state "sphere")))
     = Operators.mkSession [(0, "Scene")] 2 (Some 0).
Proof. split; reflexivity. Qed.

(** ** Errors raised by a script *)

Section ExecutionBoundary.
Import PyStr BlenderUtils Operators.

Variable now : string.
Variable assets : option (list ModelLibrary.walk_entry).
Variable generate_import_code : ModelLibrary.asset_record -> string -> string.
Variable backend : string -> outcome (option string * option string).
Variable py_exec :
  string -> session -> session * outcome (option (entry_point session)).
Variable py_exec_globals : string -> session -> session * outcome unit.

Lemma update_nth_compose : forall A (f g : A -> A) i l,
  update_nth i g (update_nth i f l) = update_nth i (fun x => g (f x)) l.
Proof.
  intros A f g i l; revert i; induction l as [|x l IH]; intros [|i]; simpl;
    try reflexivity. now rewrite IH.
Qed.

Lemma update_nth_last : forall A (f : A -> A) l x,
  update_nth (List.length l) f (l ++ [x]) = (l ++ [f x])%list.
Proof.
  intros A f l x; induction l as [|y l IH]; simpl; [reflexivity|].
  now rewrite IH.
Qed.

Lemma collection_index_in_range : forall i len,
  i < len -> collection_index (Z.of_nat i) len = Returns i.
Proof.
  intros i len H. unfold collection_index.
  destruct (Z.leb_spec 0 (Z.of_nat i)); [|lia].
  rewrite Nat2Z.id. destruct (Nat.ltb_spec i len); [reflexivity|lia].
Qed.

(** [RM_OT_RunMessageCode] on a script that is refused or that raises. *)
Lemma run_message_code_catches : forall st i msg e b',
  nth_error (chat_messages (props st)) i = Some msg ->
  truthy (code msg) = true ->
  is_Exception e = true ->
  (validate_script (code msg) = Raises e /\ b' = bpy st
   \/ validate_script (code msg) = Returns tt
      /\ py_exec_globals (code msg) (bpy st) = (b', Raises e)) ->
  RM_OT_RunMessageCode_execute py_exec_globals (Z.of_nat i) st
  = (mkState
       (set_messages (update_nth i (mark_error e) (chat_messages (props st)))
                     (props st))
       b'
       (reports st
        ++ [(REPORT_ERROR, ("Execution failed: " ++ str_exn e)%string)])%list,
     Returns CANCELLED).
Proof.
  intros st i msg e b' Hnth Hcode Hexc Hfail.
  assert (Hlt : i < List.length (chat_messages (props st)))
    by (apply nth_error_Some; congruence).
  match goal with
  | |- ?m st = (?s, ?r) =>
      enough (H : post m st (fun st' r' => st' = s /\ r' = r))
  end.
  { unfold post in H. destruct H as [H1 H2].
    destruct (RM_OT_RunMessageCode_execute _ _ _) as [st' r']. cbn in *.
    now subst. }
  unfold RM_OT_RunMessageCode_execute. repeat step.
  destruct (Z.leb_spec (Z.of_nat (List.length (chat_messages (props st))))
                       (Z.of_nat i)); [lia|].
  repeat step. rewrite (collection_index_in_range _ _ Hlt).
  repeat step. unfold item. rewrite Hnth. rewrite Hcode. cbn [negb].
  repeat step.
  destruct Hfail as [[Hv ->]|[Hv Hx]].
  - rewrite Hv, Hexc. repeat step.
    rewrite update_nth_compose. split; reflexivity.
  - rewrite Hv. repeat step. rewrite Hx. cbn [fst snd]. rewrite Hexc.
    repeat step.
    rewrite update_nth_compose. split; reflexivity.
Qed.

Abbreviation generate :=
  (ModelInterface.generate_blender_code assets generate_import_code).
Abbreviation send_message :=
  (RM_OT_SendMessage_execute now assets generate_import_code backend py_exec).
Abbreviation run_message_code := (RM_OT_RunMessageCode_execute py_exec_globals).

(** [RM_OT_SendMessage] with auto-execute on a script that is refused or
    that raises: the user's turn and the reply are appended, the reply
    marked as failed. *)
Lemma send_message_catches : forall st src text e b',
  truthy (strip (chat_input (props st))) = true ->
  auto_execute (props st) = true ->
  generate (provider (props st)) backend (strip (chat_input (props st)))
  = Returns (Some src, Some text, None) ->
  exec_script_in_current_scene session py_exec src (bpy st) = (b', Raises e) ->
  is_Exception e = true ->
  send_message st
  = (mkState
       (mkProps
          (chat_messages (props st)
           ++ [ mkMsg USER (strip (chat_input (props st))) "" now NONE "" false;
                mkMsg AI text src now ERROR (str_exn e) false ])%list
          "" false true (provider (props st)) (plan_text (props st))
          (variants (props st)))
       b'
       (reports st
        ++ [(WARNING, ("Execution failed: " ++ str_exn e)%string)])%list,
     Returns FINISHED).
Proof.
  intros st src text e b' Hinput Hauto Hgen Hexec Hexc.
  match goal with
  | |- ?m st = (?s, ?r) =>
      enough (H : post m st (fun st' r' => st' = s /\ r' = r))
  end.
  { unfold post in H. destruct H as [H1 H2].
    destruct (RM_OT_SendMessage_execute _ _ _ _ _ _) as [st' r']. cbn in *.
    now subst. }
  unfold RM_OT_SendMessage_execute. repeat step.
  rewrite Hinput. cbn [negb]. repeat step.
  rewrite Hgen. cbn [ModelInterface.truthy_opt]. repeat step.
  unfold as_str. repeat step. rewrite Hauto. repeat step.
  rewrite Hexec. cbn [fst snd]. rewrite Hexc. repeat step.
  rewrite !update_nth_compose.
  rewrite <- app_assoc. cbn [app].
  replace (S (List.length (chat_messages (props st))))
    with (List.length (chat_messages (props st)
                       ++ [mkMsg USER (strip (chat_input (props st))) "" now
                                 NONE "" false])%list)
    by (rewrite length_app; simpl; lia).
  change (chat_messages (props st)
          ++ [mkMsg USER (strip (chat_input (props st))) "" now NONE "" false;
              mkMsg AI "" "" "" NONE "" false])%list
    with (chat_messages (props st)
          ++ [mkMsg USER (strip (chat_input (props st))) "" now NONE "" false]
             ++ [mkMsg AI "" "" "" NONE "" false])%list.
  rewrite app_assoc, update_nth_last, <- app_assoc.
  cbv [set_is_thinking set_messages set_chat_input].
  cbn [chat_messages chat_input is_thinking auto_execute provider plan_text
       variants app].
  rewrite Hauto. split; reflexivity.
Qed.

(** ** Nothing but what is not an [Exception] leaves an operator *)

Lemma returns_raises : forall A (m : M A),
  returns_normally m -> raises_only_Exceptions m.
Proof.
  intros A m H st e He. destruct (H st) as [a Ha]. congruence.
Qed.

Lemma returns_ret : forall A (a : A), returns_normally (ret a).
Proof. intros A a st. now exists a. Qed.

Lemma returns_bind : forall A B (m : M A) (k : A -> M B),
  returns_normally m -> (forall a, returns_normally (k a)) ->
  returns_normally (mbind m k).
Proof.
  intros A B m k Hm Hk st. unfold mbind. destruct (Hm st) as [a Ha].
  destruct (m st) as [st' r]. cbn in Ha. subst r. apply Hk.
Qed.

Lemma returns_try_except : forall A (m : M A) (h : exn -> M A),
  raises_only_Exceptions m -> (forall e, returns_normally (h e)) ->
  returns_normally (try_except m h).
Proof.
  intros A m h Hm Hh st. unfold try_except. specialize (Hm st).
  destruct (m st) as [st' [a|e]]; cbn in *.
  - now exists a.
  - rewrite (Hm e eq_refl). apply Hh.
Qed.

Lemma raises_bind : forall A B (m : M A) (k : A -> M B),
  raises_only_Exceptions m -> (forall a, raises_only_Exceptions (k a)) ->
  raises_only_Exceptions (mbind m k).
Proof.
  intros A B m k Hm Hk st e. unfold mbind. specialize (Hm st).
  destruct (m st) as [st' [a|e']]; cbn in *.
  - apply Hk.
  - intros H. inversion H; subst. now apply Hm.
Qed.

Lemma raises_lift : forall A (o : outcome A),
  (forall e, o = Raises e -> is_Exception e = true) ->
  raises_only_Exceptions (lift o).
Proof. intros A o H st e He. now apply H. Qed.

Lemma raises_on_session : forall A (f : session -> session * outcome A),
  (forall b e, snd (f b) = Raises e -> is_Exception e = true) ->
  raises_only_Exceptions (on_session f).
Proof.
  intros A f H st e. unfold on_session. specialize (H (bpy st)).
  destruct (f (bpy st)) as [b r]; cbn in *. apply H.
Qed.

Lemma returns_get : returns_normally get.
Proof. intros st. now exists st. Qed.

Lemma returns_modify_props : forall f, returns_normally (modify_props f).
Proof. intros f st. now exists tt. Qed.

Lemma returns_report : forall level text, returns_normally (report level text).
Proof. intros level text st. now exists tt. Qed.

Lemma returns_add_message : forall msg, returns_normally (add_message msg).
Proof. intros msg st. eexists. reflexivity. Qed.

Lemma returns_update_message : forall i f,
  returns_normally (update_message i f).
Proof. intros i f st. now exists tt. Qed.

Lemma raises_as_str : forall o, raises_only_Exceptions (as_str o).
Proof.
  intros [s|] st e H; cbn in H; [discriminate|]. now inversion H.
Qed.

Lemma generate_raises_Exception : forall prov prompt e,
  (forall p e', backend p = Raises e' -> is_Exception e' = true) ->
  generate prov backend prompt = Raises e -> is_Exception e = true.
Proof.
  intros prov prompt e Hb. unfold ModelInterface.generate_blender_code.
  destruct (match ModelLibrary.search_models assets prompt with
            | [] => None
            | best :: _ =>
                if 60 <=? ModelLibrary.a_score best then Some best else None
            end); [discriminate|].
  destruct prov; [|discriminate].
  destruct (backend prompt) as [[full error]|e'] eqn:E; cbn [bind].
  - destruct (ModelInterface.truthy_opt error); [discriminate|].
    destruct full as [text|]; [|intros H; now inversion H].
    destruct (split_response_returns text) as (c & m & ->). discriminate.
  - intros H. inversion H; subst. now apply (Hb prompt).
Qed.

Ltac bounded :=
  repeat lazymatch goal with
  | |- raises_only_Exceptions (mbind _ _) => apply raises_bind; [|intros ?]
  | |- raises_only_Exceptions (try_except _ _) =>
      apply returns_raises, returns_try_except; [|intros ?]
  | |- raises_only_Exceptions (as_str _) => apply raises_as_str
  | |- raises_only_Exceptions (lift _) => apply raises_lift
  | |- raises_only_Exceptions (on_session _) => apply raises_on_session
  | |- raises_only_Exceptions (match ?r with _ => _ end) => destruct r
  | |- raises_only_Exceptions _ => apply returns_raises
  | |- returns_normally (mbind _ _) => apply returns_bind; [|intros ?]
  | |- returns_normally (try_except _ _) =>
      apply returns_try_except; [|intros ?]
  | |- returns_normally (ret _) => apply returns_ret
  | |- returns_normally get => apply returns_get
  | |- returns_normally (modify_props _) => apply returns_modify_props
  | |- returns_normally (report _ _) => apply returns_report
  | |- returns_normally (add_message _) => apply returns_add_message
  | |- returns_normally (update_message _ _) => apply returns_update_message
  | |- returns_normally (match ?r with _ => _ end) => destruct r
  end.

(** Scripts and the backend raise [Exception]s only. *)
Hypothesis backend_raises_Exceptions :
  forall prompt e, backend prompt = Raises e -> is_Exception e = true.
Hypothesis exec_raises_Exceptions :
  forall src b e,
    snd (exec_script_in_current_scene session py_exec src b) = Raises e ->
    is_Exception e = true.
Hypothesis exec_globals_raises_Exceptions :
  forall src b e,
    snd (py_exec_globals src b) = Raises e -> is_Exception e = true.

Lemma send_message_returns : returns_normally send_message.
Proof.
  unfold RM_OT_SendMessage_execute. bounded.
  - intros e. apply generate_raises_Exception, backend_raises_Exceptions.
  - apply exec_raises_Exceptions.
Qed.

Lemma run_message_code_returns : forall message_index st,
  (- Z.of_nat (List.length (chat_messages (props st))) <= message_index)%Z ->
  exists r, snd (run_message_code message_index st) = Returns r.
Proof.
  intros message_index st Hlow.
  match goal with
  | |- exists r, snd (?m st) = Returns r =>
      enough (H : post m st (fun _ r' => exists r, r' = Returns r)) by exact H
  end.
  unfold RM_OT_RunMessageCode_execute. repeat step.
  destruct (Z.leb_spec (Z.of_nat (List.length (chat_messages (props st))))
                       message_index) as [Hhigh|Hhigh].
  { repeat step. now exists CANCELLED. }
  repeat step.
  assert (Hidx : exists i, collection_index message_index
                             (List.length (chat_messages (props st)))
                           = Returns i
                           /\ i < List.length (chat_messages (props st))).
  { unfold collection_index. destruct (Z.leb_spec 0 message_index).
    - destruct (Nat.ltb_spec (Z.to_nat message_index)
                  (List.length (chat_messages (props st)))); [|lia].
      eexists. split; [reflexivity|assumption].
    - destruct (Z.leb_spec 0
                  (message_index
                   + Z.of_nat (List.length (chat_messages (props st)))));
        [|lia].
      eexists. split; [reflexivity|lia]. }
  destruct Hidx as (i & -> & Hi). repeat step. unfold item.
  destruct (nth_error (chat_messages (props st)) i) as [msg|] eqn:Hnth;
    [|apply nth_error_None in Hnth; lia].
  destruct (negb (truthy (code msg))).
  { repeat step. now exists CANCELLED. }
  match goal with
  | |- post ?m ?s _ =>
      assert (Hret : returns_normally m);
      [| destruct (Hret s) as [r Hr]; unfold post; now exists r ]
  end.
  bounded.
  - intros e He. destruct (validate_script_raises _ _ He) as [Hc _].
    unfold is_Exception. now rewrite Hc.
  - apply exec_globals_raises_Exceptions.
Qed.

End ExecutionBoundary.

Section RuntimeErrors.
Import PyStr BlenderUtils Operators.


End RuntimeErrors.



(** ** The turns of the conversation *)

Section TurnInvariant.
Import PyStr BlenderUtils Operators.

Variable now : string.
Variable assets : option (list ModelLibrary.walk_entry).
Variable generate_import_code : ModelLibrary.asset_record -> string -> string.
Variable backend : string -> outcome (option string * option string).
Variable py_exec :
  string -> session -> session * outcome (option (entry_point session)).
Variable py_exec_globals : string -> session -> session * outcome unit.

(** The top level of an empty script binds nothing. *)
Hypothesis exec_empty : forall b, snd (py_exec "" b) = Returns None.

Lemma exec_success_nonempty : forall src b b' u,
  exec_script_in_current_scene session py_exec src b = (b', Returns u) ->
  src <> "".
Proof.
  intros src b b' u H ->. unfold exec_script_in_current_scene in H.
  cbn in H. pose proof (exec_empty b) as He.
  destruct (py_exec "" b) as [w1 r]. cbn in He. subst r. discriminate.
Qed.

Lemma truthy_nonempty : forall s, truthy s = true -> s <> "".
Proof. intros [|c s] H; [discriminate|discriminate]. Qed.

Lemma Forall_update_nth : forall A (P : A -> Prop) (f : A -> A) i l,
  Forall P l ->
  (forall x, nth_error l i = Some x -> P x -> P (f x)) ->
  Forall P (update_nth i f l).
Proof.
  intros A P f i l H; revert i; induction H as [|x l Hx Hl IH]; intros i Hf.
  - destruct i; constructor.
  - destruct i as [|i]; cbn.
    + constructor; [now apply Hf|assumption].
    + constructor; [assumption|]. apply IH. intros y Hy. now apply Hf.
Qed.

Ltac turns :=
  unfold turns_ok in *; cbn [props chat_messages];
  rewrite ?update_nth_compose, ?update_nth_last;
  repeat (apply Forall_app; split); try assumption;
  repeat constructor; cbn; try congruence; try discriminate.

Lemma send_message_keeps_turns : forall st,
  turns_ok st ->
  turns_ok (fst (RM_OT_SendMessage_execute now assets generate_import_code
                   backend py_exec st)).
Proof.
  intros st Hok.
  match goal with
  | |- turns_ok (fst (?m st)) =>
      change (post m st (fun st' _ => turns_ok st'))
  end.
  unfold RM_OT_SendMessage_execute. repeat step.
  destruct (negb (truthy (strip (chat_input (props st))))).
  { repeat step. exact Hok. }
  repeat step.
  destruct (ModelInterface.generate_blender_code _ _ _ _ _)
    as [[[gen_code ai_message] error]|e].
  2:{ destruct (is_Exception e); repeat step; turns. }
  destruct (ModelInterface.truthy_opt error).
  { repeat step. unfold as_str. destruct error as [err|]; repeat step; turns. }
  repeat step. unfold as_str.
  destruct ai_message as [text|]; repeat step; [|turns].
  destruct gen_code as [src|]; repeat step; [|turns].
  destruct (auto_execute (props st)); repeat step.
  - destruct (exec_script_in_current_scene session py_exec src _)
      as [b' [u|e]] eqn:E; cbn [fst snd]; repeat step.
    + apply exec_success_nonempty in E. turns.
    + destruct (is_Exception e); repeat step; turns.
  - turns.
Qed.

Lemma run_message_code_keeps_turns : forall message_index st,
  turns_ok st ->
  turns_ok (fst (RM_OT_RunMessageCode_execute py_exec_globals message_index st)).
Proof.
  intros message_index st Hok.
  match goal with
  | |- turns_ok (fst (?m st)) =>
      change (post m st (fun st' _ => turns_ok st'))
  end.
  unfold RM_OT_RunMessageCode_execute. repeat step.
  destruct (Z.leb _ _); repeat step; [exact Hok|].
  destruct (collection_index _ _) as [i|e]; repeat step; [|exact Hok].
  unfold item.
  destruct (nth_error (chat_messages (props st)) i) as [msg|] eqn:Hnth;
    repeat step; [|exact Hok].
  destruct (truthy (code msg)) eqn:Hcode; cbn [negb]; repeat step;
    [|exact Hok].
  apply truthy_nonempty in Hcode.
  assert (Hmark : forall f,
            (forall m, code (f m) = code m /\ role (f m) = role m
                       /\ status (f m) <> NONE) ->
            turns_ok (mkState
                        (set_messages (update_nth i f (chat_messages (props st)))
                                      (props st))
                        (bpy st) (reports st))).
  { intros f Hf. unfold turns_ok in *. cbn [props chat_messages set_messages].
    apply Forall_update_nth; [assumption|].
    intros x Hx [H1 H2]. rewrite Hnth in Hx. inversion Hx; subst x.
    destruct (Hf msg) as (Hc & Hr & Hs). split.
    - intros _. now rewrite Hc.
    - intros Hu. rewrite Hr in Hu. destruct (H2 Hu) as [_ H3]. congruence. }
  assert (Hframe : forall p1 b1 r1 b2 r2,
            turns_ok (mkState p1 b1 r1) -> turns_ok (mkState p1 b2 r2))
    by (intros; assumption).
  destruct (validate_script (code msg)) as [[]|e]; repeat step.
  - destruct (py_exec_globals (code msg) (bpy st)) as [b' [u|e]];
      cbn [fst snd]; repeat step.
    + rewrite update_nth_compose. eapply Hframe, Hmark.
      intros m. cbn. repeat split; discriminate.
    + destruct (is_Exception e); repeat step; [|exact Hok].
      rewrite update_nth_compose. eapply Hframe, Hmark.
      intros m. cbn. repeat split; discriminate.
  - destruct (is_Exception e); repeat step; [|exact Hok].
    rewrite update_nth_compose. eapply Hframe, Hmark.
    intros m. cbn. repeat split; discriminate.
Qed.

End TurnInvariant.

Section TurnInvariantTheorem.
Import PyStr BlenderUtils Operators.


End TurnInvariantTheorem.




(* ================================================================== *)
(** * Further properties *)
(* ================================================================== *)

(** ** More on the asset matcher *)

Section AssetMatcherScores.
Import PyStr ModelLibrary.

Lemma contains_empty : forall s, contains "" s = true.
Proof. intros s. unfold contains. now destruct s. Qed.

(** The rung of 60 asks for what the rung of 80 has already accepted. *)
Lemma score_of_values : forall q words stem,
  In (score_of q words stem) [100; 90; 85; 80; 70; 0].
Proof.
  intros q words stem. unfold score_of.
  destruct (String.eqb q stem || String.eqb q (clean_stem stem));
    [simpl; tauto|].
  destruct (existsb (fun word => String.eqb word (clean_stem stem))
                    (meaningful words)); [simpl; tauto|].
  destruct (existsb (fun word => contains word (clean_stem stem))
                    (meaningful words)); [simpl; tauto|].
  destruct (contains q (clean_stem stem)); [simpl; tauto|].
  destruct (contains q stem); [simpl; tauto|].
  destruct ((2 <=? List.length words)
            && forallb (fun word => contains word stem)
                 (filter (fun word => 2 <? String.length word) words));
    [simpl; tauto|].
  rewrite andb_false_r. simpl; tauto.
Qed.

Lemma visit_file_fields : forall ql qw e file r,
  In r (visit_file ql qw e file) ->
  a_filename r = file
  /\ a_score r = score_of ql qw (lower (path_stem file))
  /\ 0 < a_score r
  /\ a_format r = lower (path_suffix file)
  /\ mem (a_format r) supported_formats = true.
Proof.
  intros ql qw e file r. unfold visit_file.
  destruct (mem (lower (path_suffix file)) supported_formats) eqn:Es;
    cbn [negb]; [|intros []].
  destruct (0 <? score_of ql qw (lower (path_stem file))) eqn:E; [|intros []].
  intros [<-|[]]. cbn. apply Nat.ltb_lt in E. now repeat split.
Qed.

Lemma in_search_in_collect : forall walk query r,
  In r (search_models (Some walk) query) <-> In r (collect walk query).
Proof.
  intros walk query r. unfold search_models. split; intros H.
  - now apply (Permutation_in _ (sort_desc_perm _)).
  - now apply (Permutation_in _ (Permutation_sym (sort_desc_perm _))).
Qed.

Lemma in_collect : forall walk query r,
  In r (collect walk query) ->
  exists e file,
    In e walk /\ In file (w_files e)
    /\ In r (visit_file (strip (lower query))
                        (split_ws (strip (lower query))) e file).
Proof.
  intros walk query r H. unfold collect in H.
  apply in_flat_map in H. destruct H as (e & He & H).
  apply in_flat_map in H. destruct H as (file & Hf & H).
  now exists e, file.
Qed.

Lemma search_scores : forall assets query r,
  In r (search_models assets query) ->
  In (a_score r) [100; 90; 85; 80; 70].
Proof.
  intros [walk|] query r H; [|destruct H].
  apply in_search_in_collect, in_collect in H.
  destruct H as (e & file & _ & _ & H).
  apply visit_file_fields in H. destruct H as (_ & Hs & Hpos & _).
  pose proof (score_of_values (strip (lower query))
                (split_ws (strip (lower query))) (lower (path_stem file))) as Hv.
  rewrite <- Hs in Hv. simpl in Hv |- *.
  intuition lia.
Qed.

(** X1.  The rung of 60 is never reached: whatever the query and the file,
    the score is one of 100, 90, 85, 80, 70 and 0, and every record that a
    search returns has one of the first five. *)
Theorem score_sixty_never_given :
  forall (assets : option (list walk_entry)) (query : string),
    (forall q words stem, score_of q words stem <> 60)
    /\ (forall r, In r (search_models assets query) ->
                  In (a_score r) [100; 90; 85; 80; 70]).
Proof.
  intros assets query. split.
  - intros q words stem H. pose proof (score_of_values q words stem) as Hv.
    rewrite H in Hv. simpl in Hv. intuition discriminate.
  - intros r Hr. now apply search_scores with (query := query) (assets := assets).
Qed.

(** X2.  A query that is blank once trimmed matches everything: every file
    of the library with a supported extension is returned, with a score of
    85 at least. *)
Theorem blank_query_returns_every_model :
  forall (walk : list walk_entry) (query : string) (e : walk_entry)
         (file : string),
    strip (lower query) = "" ->
    In e walk -> In file (w_files e) ->
    mem (lower (path_suffix file)) supported_formats = true ->
    exists r,
      In r (search_models (Some walk) query)
      /\ a_filename r = file
      /\ a_path r = path_join (w_root e) file
      /\ 85 <= a_score r.
Proof.
  intros walk query e file Hblank He Hf Hsup.
  assert (Hscore : 85 <= score_of "" [] (lower (path_stem file))).
  { unfold score_of.
    destruct (String.eqb "" (lower (path_stem file))
              || String.eqb "" (clean_stem (lower (path_stem file))));
      [lia|].
    cbn [meaningful filter existsb]. rewrite contains_empty. lia. }
  eexists. split; [|split; [|split]].
  - apply in_search_in_collect. unfold collect. rewrite Hblank.
    apply in_flat_map. exists e. split; [assumption|].
    apply in_flat_map. exists file. split; [assumption|].
    unfold visit_file. rewrite Hsup. cbn [negb split_ws].
    destruct (0 <? score_of "" [] (lower (path_stem file))) eqn:E;
      [left; reflexivity|].
    apply Nat.ltb_ge in E. lia.
  - reflexivity.
  - reflexivity.
  - exact Hscore.
Qed.

Lemma filter_head_split : forall A (p : A -> bool) l x t,
  filter p l = x :: t ->
  exists l1 l2, l = (l1 ++ x :: l2)%list /\ forall y, In y l1 -> p y = false.
Proof.
  intros A p l; induction l as [|a l IH]; intros x t H; [discriminate|].
  cbn in H. destruct (p a) eqn:E.
  - inversion H; subst. exists [], l. split; [reflexivity|intros y []].
  - destruct (IH x t H) as (l1 & l2 & -> & Hl1).
    exists (a :: l1), l2. split; [reflexivity|].
    intros y [<-|Hy]; [assumption|now apply Hl1].
Qed.

(** X3.  The first record of a search, the one the gateway takes, has the
    highest score of all the files that matched, and is the first of them
    in the order of the walk: the matches found before it score less. *)
Theorem first_result_is_first_found_of_the_best :
  forall (walk : list walk_entry) (query : string)
         (best : asset_record) (rest : list asset_record),
    search_models (Some walk) query = best :: rest ->
    (forall r, In r (collect walk query) -> a_score r <= a_score best)
    /\ exists earlier later,
         collect walk query = (earlier ++ best :: later)%list
         /\ forall r, In r earlier -> a_score r < a_score best.
Proof.
  intros walk query best rest H.
  assert (Hmax : forall r, In r (collect walk query) ->
                           a_score r <= a_score best).
  { intros r Hr. apply in_search_in_collect in Hr. rewrite H in Hr.
    destruct Hr as [<-|Hr]; [lia|].
    pose proof (sort_desc_sorted (collect walk query)) as Hs.
    unfold search_models in H. rewrite H in Hs.
    apply StronglySorted_inv in Hs. destruct Hs as [_ Hall].
    rewrite Forall_forall in Hall. now apply Hall. }
  split; [exact Hmax|].
  pose proof (sort_desc_stable (a_score best) (collect walk query)) as Hst.
  unfold search_models in H. rewrite H in Hst.
  cbn [filter] in Hst. unfold by_score at 1 in Hst.
  rewrite Nat.eqb_refl in Hst. symmetry in Hst.
  destruct (filter_head_split _ _ _ _ _ Hst) as (l1 & l2 & Hc & Hl1).
  exists l1, l2. split; [assumption|].
  intros r Hr. specialize (Hl1 r Hr). unfold by_score in Hl1.
  apply Nat.eqb_neq in Hl1.
  assert (a_score r <= a_score best)
    by (apply Hmax; rewrite Hc; apply in_or_app; now left).
  lia.
Qed.

End AssetMatcherScores.

Lemma score_sixty_never_given_witness :
  In 90 [100; 90; 85; 80; 70].
Proof.
  apply (proj2 (score_sixty_never_given
                  (Some [ModelLibrary.mkWalk "/assets" "." ["wheelchair.stl"]])
                  "chai")
           (ModelLibrary.mkAsset "/assets/wheelchair.stl" "wheelchair.stl"
              "root" 90 ".stl")).
  vm_compute. left. reflexivity.
Defined.

Lemma blank_query_returns_every_model_witness :
  exists r,
    In r (ModelLibrary.search_models
            (Some [ModelLibrary.mkWalk "/assets" "." ["lamp.fbx"; "notes.txt"]])
            "   ")
    /\ ModelLibrary.a_filename r = "lamp.fbx"
    /\ ModelLibrary.a_path r = "/assets/lamp.fbx"
    /\ 85 <= ModelLibrary.a_score r.
Proof.
  apply (blank_query_returns_every_model
           [ModelLibrary.mkWalk "/assets" "." ["lamp.fbx"; "notes.txt"]] "   "
           (ModelLibrary.mkWalk "/assets" "." ["lamp.fbx"; "notes.txt"])
           "lamp.fbx").
  - reflexivity.
  - left. reflexivity.
  - left. reflexivity.
  - reflexivity.
Defined.

Lemma first_result_is_first_found_of_the_best_witness :
  (forall r,
     In r (ModelLibrary.collect
             [ModelLibrary.mkWalk "/assets" "." ["armchair.glb"; "chair_4k.obj"]]
             "chair") ->
     ModelLibrary.a_score r <= 100)
  /\ exists earlier later,
       ModelLibrary.collect
         [ModelLibrary.mkWalk "/assets" "." ["armchair.glb"; "chair_4k.obj"]]
         "chair"
       = (earlier
          ++ ModelLibrary.mkAsset "/assets/chair_4k.obj" "chair_4k.obj" "root"
               100 ".obj" :: later)%list
       /\ forall r, In r earlier -> ModelLibrary.a_score r < 100.
Proof.
  apply (first_result_is_first_found_of_the_best
           [ModelLibrary.mkWalk "/assets" "." ["armchair.glb"; "chair_4k.obj"]]
           "chair"
           (ModelLibrary.mkAsset "/assets/chair_4k.obj" "chair_4k.obj" "root"
              100 ".obj")
           [ModelLibrary.mkAsset "/assets/armchair.glb" "armchair.glb" "root"
              90 ".glb"]).
  reflexivity.
Defined.

(** ** The shortcut through the library *)

Section LibraryShortcut.
Import PyStr ModelLibrary ModelInterface.

(** X4.  The threshold of 60 never turns a match down: whenever the search
    finds anything for the prompt, the gateway answers with the import
    script of the first record and its fixed message, whatever the provider
    and without asking the backend. *)
Theorem library_match_always_taken :
  forall (assets : option (list walk_entry))
         (generate_import_code : asset_record -> string -> string)
         (prov : provider)
         (backend : string -> outcome (option string * option string))
         (prompt : string) (best : asset_record) (rest : list asset_record),
    search_models assets prompt = best :: rest ->
    60 <= a_score best
    /\ generate_blender_code assets generate_import_code prov backend prompt
       = Returns (Some (generate_import_code best prompt),
                  Some "I'll create that for you! Here's the code:", None).
Proof.
  intros assets generate_import_code prov backend prompt best rest H.
  assert (Hs : 60 <= a_score best).
  { pose proof (search_scores assets prompt best) as Hv.
    rewrite H in Hv. specialize (Hv (or_introl eq_refl)).
    simpl in Hv. intuition lia. }
  split; [exact Hs|].
  unfold generate_blender_code. rewrite H.
  apply Nat.leb_le in Hs. now rewrite Hs.
Qed.

End LibraryShortcut.

Lemma library_match_always_taken_witness :
  ModelInterface.generate_blender_code
    (Some [ModelLibrary.mkWalk "/assets" "." ["wheelchair.stl"]])
    (fun r _ => ModelLibrary.a_path r) ModelInterface.OLLAMA backend_sample
    "a rolling chair"
  = Returns (Some "/assets/wheelchair.stl",
             Some "I'll create that for you! Here's the code:", None).
Proof.
  apply (library_match_always_taken
           (Some [ModelLibrary.mkWalk "/assets" "." ["wheelchair.stl"]])
           (fun r _ => ModelLibrary.a_path r) ModelInterface.OLLAMA
           backend_sample "a rolling chair"
           (ModelLibrary.mkAsset "/assets/wheelchair.stl" "wheelchair.stl"
              "root" 90 ".stl") []).
  reflexivity.
Defined.

(** ** What the chat operators leave alone *)

Section ChatOperatorsFrame.
Import PyStr BlenderUtils Operators.

Variable now : string.
Variable assets : option (list ModelLibrary.walk_entry).
Variable generate_import_code : ModelLibrary.asset_record -> string -> string.
Variable backend : string -> outcome (option string * option string).
Variable py_exec :
  string -> session -> session * outcome (option (entry_point session)).
Variable py_exec_globals : string -> session -> session * outcome unit.

Ltac steps :=
  repeat first
    [ step
    | progress (unfold type_error_none; cbn [is_Exception exc_cls]) ].

Ltac appended :=
  cbn [props chat_messages];
  rewrite ?update_nth_compose, ?update_nth_last;
  rewrite <- ?app_assoc; cbn [app];
  eexists; split; [reflexivity|];
  split; [cbn; lia|];
  split; [intros _; eexists; reflexivity | intros Hb; discriminate Hb].


(** What holds when [RM_OT_SendMessage] returns on an instruction. *)
Lemma send_message_settles : forall st,
  truthy (strip (chat_input (props st))) = true ->
  post (RM_OT_SendMessage_execute now assets generate_import_code backend
          py_exec) st
    (fun st' r =>
       match r with
       | Returns _ =>
           is_thinking (props st') = false
           /\ chat_input (props st') = ""
           /\ auto_execute (props st') = auto_execute (props st)
           /\ provider (props st') = provider (props st)
           /\ plan_text (props st') = plan_text (props st)
           /\ variants (props st') = variants (props st)
       | Raises e => is_Exception e = false
       end).
Proof.
  intros st Hin.
  unfold RM_OT_SendMessage_execute. steps.
  rewrite Hin. cbn [negb]. steps.
  destruct (ModelInterface.generate_blender_code _ _ _ _ _)
    as [[[gen_code ai_message] error]|e].
  2:{ destruct (is_Exception e) eqn:He; steps;
        [now repeat split | reflexivity]. }
  destruct (ModelInterface.truthy_opt error).
  { steps. unfold as_str.
    destruct error as [err|]; steps; now repeat split. }
  steps. unfold as_str.
  destruct ai_message as [text|]; steps; [|now repeat split].
  destruct gen_code as [src|]; steps; [|now repeat split].
  destruct (auto_execute (props st)) eqn:Ha; steps.
  - destruct (exec_script_in_current_scene session py_exec src _)
      as [b' [u|e]]; cbn [fst snd]; steps.
    + now repeat split.
    + destruct (is_Exception e) eqn:He; steps;
        [now repeat split | reflexivity].
  - now repeat split.
Qed.



End ChatOperatorsFrame.



(** ** Letter case and the blocklist *)

Section BlocklistCase.
Import PyStr Re SafeFilters.

Lemma lower_char_idempotent : forall c,
  lower_char (lower_char c) = lower_char c.
Proof. intros [[] [] [] [] [] [] [] []]; reflexivity. Qed.

Lemma is_space_lower_char : forall c, is_space (lower_char c) = is_space c.
Proof. intros [[] [] [] [] [] [] [] []]; reflexivity. Qed.

Lemma is_word_lower_char : forall c, is_word (lower_char c) = is_word c.
Proof. intros [[] [] [] [] [] [] [] []]; reflexivity. Qed.

Lemma chr_eq_lower_char : forall c x,
  chr_eq true c (lower_char x) = chr_eq true c x.
Proof. intros c x. unfold chr_eq. now rewrite lower_char_idempotent. Qed.

Lemma lit_prefix_lower : forall w s,
  lit_prefix true w (lower s)
  = match lit_prefix true w s with
    | Some rest => Some (lower rest)
    | None => None
    end.
Proof.
  induction w as [|a w IH]; intros s; [reflexivity|].
  destruct s as [|b s]; [reflexivity|]. cbn [lower lit_prefix].
  rewrite chr_eq_lower_char. destruct (chr_eq true a b); [apply IH|reflexivity].
Qed.

Lemma plus_run_lower : forall f capture k s,
  (forall c, f (lower_char c) = f c) ->
  (forall s', k (lower s') = lower_result (k s')) ->
  plus_run f capture k (lower s) = lower_result (plus_run f capture k s).
Proof.
  intros f capture k s Hf Hk; induction s as [|x s IH]; [reflexivity|].
  cbn [lower plus_run]. rewrite Hf. destruct (f x); [|reflexivity].
  rewrite IH. destruct (plus_run f capture k s) as [[n g]|]; cbn [lower_result].
  - destruct capture; reflexivity.
  - rewrite Hk. destruct (k s) as [[n g]|]; cbn [lower_result];
      [destruct capture|]; reflexivity.
Qed.

Lemma match_here_lower : forall p s,
  match_here true p (lower s) = lower_result (match_here true p s).
Proof.
  induction p as [|a p IH]; intros s; [reflexivity|].
  destruct a as [c|words| |]; cbn [match_here].
  - destruct s as [|x s]; [reflexivity|]. cbn [lower].
    rewrite chr_eq_lower_char. destruct (chr_eq true c x); [|reflexivity].
    rewrite IH. now destruct (match_here true p s) as [[n g]|].
  - induction words as [|w ws IHw]; [reflexivity|].
    rewrite lit_prefix_lower.
    destruct (lit_prefix true w s) as [rest|]; [|exact IHw].
    rewrite IH. destruct (match_here true p rest) as [[n g]|];
      [reflexivity|exact IHw].
  - apply plus_run_lower; [apply is_space_lower_char|apply IH].
  - apply plus_run_lower; [apply is_word_lower_char|apply IH].
Qed.

Lemma take_lower : forall n s, take n (lower s) = lower (take n s).
Proof.
  induction n as [|n IH]; intros s; [reflexivity|].
  destruct s as [|c s]; [reflexivity|]. cbn [lower take]. now rewrite IH.
Qed.

Lemma finditer_from_lower : forall p s pos skip,
  finditer_from true p pos skip (lower s)
  = map lower_match (finditer_from true p pos skip s).
Proof.
  intros p s; induction s as [|c s IH]; intros pos skip; [reflexivity|].
  cbn [lower finditer_from]. destruct skip as [|k]; [|apply IH].
  change (String (lower_char c) (lower s)) with (lower (String c s)).
  rewrite match_here_lower.
  destruct (match_here true p (String c s)) as [[[|n] g]|];
    cbn [lower_result]; try apply IH.
  cbn [map]. rewrite IH, take_lower. reflexivity.
Qed.

Lemma violations_of_lower : forall code,
  violations_of (lower code) = map lower_violation (violations_of code).
Proof.
  intros code. unfold violations_of, check_dangerous_patterns. cbn [snd].
  induction DANGEROUS_PATTERNS as [|pat pats IH]; [reflexivity|].
  cbn [flat_map]. rewrite map_app, IH. f_equal.
  unfold finditer. rewrite finditer_from_lower, !map_map. reflexivity.
Qed.


End BlocklistCase.


(** ** The emitter and the validator of the execution path *)

Section EmitterPassesValidator.
Import PyStr PlanEmitter BlenderUtils.

Lemma append_split : forall u w a c : string,
  u ++ w = a ++ c ->
  (exists l, a = u ++ l /\ w = l ++ c) \/ (exists l, u = a ++ l /\ c = l ++ w).
Proof.
  induction u as [|x u IH]; intros w a c H.
  - left. exists a. now split.
  - destruct a as [|y a].
    + right. exists (String x u). now split.
    + cbn in H. inversion H; subst y.
      destruct (IH w a c H2) as [(l & -> & ->)|(l & -> & ->)].
      * left. exists l. now split.
      * right. exists l. now split.
Qed.

Lemma append_empty : forall s : string, s ++ "" = s.
Proof. induction s as [|c s IH]; cbn; [reflexivity|now rewrite IH]. Qed.

Lemma mem_char_append : forall c a b,
  mem_char c (a ++ b) = mem_char c a || mem_char c b.
Proof.
  intros c a b; induction a as [|x a IH]; [reflexivity|].
  cbn. rewrite IH. now rewrite orb_assoc.
Qed.

Lemma last_char_mem : forall s c, last_char s = Some c -> mem_char c s = true.
Proof.
  induction s as [|x s IH]; intros c H; [discriminate|].
  cbn in H. destruct s as [|y s].
  - inversion H; subst. cbn. now rewrite Ascii.eqb_refl.
  - change (mem_char c (String x (String y s)))
      with (Ascii.eqb c x || mem_char c (String y s)).
    rewrite (IH c H). apply orb_true_r.
Qed.

Lemma last_char_append : forall u l,
  l <> "" -> last_char (u ++ l) = last_char l.
Proof.
  induction u as [|x u IH]; intros l Hl; [reflexivity|].
  cbn [append]. specialize (IH l Hl).
  destruct (u ++ l) as [|y r] eqn:E.
  - destruct u; destruct l; try discriminate; congruence.
  - cbn [last_char]. exact IH.
Qed.

(** A token found in [a ++ c] lies in [a] or in [c], unless it runs over
    the seam, taking the last character of [a] and the first of [c]. *)
Lemma contains_append : forall tok a c,
  contains tok (a ++ c) = true ->
  contains tok a = true \/ contains tok c = true
  \/ exists x y, last_char a = Some x /\ first_char c = Some y
                 /\ mem_char x tok = true /\ mem_char y tok = true.
Proof.
  intros tok a c H. apply contains_iff in H. destruct H as (u & v & H).
  symmetry in H. destruct (append_split _ _ _ _ H) as [(l & Ha & Hw)|(l & Hu & Hc)].
  - destruct (append_split _ _ _ _ Hw) as [(l' & Hl & Hv)|(l' & Ht & Hc)].
    + left. apply contains_iff. exists u, l'. now rewrite Ha, Hl.
    + destruct l as [|x l].
      * right. left. apply contains_iff. exists "", v.
        cbn in Ht. now rewrite Hc, <- Ht.
      * destruct l' as [|y l'].
        -- left. apply contains_iff. exists u, "".
           now rewrite Ha, Ht, !append_empty.
        -- right. right.
           destruct (last_char (String x l)) as [z|] eqn:El.
           2:{ exfalso. clear -El. revert x El.
               induction l as [|q l IH]; intros x El; [discriminate|].
               cbn in El. now apply (IH q). }
           exists z, y. repeat split.
           ++ rewrite Ha, last_char_append by discriminate. exact El.
           ++ now rewrite Hc.
           ++ rewrite Ht, mem_char_append, (last_char_mem _ _ El). reflexivity.
           ++ rewrite Ht, mem_char_append. cbn. rewrite Ascii.eqb_refl.
              apply orb_true_r.
  - right. left. apply contains_iff. exists l, v. exact Hc.
Qed.

(** The characters of a substring are characters of the string. *)
Lemma contains_mem_char : forall tok s c,
  contains tok s = true -> mem_char c tok = true -> mem_char c s = true.
Proof.
  intros tok s c H Hc. apply contains_iff in H. destruct H as (a & b & ->).
  rewrite !mem_char_append, Hc. now rewrite orb_true_r.
Qed.

Lemma all_chars_in_mem : forall alphabet s c,
  all_chars_in alphabet s = true -> mem_char c s = true ->
  mem_char c alphabet = true.
Proof.
  intros alphabet s c; induction s as [|x s IH]; intros H Hc; [discriminate|].
  cbn in H, Hc. apply andb_true_iff in H. destruct H as [Hx Hs].
  apply orb_true_iff in Hc. destruct Hc as [Hc|Hc].
  - apply Ascii.eqb_eq in Hc. now subst.
  - now apply IH.
Qed.

Lemma foreign_char_spec : forall tok c,
  foreign_char tok = Some c ->
  mem_char c tok = true /\ mem_char c float_alphabet = false.
Proof.
  unfold foreign_char. induction tok as [|x tok IH]; intros c H; [discriminate|].
  destruct (mem_char x float_alphabet) eqn:E.
  - destruct (IH c H) as [H1 H2]. split; [|exact H2].
    cbn [mem_char]. rewrite H1. apply orb_true_r.
  - inversion H; subst. split; [|exact E].
    cbn [mem_char]. now rewrite Ascii.eqb_refl.
Qed.

Lemma no_token_in_float_text : forall tok r,
  In tok FORBIDDEN_TOKENS ->
  all_chars_in float_alphabet r = true ->
  contains tok r = false.
Proof.
  intros tok r Hin Hr.
  assert (Hf : exists c, foreign_char tok = Some c).
  { cbn in Hin.
    repeat (destruct Hin as [<-|Hin]; [eexists; reflexivity|]).
    destruct Hin. }
  destruct Hf as [c Hf]. apply foreign_char_spec in Hf. destruct Hf as [H1 H2].
  destruct (contains tok r) eqn:E; [|reflexivity].
  pose proof (all_chars_in_mem _ _ _ Hr (contains_mem_char _ _ _ E H1)).
  congruence.
Qed.

Lemma sphere_script_split : forall r,
  sphere_script r = sphere_before_radius ++ r ++ sphere_after_radius.
Proof.
  intros r. unfold sphere_script, sphere_before_radius, sphere_after_radius.
  cbn. now rewrite append_assoc3.
Qed.

Lemma sphere_script_passes : forall r,
  all_chars_in float_alphabet r = true ->
  validate_script (sphere_script r) = Returns tt.
Proof.
  intros r Hr. apply validate_script_returns. intros tok Hin.
  destruct (contains tok (sphere_script r)) eqn:E; [|reflexivity].
  exfalso. rewrite sphere_script_split in E.
  assert (Hseam : mem_char "=" tok = false /\ mem_char "," tok = false
                  /\ contains tok sphere_before_radius = false
                  /\ contains tok sphere_after_radius = false).
  { cbn in Hin.
    repeat (destruct Hin as [<-|Hin]; [repeat split; reflexivity|]).
    destruct Hin. }
  destruct Hseam as (Heq & Hcomma & Hbefore & Hafter).
  apply contains_append in E.
  destruct E as [E|[E|(x & y & Hx & _ & Hmx & _)]].
  - congruence.
  - apply contains_append in E.
    destruct E as [E|[E|(x & y & _ & Hy & _ & Hmy)]].
    + rewrite (no_token_in_float_text tok r Hin Hr) in E. discriminate.
    + congruence.
    + cbn in Hy. inversion Hy; subst y. congruence.
  - assert (x = "="%char) by (vm_compute in Hx; now inversion Hx).
    subst x. congruence.
Qed.

(** The script emitted for a plan holds no forbidden token. *)
Lemma emitted_script_valid :
  forall (float_text : string -> option string) (plan : string),
    (forall tok r, float_text tok = Some r ->
                   all_chars_in float_alphabet r = true) ->
    exists script,
      emitter_plan_to_script float_text plan = Returns script
      /\ validate_script script = Returns tt.
Proof.
  intros float_text plan Hfloat. unfold emitter_plan_to_script.
  destruct (contains "uv_sphere" (lower plan) || contains "sphere" (lower plan)).
  - assert (Hr : exists r,
              (if contains "r=" (lower plan)
               then match parse_radius float_text (lower plan) with
                    | Returns v => Returns v
                    | Raises e => if is_Exception e then Returns "0.5"
                                  else Raises e
                    end
               else Returns "0.5") = Returns r
              /\ all_chars_in float_alphabet r = true).
    { destruct (contains "r=" (lower plan)); [|now exists "0.5"].
      destruct (parse_radius float_text (lower plan)) as [v|e] eqn:E.
      - exists v. split; [reflexivity|].
        unfold parse_radius, bind, item in E.
        destruct (index "r=" (lower plan)) as [i|]; [|discriminate].
        destruct (nth_error _ 0) as [a|]; [|discriminate].
        destruct (nth_error (split_ws a) 0) as [b|]; [|discriminate].
        destruct (float_text (strip_chars ");" b)) as [r|] eqn:Ef;
          [|discriminate].
        inversion E; subst. now apply Hfloat in Ef.
      - rewrite (parse_radius_raises_Exception _ _ _ E). now exists "0.5". }
    destruct Hr as (r & -> & Hr). cbn [bind].
    exists (sphere_script r). split; [reflexivity|].
    now apply sphere_script_passes.
  - destruct (contains "cylinder" (lower plan));
      eexists; split; reflexivity.
Qed.

(** X9.  The validator of the execution path never refuses a script of the
    plan emitter: for every plan, as long as [float] prints a number with
    digits, point, exponent, signs and the letters of [inf] and [nan], the
    script emitted holds no forbidden token. *)
Theorem emitted_script_passes_validator :
  forall (float_text : string -> option string) (plan : string),
    (forall tok r, float_text tok = Some r ->
                   all_chars_in float_alphabet r = true) ->
    exists script,
      emitter_plan_to_script float_text plan = Returns script
      /\ validate_script script = Returns tt.
Proof.
  intros float_text plan Hfloat.
  destruct (emitted_script_valid float_text plan Hfloat)
    as (script & Hscript & Hvalid).
  exists script. split; [exact Hscript|exact Hvalid].
Qed.

End EmitterPassesValidator.

Lemma emitted_script_passes_validator_witness :
  exists script,
    PlanEmitter.emitter_plan_to_script float_text_sample "sphere r=1.5, red"
    = Returns script
    /\ BlenderUtils.validate_script script = Returns tt.
Proof.
  apply (emitted_script_passes_validator float_text_sample "sphere r=1.5, red").
  intros tok r. unfold float_text_sample.
  destruct (String.eqb tok "2"); [intros H; inversion H; reflexivity|].
  destruct (String.eqb tok "1.5"); intros H; inversion H; reflexivity.
Defined.

(* ------------------------------------------------------------------ *)
(** ** [sanitize_code] *)
(* ------------------------------------------------------------------ *)

Section SanitizeProperties.
Import PyStr Re SafeFilters Sanitize.

Lemma search_false_no_match : forall p s pos skip,
  search p s = false -> finditer_from true p pos skip s = [].
Proof.
  intros p s; induction s as [|c s IH]; intros pos skip H; [reflexivity|].
  cbn [search] in H. cbn [finditer_from].
  destruct (match_here true p (String c s)) as [r|] eqn:Hm; [discriminate|].
  destruct skip; now apply IH.
Qed.

Lemma search_true_match : forall p s,
  search p s = true ->
  exists i n g, match_here true p (drop i s) = Some (n, g).
Proof.
  intros p s; induction s as [|c s IH]; intros H.
  - cbn [search] in H.
    destruct (match_here true p "") as [[n g]|] eqn:Hm; [|discriminate].
    now exists 0, n, g.
  - cbn [search] in H.
    destruct (match_here true p (String c s)) as [[n g]|] eqn:Hm.
    + now exists 0, n, g.
    + destruct (IH H) as (i & n & g & Hi). now exists (S i), n, g.
Qed.

Lemma blocklist_pattern_starts_with_literal : forall pat,
  In pat DANGEROUS_PATTERNS -> exists c p, compile pat = Lit c :: p.
Proof.
  intros pat H. unfold DANGEROUS_PATTERNS in H.
  repeat (destruct H as [<-|H]; [vm_compute; eauto|]). destruct H.
Qed.

Lemma match_here_literal_head : forall ic c p s n g,
  match_here ic (Lit c :: p) s = Some (n, g) -> exists n', n = S n'.
Proof.
  intros ic c p s n g H. cbn [match_here] in H.
  destruct s as [|x s]; [discriminate|].
  destruct (chr_eq ic c x); [|discriminate].
  destruct (match_here ic p s) as [[k h]|]; [|discriminate].
  inversion H; subst. now exists k.
Qed.

Lemma search_agrees_with_finditer : forall pat code,
  In pat DANGEROUS_PATTERNS ->
  search (compile pat) code = false <-> finditer true (compile pat) code = [].
Proof.
  intros pat code Hpat. split.
  - apply search_false_no_match.
  - intros Hnone. destruct (search (compile pat) code) eqn:Hs; [|reflexivity].
    exfalso. destruct (search_true_match _ _ Hs) as (i & n & g & Hm).
    destruct (blocklist_pattern_starts_with_literal pat Hpat) as (c & p & Hc).
    assert (Hn : exists n', n = S n').
    { rewrite Hc in Hm. eapply match_here_literal_head; eassumption. }
    destruct Hn as (n' & ->).
    destruct (finditer_from_covers true (compile pat) code 0 0 i n' g
                (Nat.le_0_l _) Hm) as [Hin|(m & Hin & _)];
      unfold finditer in Hnone; rewrite Hnone in Hin; destruct Hin.
Qed.

Lemma scan_clean_iff : forall code,
  fst (check_dangerous_patterns code) = true <->
  forall pat, In pat DANGEROUS_PATTERNS -> search (compile pat) code = false.
Proof.
  intros code. unfold check_dangerous_patterns. cbn [fst].
  rewrite Nat.eqb_eq, List.length_zero_iff_nil. split.
  - intros Hnil pat Hpat. apply search_agrees_with_finditer; [assumption|].
    destruct (finditer true (compile pat) code) as [|m ms] eqn:Hf;
      [reflexivity|exfalso].
    assert (Hin : In (mkViolation pat (m_group m) (m_start m))
                     (flat_map
                        (fun pattern =>
                           map (fun m => mkViolation pattern (m_group m)
                                                     (m_start m))
                               (finditer true (compile pattern) code))
                        DANGEROUS_PATTERNS)).
    { apply in_flat_map. exists pat. split; [assumption|].
      rewrite Hf. now left. }
    rewrite Hnil in Hin. destruct Hin.
  - intros Hall.
    destruct (flat_map _ DANGEROUS_PATTERNS) as [|v vs] eqn:Hf;
      [reflexivity|exfalso].
    assert (Hin : In v (v :: vs)) by now left.
    rewrite <- Hf in Hin. apply in_flat_map in Hin.
    destruct Hin as (pat & Hpat & Hv).
    specialize (Hall pat Hpat).
    apply search_agrees_with_finditer in Hall; [|exact Hpat].
    rewrite Hall in Hv. destruct Hv.
Qed.

Lemma sanitize_fold_quiet : forall pats s w s' w',
  fold_left sanitize_step pats (s, w) = (s', w') ->
  w' = [] ->
  w = [] /\ s' = s
  /\ forall pat, In pat pats -> search (compile pat) s = false.
Proof.
  induction pats as [|pat pats IH]; intros s w s' w' H Hw.
  - cbn in H. inversion H; subst.
    split; [reflexivity|]. split; [reflexivity|]. intros ? [].
  - cbn [fold_left sanitize_step] in H.
    destruct (search (compile pat) s) eqn:Hs.
    + apply IH in H; [|assumption]. destruct H as (Hnil & _).
      destruct w; discriminate.
    + apply IH in H; [|assumption]. destruct H as (-> & -> & Hall).
      split; [reflexivity|]. split; [reflexivity|].
      intros q [<-|Hq]; [assumption|now apply Hall].
Qed.

Lemma sanitize_fold_clean : forall pats s w,
  (forall pat, In pat pats -> search (compile pat) s = false) ->
  fold_left sanitize_step pats (s, w) = (s, w).
Proof.
  induction pats as [|pat pats IH]; intros s w H; [reflexivity|].
  cbn [fold_left sanitize_step]. rewrite (H pat (or_introl eq_refl)).
  apply IH. intros q Hq. apply H. now right.
Qed.

(** X10.  [sanitize_code] issues no warning exactly when
    [check_dangerous_patterns] finds the code safe, and then it returns the
    code as it was given. *)
Theorem sanitize_quiet_iff_scan_clean : forall code,
  (snd (sanitize_code code) = [] <->
   fst (check_dangerous_patterns code) = true)
  /\ (snd (sanitize_code code) = [] -> fst (sanitize_code code) = code).
Proof.
  intros code. unfold sanitize_code.
  destruct (fold_left sanitize_step DANGEROUS_PATTERNS (code, []))
    as [s' w'] eqn:Hf. cbn [fst snd]. split; [split|].
  - intros Hw. apply scan_clean_iff.
    now destruct (sanitize_fold_quiet _ _ _ _ _ Hf Hw) as (_ & _ & Hall).
  - intros Hsafe. rewrite scan_clean_iff in Hsafe.
    rewrite (sanitize_fold_clean _ _ _ Hsafe) in Hf. now inversion Hf.
  - intros Hw.
    now destruct (sanitize_fold_quiet _ _ _ _ _ Hf Hw) as (_ & -> & _).
Qed.

Lemma mem_char_drop : forall c n s,
  mem_char c s = false -> mem_char c (drop n s) = false.
Proof.
  intros c n; induction n as [|n IH]; intros s H; [exact H|].
  destruct s as [|d s]; [reflexivity|]. cbn [drop]. apply IH.
  cbn [mem_char] in H. now apply orb_false_iff in H.
Qed.

Lemma to_closing_none : forall s,
  mem_char ")" s = false -> to_closing s = None.
Proof.
  induction s as [|c s IH]; intros H; [reflexivity|].
  cbn [mem_char] in H. apply orb_false_iff in H. destruct H as (Hc & Hs).
  cbn [to_closing]. rewrite Ascii.eqb_sym, Hc. now rewrite IH.
Qed.

Lemma match_call_none : forall p s,
  mem_char ")" s = false -> match_call p s = None.
Proof.
  intros p s H. unfold match_call.
  destruct (match_here true p s) as [[n g]|]; [|reflexivity].
  now rewrite to_closing_none by now apply mem_char_drop.
Qed.

Lemma sub_from_unclosed : forall p s,
  mem_char ")" s = false -> sub_from p 0 s = s.
Proof.
  intros p s; induction s as [|c s IH]; intros H; [reflexivity|].
  cbn [sub_from]. rewrite match_call_none by assumption.
  f_equal. apply IH. cbn [mem_char] in H. now apply orb_false_iff in H.
Qed.

Lemma sanitize_fold_unclosed : forall pats s w,
  mem_char ")" s = false ->
  fold_left sanitize_step pats (s, w)
  = (s, (w ++ map removal_warning
                  (filter (fun pat => search (compile pat) s) pats))%list).
Proof.
  induction pats as [|pat pats IH]; intros s w H.
  - cbn. now rewrite app_nil_r.
  - cbn [fold_left sanitize_step filter].
    destruct (search (compile pat) s) eqn:Hs.
    + rewrite sub_from_unclosed by assumption. rewrite IH by assumption.
      cbn [map]. now rewrite <- app_assoc.
    + now apply IH.
Qed.

(** X11.  A script without a closing parenthesis comes back from
    [sanitize_code] unchanged, although a warning that the pattern was
    removed is issued for every blocklist pattern found in it. *)
Theorem unclosed_call_survives_sanitizing : forall code,
  mem_char ")" code = false ->
  sanitize_code code
  = (code,
     map removal_warning
         (filter (fun pat => search (compile pat) code) DANGEROUS_PATTERNS)).
Proof.
  intros code H. unfold sanitize_code.
  now rewrite sanitize_fold_unclosed by assumption.
Qed.

Lemma unclosed_call_survives_sanitizing_witness :
  mem_char ")" "x = eval(1" = false
  /\ sanitize_code "x = eval(1"
     = ("x = eval(1", ["Removed dangerous pattern: eval\("]).
Proof.
  split; [reflexivity|].
  exact (unclosed_call_survives_sanitizing "x = eval(1" eq_refl).
Defined.

Lemma subsequence_refl : forall s, subsequence s s.
Proof. induction s; constructor; assumption. Qed.

Lemma subsequence_trans : forall b c,
  subsequence b c -> forall a, subsequence a b -> subsequence a c.
Proof.
  induction 1 as [|x b c Hbc IH|x b c Hbc IH]; intros a Hab.
  - exact Hab.
  - inversion Hab; subst.
    + constructor. now apply IH.
    + apply subsequence_skip. now apply IH.
  - apply subsequence_skip. now apply IH.
Qed.

Lemma sub_from_subsequence : forall p s skip,
  subsequence (sub_from p skip s) s.
Proof.
  intros p s; induction s as [|c s IH]; intros skip; [constructor|].
  cbn [sub_from]. destruct skip as [|k].
  - destruct (match_call p (String c s)) as [[|n]|].
    + apply subsequence_keep, IH.
    + apply subsequence_skip, IH.
    + apply subsequence_keep, IH.
  - apply subsequence_skip, IH.
Qed.

Lemma sanitize_fold_subsequence : forall pats s w,
  subsequence (fst (fold_left sanitize_step pats (s, w))) s.
Proof.
  induction pats as [|pat pats IH]; intros s w.
  - apply subsequence_refl.
  - cbn [fold_left sanitize_step].
    destruct (search (compile pat) s).
    + eapply subsequence_trans; [apply sub_from_subsequence|apply IH].
    + apply IH.
Qed.


End SanitizeProperties.

(* ------------------------------------------------------------------ *)
(** ** The [.env] file and the model settings *)
(* ------------------------------------------------------------------ *)

Section EnvFile.
Import PyStr ModelSettings.

Lemma partition_at_first_char : forall c a b,
  mem_char c a = false ->
  partition (String c EmptyString) (a ++ String c b) = Some (a, b).
Proof.
  intros c a b; induction a as [|x a IH]; intros H.
  - cbn. now rewrite Ascii.eqb_refl.
  - cbn [mem_char] in H. apply orb_false_iff in H. destruct H as (Hx & Ha).
    change ((String x a ++ String c b)%string)
      with (String x (a ++ String c b)).
    cbn [partition strip_prefix]. rewrite Hx. now rewrite (IH Ha).
Qed.

Lemma env_line_assignment : forall env_vars raw key value,
  strip raw = (key ++ "=" ++ value)%string ->
  starts_with "#" (strip raw) = false ->
  mem_char "=" key = false ->
  env_line env_vars raw = dict_set (strip key) (strip value) env_vars.
Proof.
  intros env_vars raw key value Hline Hhash Hkey. unfold env_line.
  rewrite Hhash. rewrite Hline.
  assert (Hp : partition "=" (key ++ "=" ++ value)%string = Some (key, value))
    by now apply partition_at_first_char.
  unfold contains. rewrite Hp.
  assert (Ht : truthy (key ++ "=" ++ value)%string = true)
    by now destruct key.
  now rewrite Ht.
Qed.

Lemma env_line_ignored : forall env_vars raw,
  strip raw = EmptyString \/ starts_with "#" (strip raw) = true
  \/ contains "=" (strip raw) = false ->
  env_line env_vars raw = env_vars.
Proof.
  intros env_vars raw H. unfold env_line.
  destruct H as [->|[->| ->]]; [reflexivity| |].
  - now rewrite andb_false_r.
  - now rewrite andb_false_r.
Qed.

Lemma load_lines : forall lines,
  load_env_file (Some (Returns lines))
  = Returns (fold_left env_line lines []).
Proof. reflexivity. Qed.

(** X13.  In the [.env] file the last assignment of a key is the one that
    counts: after a final line [key=value] the key is bound to the trimmed
    value, and every other key keeps the binding the lines before gave. *)
Theorem env_file_last_assignment_wins : forall lines raw key value,
  strip raw = (key ++ "=" ++ value)%string ->
  starts_with "#" (strip raw) = false ->
  mem_char "=" key = false ->
  exists env_vars earlier,
    load_env_file (Some (Returns (lines ++ [raw])%list)) = Returns env_vars
    /\ load_env_file (Some (Returns lines)) = Returns earlier
    /\ dict_get (strip key) env_vars = Some (strip value)
    /\ forall other, other <> strip key ->
         dict_get other env_vars = dict_get other earlier.
Proof.
  intros lines raw key value Hline Hhash Hkey.
  exists (fold_left env_line (lines ++ [raw])%list []),
         (fold_left env_line lines []).
  rewrite !load_lines. split; [reflexivity|]. split; [reflexivity|].
  rewrite fold_left_app. cbn [fold_left].
  rewrite (env_line_assignment _ _ _ _ Hline Hhash Hkey).
  unfold dict_set. cbn [dict_get]. split.
  - now rewrite String.eqb_refl.
  - intros other Hother.
    now destruct (String.eqb_spec other (strip key)).
Qed.

Lemma env_file_last_assignment_wins_witness :
  exists env_vars,
    load_env_file
      (Some (Returns ["OPENAI_MODEL=a"; "# model"; " OPENAI_MODEL = b=c "]))
    = Returns env_vars
    /\ dict_get "OPENAI_MODEL" env_vars = Some "b=c".
Proof.
  destruct (env_file_last_assignment_wins
              ["OPENAI_MODEL=a"; "# model"] " OPENAI_MODEL = b=c "
              "OPENAI_MODEL " " b=c" eq_refl eq_refl eq_refl)
    as (env_vars & earlier & Hload & _ & Hget & _).
  exists env_vars. split; [exact Hload|exact Hget].
Defined.

(** X14.  A line of the [.env] file that is blank, starts with [#] or holds
    no [=] (each after trimming) has no effect, wherever it stands. *)
Theorem env_file_skips_other_lines : forall before raw after,
  strip raw = EmptyString \/ starts_with "#" (strip raw) = true
  \/ contains "=" (strip raw) = false ->
  load_env_file (Some (Returns (before ++ raw :: after)%list))
  = load_env_file (Some (Returns (before ++ after)%list)).
Proof.
  intros before raw after H. rewrite !load_lines, !fold_left_app.
  cbn [fold_left]. now rewrite (env_line_ignored _ _ H).
Qed.

Lemma env_file_skips_other_lines_witness :
  load_env_file (Some (Returns ["A=1"; "  #B=2"; "C=3"]))
  = load_env_file (Some (Returns ["A=1"; "C=3"])).
Proof.
  apply (env_file_skips_other_lines ["A=1"] "  #B=2" ["C=3"]).
  right; left. reflexivity.
Defined.

(** X15.  A final line [OPENAI_API_KEY=value] of the [.env] file decides
    the key: the trimmed value is used instead of the key typed in the
    settings, unless it is empty, when the key of the settings is used. *)
Theorem env_file_key_overrides_settings : forall lines raw value typed,
  strip raw = ("OPENAI_API_KEY=" ++ value)%string ->
  get_api_key (Some (Returns (lines ++ [raw])%list)) typed
  = Returns (if truthy (strip value) then strip value else typed).
Proof.
  intros lines raw value typed Hline. unfold get_api_key.
  rewrite load_lines. cbn [bind]. rewrite fold_left_app. cbn [fold_left].
  rewrite (env_line_assignment _ raw "OPENAI_API_KEY" value);
    [|exact Hline|now rewrite Hline|reflexivity].
  change (strip "OPENAI_API_KEY") with "OPENAI_API_KEY".
  unfold dict_set. cbn [dict_get]. rewrite String.eqb_refl.
  now destruct (truthy (strip value)).
Qed.

Lemma env_file_key_overrides_settings_witness :
  get_api_key (Some (Returns ["OPENAI_API_KEY=sk-1"; "OPENAI_API_KEY=  "]))
              "typed"
  = Returns "typed".
Proof.
  exact (env_file_key_overrides_settings
           ["OPENAI_API_KEY=sk-1"] "OPENAI_API_KEY=  " "" "typed" eq_refl).
Defined.

Section ModelSettingsProperties.
Variable float : Type.
Variable py_float : string -> option float.

(** X16.  The model name [get_model_settings] gives is never empty and never
    the display name [rendermind-v1]; and the temperature of the settings is
    used only when the [.env] file holds an [OPENAI_TEMPERATURE] that is not
    a number: without such an entry the temperature is [float('0.7')]. *)
Theorem model_settings_resolved : forall file model_name temperature m t,
  get_model_settings float py_float file model_name temperature
  = Returns (m, t) ->
  m <> "rendermind-v1" /\ m <> EmptyString
  /\ exists env_vars,
       load_env_file file = Returns env_vars
       /\ match dict_get "OPENAI_TEMPERATURE" env_vars with
          | Some text =>
              py_float text = Some t
              \/ (py_float text = None /\ t = temperature)
          | None =>
              py_float "0.7" = Some t
              \/ (py_float "0.7" = None /\ t = temperature)
          end.
Proof.
  intros file model_name temperature m t H. unfold get_model_settings in H.
  destruct (load_env_file file) as [env_vars|e]; [|discriminate].
  cbn [bind] in H. inversion H as [[Hm Ht]]. clear H.
  split; [|split].
  - destruct (dict_get "OPENAI_MODEL" env_vars) as [mm|];
      [destruct (truthy mm)|];
      try destruct (truthy model_name);
      match goal with
      | |- (if String.eqb ?d _ then _ else _) <> _ =>
          destruct (String.eqb_spec d "rendermind-v1");
            [discriminate|assumption]
      end.
  - destruct (dict_get "OPENAI_MODEL" env_vars) as [mm|];
      [destruct (truthy mm) eqn:Hmm|];
      try destruct (truthy model_name) eqn:Hmn;
      match goal with
      | |- (if String.eqb ?d _ then _ else _) <> _ =>
          destruct (String.eqb_spec d "rendermind-v1");
            [discriminate|]
      end;
      try discriminate;
      intros Hempty; rewrite Hempty in *; discriminate.
  - exists env_vars. split; [reflexivity|].
    destruct (dict_get "OPENAI_TEMPERATURE" env_vars) as [text|].
    + destruct (py_float text); [now left|now right].
    + destruct (py_float "0.7"); [now left|now right].
Qed.

End ModelSettingsProperties.

Lemma model_settings_resolved_witness :
  get_model_settings nat (fun _ => Some 7)
    (Some (Returns ["OPENAI_MODEL=rendermind-v1"])) "gpt-4" 3
  = Returns ("gpt-4o-mini", 7)
  /\ "gpt-4o-mini" <> "rendermind-v1" /\ "gpt-4o-mini" <> EmptyString.
Proof.
  split; [reflexivity|].
  destruct (model_settings_resolved nat (fun _ => Some 7)
              (Some (Returns ["OPENAI_MODEL=rendermind-v1"])) "gpt-4" 3
              "gpt-4o-mini" 7 eq_refl) as (H1 & H2 & _).
  split; assumption.
Defined.

End EnvFile.

(* ------------------------------------------------------------------ *)
(** ** The legacy functions and operators *)
(* ------------------------------------------------------------------ *)

Section LegacyGeneration.
Import PyStr BlenderUtils Operators ModelInterface ModelInterfaceLegacy.
Import LegacyOperators.

Variable assets : option (list ModelLibrary.walk_entry).
Variable generate_import_code : ModelLibrary.asset_record -> string -> string.
Variable backend : string -> outcome (option string * option string).

Lemma plan_from_prompt_raises : forall the_provider prompt,
  plan_from_prompt assets generate_import_code the_provider backend prompt
  = Raises (unpacking_failure assets generate_import_code backend the_provider prompt).
Proof.
  intros the_provider prompt. unfold plan_from_prompt, unpacking_failure.
  now destruct (generate_blender_code _ _ _ _ prompt).
Qed.

Lemma generate_variants_raises : forall the_provider prompt n,
  generate_variants assets generate_import_code the_provider backend prompt
    (S n)
  = Raises (unpacking_failure assets generate_import_code backend the_provider
              (prompt ++ " (variation 1)")).
Proof.
  intros the_provider prompt n.
  unfold generate_variants, unpacking_failure.
  cbn [seq variants_loop].
  change (prompt ++ " (variation " ++ decimal (0 + 1) ++ ")")%string
    with (prompt ++ " (variation 1)")%string.
  now destruct (generate_blender_code _ _ _ _ (prompt ++ " (variation 1)")).
Qed.

(** X17.  The legacy entry points unpack the three results of
    [generate_blender_code] into two names, so they never return what
    they were written for: [plan_from_prompt] always raises, and so does
    [generate_variants] for any count but zero, at its first variation;
    what escapes is the generator's own exception or the [ValueError] of
    the unpacking.  For a count of zero [generate_variants] returns the
    demo script alone. *)
Theorem legacy_generation_never_returns : forall the_provider prompt n,
  plan_from_prompt assets generate_import_code the_provider backend prompt
  = Raises (unpacking_failure assets generate_import_code backend the_provider prompt)
  /\ generate_variants assets generate_import_code the_provider backend
       prompt (S n)
     = Raises (unpacking_failure assets generate_import_code backend the_provider (prompt ++ " (variation 1)"))
  /\ generate_variants assets generate_import_code the_provider backend
       prompt 0
     = Returns [generate_demo_code prompt]
  /\ (forall r,
        generate_blender_code assets generate_import_code the_provider
          backend prompt = Returns r ->
        exc_cls (unpacking_failure assets generate_import_code backend the_provider prompt) = ValueError).
Proof.
  intros the_provider prompt n. split; [apply plan_from_prompt_raises|].
  split; [apply generate_variants_raises|]. split; [reflexivity|].
  intros r Hr. unfold unpacking_failure. now rewrite Hr.
Qed.

Variable py_exec_globals : string -> session -> session * outcome unit.
Variable float_text : string -> option string.
Variable tmpdir : string.
Variable render : nat -> string -> session -> session * outcome unit.

(** X18.  [RM_OT_Generate] never gets past its first call: whatever the
    prompt, the library and the backend, it stores no plan, no history item
    and no variant and touches no scene.  It finishes with one error report
    added, unless what the generator raised is no [Exception], which then
    escapes with nothing reported. *)
Theorem generate_operator_only_reports_an_error : forall st,
  let result :=
    RM_OT_Generate_execute assets generate_import_code backend
      py_exec_globals float_text tmpdir render st in
  let failure :=
    unpacking_failure assets generate_import_code backend
      (BlenderUtils.provider (props (chat st))) (prompt_text (legacy st)) in
  legacy (fst result) = legacy st
  /\ props (chat (fst result)) = props (chat st)
  /\ bpy (chat (fst result)) = bpy (chat st)
  /\ (if is_Exception failure
      then snd result = Returns FINISHED
           /\ reports (chat (fst result))
              = (reports (chat st) ++ [(REPORT_ERROR, str_exn failure)])%list
      else snd result = Raises failure
           /\ reports (chat (fst result)) = reports (chat st)).
Proof.
  intros st. cbv zeta.
  unfold RM_OT_Generate_execute, lbind, lget, ltry_except, llift.
  cbv beta iota. rewrite plan_from_prompt_raises. cbv beta iota.
  destruct (is_Exception (unpacking_failure _ _ _ _ _)) eqn:He.
  - unfold on_chat, report, lret. cbn [fst snd chat legacy props bpy reports].
    repeat split.
  - cbn [fst snd]. repeat split.
Qed.

End LegacyGeneration.

Section LegacyApply.
Import PyStr BlenderUtils Operators LegacyOperators.

Variable py_exec_globals : string -> session -> session * outcome unit.
Variable float_text : string -> option string.

Lemma update_nth_length : forall A (f : A -> A) i l,
  List.length (update_nth i f l) = List.length l.
Proof.
  intros A f i l; revert i; induction l as [|x l IH]; intros [|i];
    cbn; congruence.
Qed.

Lemma nth_error_update_nth : forall A (f : A -> A) i l j x,
  nth_error l j = Some x ->
  nth_error (update_nth i f l) j = Some (if j =? i then f x else x).
Proof.
  intros A f i l; revert i; induction l as [|y l IH]; intros i j x H.
  - now destruct j.
  - destruct i as [|i], j as [|j]; cbn in *; try assumption.
    + now inversion H.
    + now apply IH.
Qed.

(** X19.  [RM_OT_Apply] always runs the script the emitter gives for the
    stored plan, the validator never being in the way (as long as [float]
    prints numbers as numbers).  If the script runs through, exactly the
    last history item is marked accepted, nothing else of the history
    changes, and one INFO report is made.  If it raises an [Exception] the
    history is as before and the operator still finishes, with one ERROR
    report that carries the exception's text.  What the script did to the
    session stays in both cases. *)
Theorem apply_marks_latest_plan_accepted : forall st,
  (forall tok r, float_text tok = Some r ->
                 all_chars_in float_alphabet r = true) ->
  exists script,
    PlanEmitter.emitter_plan_to_script float_text (plan_text (props (chat st)))
    = Returns script
    /\ let ran := py_exec_globals script (bpy (chat st)) in
       let result := RM_OT_Apply_execute py_exec_globals float_text st in
       props (chat (fst result)) = props (chat st)
       /\ bpy (chat (fst result)) = fst ran
       /\ prompt_text (legacy (fst result)) = prompt_text (legacy st)
       /\ preview_count (legacy (fst result)) = preview_count (legacy st)
       /\ match snd ran with
          | Returns _ =>
              snd result = Returns FINISHED
              /\ reports (chat (fst result))
                 = (reports (chat st) ++ [(INFO, "Plan applied to scene")])%list
              /\ List.length (history (legacy (fst result)))
                 = List.length (history (legacy st))
              /\ forall i x,
                   nth_error (history (legacy st)) i = Some x ->
                   nth_error (history (legacy (fst result))) i
                   = Some (if i =? List.length (history (legacy st)) - 1
                           then mkHistory (h_prompt x) (h_plan x) true
                           else x)
          | Raises e =>
              history (legacy (fst result)) = history (legacy st)
              /\ if is_Exception e
                 then snd result = Returns FINISHED
                      /\ reports (chat (fst result))
                         = (reports (chat st)
                            ++ [(REPORT_ERROR, str_exn e)])%list
                 else snd result = Raises e
                      /\ reports (chat (fst result)) = reports (chat st)
          end.
Proof.
  intros st Hfloat.
  destruct (emitted_script_valid float_text (plan_text (props (chat st)))
              Hfloat) as (script & Hscript & Hvalid).
  exists script. split; [exact Hscript|]. cbv zeta.
  unfold RM_OT_Apply_execute, lbind, lget, ltry_except, llift.
  cbv beta iota. rewrite Hscript. cbv beta iota. rewrite Hvalid.
  cbv beta iota. destruct st as [[p b r] [pt pc h]].
  unfold on_chat, on_session, modify_legacy, report, lret, set_history.
  cbn [chat legacy props bpy reports history prompt_text preview_count].
  destruct (py_exec_globals script b) as [b' [[]|e]].
  - cbn [fst snd chat legacy props bpy reports history prompt_text
         preview_count].
    destruct h as [|h0 h].
    + cbn. repeat split. intros i x Hi. now destruct i.
    + cbn [List.length Nat.ltb Nat.leb].
      cbn [fst snd chat legacy props bpy reports history prompt_text
           preview_count].
      repeat split.
      * apply update_nth_length.
      * intros i x Hi.
        rewrite (nth_error_update_nth _ _ _ _ _ _ Hi). reflexivity.
  - cbn [fst snd]. destruct (is_Exception e).
    + cbn. repeat split.
    + cbn. repeat split.
Qed.

End LegacyApply.

Lemma apply_marks_latest_plan_accepted_witness :
  (forall tok r, float_text_sample tok = Some r ->
                 all_chars_in float_alphabet r = true)
  /\ nth_error
       (LegacyOperators.history
          (LegacyOperators.legacy
             (fst (LegacyOperators.RM_OT_Apply_execute exec_quietly
                     float_text_sample apply_state)))) 1
     = Some (LegacyOperators.mkHistory "b" "sphere r=2" true).
Proof.
  assert (Hfloat : forall tok r, float_text_sample tok = Some r ->
                                 all_chars_in float_alphabet r = true).
  { intros tok r. unfold float_text_sample.
    destruct (String.eqb tok "2"); [intros H; now inversion H|].
    destruct (String.eqb tok "1.5"); [intros H; now inversion H|].
    discriminate. }
  split; [exact Hfloat|].
  destruct (apply_marks_latest_plan_accepted exec_quietly float_text_sample
              apply_state Hfloat) as (script & _ & _ & _ & _ & _ & Hran).
  unfold exec_quietly at 1 in Hran. cbn [snd] in Hran.
  destruct Hran as (_ & _ & _ & Hnth).
  exact (Hnth 1 (LegacyOperators.mkHistory "b" "sphere r=2" false) eq_refl).
Defined.

Section DemoScripts.
Import PyStr BlenderUtils ModelInterfaceLegacy.

Variable py_compile : string -> compile_result.

(** X20.  Every demo script holds the definition of the entry point and
    passes both filters: the validator of the execution path, and, once
    the parser accepts it, the three checks of [validate_code_safety]. *)
Theorem demo_scripts_pass_both_filters : forall prompt,
  py_compile (generate_demo_code prompt) = Compiled ->
  contains "def rendermind_action(context):" (generate_demo_code prompt)
  = true
  /\ validate_script (generate_demo_code prompt) = Returns tt
  /\ SafeFilters.validate_code_safety py_compile (generate_demo_code prompt)
     = Returns (true, None).
Proof.
  intros prompt. unfold generate_demo_code.
  destruct (contains "cube" (lower prompt) || contains "box" (lower prompt));
    [|destruct (contains "sphere" (lower prompt)
                || contains "ball" (lower prompt));
      [|destruct (contains "cylinder" (lower prompt)
                  || contains "vase" (lower prompt))]];
    intros Hc;
    (split; [vm_compute; reflexivity|]);
    (split; [vm_compute; reflexivity|]);
    unfold SafeFilters.validate_code_safety;
    match goal with
    | |- context [SafeFilters.check_dangerous_patterns ?s] =>
        replace (SafeFilters.check_dangerous_patterns s)
          with (true, @nil SafeFilters.violation) by (vm_compute; reflexivity);
        replace (SafeFilters.check_imports s)
          with (true, @nil string) by (vm_compute; reflexivity)
    end;
    cbn [negb]; now rewrite Hc.
Qed.

End DemoScripts.

Lemma demo_scripts_pass_both_filters_witness :
  SafeFilters.validate_code_safety (fun _ => Compiled)
    (ModelInterfaceLegacy.generate_demo_code "a red ball")
  = Returns (true, None).
Proof.
  apply (demo_scripts_pass_both_filters (fun _ => Compiled) "a red ball").
  reflexivity.
Defined.

(* ------------------------------------------------------------------ *)
(** ** The model server *)
(* ------------------------------------------------------------------ *)

Section ServedCode.
Import PyStr Serve.

Lemma lstrip_by_suffix : forall f s, exists a, s = (a ++ lstrip_by f s)%string.
Proof.
  intros f s; induction s as [|c s (a & IH)].
  - now exists "".
  - cbn [lstrip_by]. destruct (f c).
    + exists (String c a). cbn. now rewrite <- IH.
    + now exists "".
Qed.

Lemma rstrip_by_prefix : forall f s, exists b, s = (rstrip_by f s ++ b)%string.
Proof.
  intros f s; induction s as [|c s (b & IH)].
  - now exists "".
  - cbn [rstrip_by]. destruct (rstrip_by f s) as [|d r] eqn:E.
    + destruct (f c).
      * now exists (String c s).
      * exists s. reflexivity.
    + exists b. cbn. cbn in IH. now rewrite <- IH.
Qed.

Lemma contains_in_context : forall sub a s b,
  contains sub s = true -> contains sub (a ++ s ++ b) = true.
Proof.
  intros sub a s b H. apply contains_iff in H. destruct H as (x & y & ->).
  apply contains_iff. exists (a ++ x)%string, (y ++ b)%string.
  now rewrite !append_assoc3.
Qed.

Lemma contains_strip : forall sub s,
  contains sub (strip s) = true -> contains sub s = true.
Proof.
  intros sub s H. unfold strip, strip_by in H.
  destruct (lstrip_by_suffix is_space s) as (a & Ha).
  destruct (rstrip_by_prefix is_space (lstrip_by is_space s)) as (b & Hb).
  rewrite Ha, Hb. now apply contains_in_context.
Qed.

Lemma contains_after_prompt : forall sub prompt out,
  contains sub (match partition prompt out with
                | Some (_, rest) => rest
                | None => out
                end) = true ->
  contains sub out = true.
Proof.
  intros sub prompt out H.
  destruct (partition prompt out) as [[a rest]|] eqn:E; [|exact H].
  apply partition_some in E. subst out.
  assert (Hshape : (a ++ prompt ++ rest)%string
                   = ((a ++ prompt) ++ rest ++ "")%string)
    by now rewrite append_empty, append_assoc3.
  rewrite Hshape. now apply contains_in_context.
Qed.

Lemma partition_echo : forall prompt completion,
  partition prompt (prompt ++ completion) = Some (EmptyString, completion).
Proof.
  intros prompt completion.
  assert (H : strip_prefix prompt (prompt ++ completion) = Some completion)
    by now apply strip_prefix_some.
  destruct (prompt ++ completion)%string; cbn [partition]; now rewrite H.
Qed.

Lemma empty_holds_no_token : forall token,
  In token BLACKLIST -> contains token EmptyString = false.
Proof.
  intros token H. unfold BLACKLIST in H.
  repeat (destruct H as [<-|H]; [reflexivity|]). destruct H.
Qed.

Variable run_model : string -> string.


End ServedCode.


(* ------------------------------------------------------------------ *)
(** ** The chat through the web socket *)
(* ------------------------------------------------------------------ *)

(** Evaluation of an operator on a state given by its parts. *)
Ltac crunch :=
  cbv beta iota zeta delta
    [Operators.mbind Operators.get Operators.ret Operators.lift
     Operators.try_except Operators.modify_props Operators.report
     Operators.add_message Operators.update_message Operators.as_str
     Operators.on_session Operators.set_messages Operators.set_chat_input
     Operators.set_is_thinking Operators.set_status Operators.set_error_msg
     Operators.props Operators.bpy Operators.reports
     BlenderUtils.chat_messages BlenderUtils.chat_input
     BlenderUtils.is_thinking BlenderUtils.auto_execute BlenderUtils.provider
     BlenderUtils.plan_text BlenderUtils.variants BlenderUtils.role
     BlenderUtils.content BlenderUtils.code BlenderUtils.timestamp
     BlenderUtils.status BlenderUtils.error_msg BlenderUtils.show_code
     ModelInterface.truthy_opt item negb fst snd].

Section WebSocketChat.
Import PyStr BlenderUtils Operators.

Variable now : string.
Variable assets : option (list ModelLibrary.walk_entry).
Variable generate_import_code : ModelLibrary.asset_record -> string -> string.
Variable backend : string -> outcome (option string * option string).
Variable py_exec :
  string -> session -> session * outcome (option (entry_point session)).

Lemma nth_error_snoc : forall A (l : list A) x,
  nth_error (l ++ [x]) (List.length l) = Some x.
Proof. intros A l x; induction l as [|y l IH]; [reflexivity|exact IH]. Qed.


End WebSocketChat.


Section ReplyWithoutContent.
Import PyStr BlenderUtils Operators.

Variable now : string.
Variable assets : option (list ModelLibrary.walk_entry).
Variable generate_import_code : ModelLibrary.asset_record -> string -> string.
Variable backend : string -> outcome (option string * option string).
Variable py_exec :
  string -> session -> session * outcome (option (entry_point session)).

(** X23.  A reply of the backend that carries neither content nor error is
    not handled by the generator, which raises a [TypeError] on it; the send
    operator catches it: the conversation gains the user's turn and a SYSTEM
    turn with the error text, no AI turn; the input box is cleared, the busy
    flag is off, one ERROR report is made and the operator is cancelled. *)
Theorem reply_without_content_is_reported : forall st error,
  let user_input := strip (chat_input (props st)) in
  let text := "argument of type 'NoneType' is not iterable" in
  truthy user_input = true ->
  provider (props st) = ModelInterface.OPENAI ->
  ModelLibrary.search_models assets user_input = [] ->
  backend user_input = Returns (None, error) ->
  ModelInterface.truthy_opt error = false ->
  RM_OT_SendMessage_execute now assets generate_import_code backend py_exec st
  = (mkState
       (mkProps
          (chat_messages (props st)
           ++ [mkMsg USER user_input "" now NONE "" false;
               mkMsg SYSTEM ("Error: " ++ text) "" now ERROR "" false])%list
          "" false (auto_execute (props st)) ModelInterface.OPENAI
          (plan_text (props st)) (variants (props st)))
       (bpy st)
       (reports st ++ [(REPORT_ERROR, text)])%list,
     Returns CANCELLED).
Proof.
  intros st error user_input text Htruthy Hprov Hsearch Hbackend Herror.
  subst user_input text.
  destruct st as [[msgs input thinking auto prov plan vars] b reps].
  cbn [props provider chat_input] in *. subst prov.
  unfold RM_OT_SendMessage_execute, ModelInterface.generate_blender_code.
  crunch. rewrite Htruthy. crunch. rewrite Hsearch, Hbackend.
  cbn [bind]. unfold ModelInterface.truthy_opt in Herror.
  rewrite Herror. crunch.
  cbn [is_Exception exc_cls str_exn exc_msg]. crunch.
  now rewrite <- app_assoc.
Qed.

End ReplyWithoutContent.

Lemma reply_without_content_is_reported_witness :
  snd (Operators.RM_OT_SendMessage_execute "12:00" None no_template
         (fun _ => Returns (None, None)) exec_raises_boom
         (chat_state "a cube" true []))
  = Returns Operators.CANCELLED.
Proof.
  rewrite (reply_without_content_is_reported "12:00" None no_template
             (fun _ => Returns (None, None)) exec_raises_boom
             (chat_state "a cube" true []) None);
    reflexivity.
Defined.

Lemma sanitize_quiet_iff_scan_clean_witness :
  fst (Sanitize.sanitize_code "import bpy") = "import bpy".
Proof.
  destruct (sanitize_quiet_iff_scan_clean "import bpy")
    as ((_ & Hquiet) & Hsame).
  apply Hsame. apply Hquiet. reflexivity.
Defined.

Lemma legacy_generation_never_returns_witness :
  exc_cls (unpacking_failure None no_template backend_unauthorized
             ModelInterface.OPENAI "a cube")
  = ValueError.
Proof.
  destruct (legacy_generation_never_returns None no_template
              backend_unauthorized ModelInterface.OPENAI "a cube" 0)
    as (_ & _ & _ & Hclass).
  apply (Hclass (None, None, Some "API Error 401: unauthorized")).
  reflexivity.
Defined.

